(** * A command-line todo list: storage, validation, formatting, management

    Shallow embedding of [todo.py] and the properties of its specification.

    Python data is modelled as follows.
    - A [str] is the list of its Unicode code points (numbers in [Z]).
    - The values that [json.load] can produce form the type [value]; a todo
      item is a [VDict] holding the keys [task], [completed] and [created].
    - The backing file is a list of bytes, or absent, together with the
      permissions that make [open] succeed or fail.
    - A manager operation is a function from the state of the world to an
      [outcome]: a normal return with a new world, an uncaught exception, or
      a call of [sys.exit].

    The library functions the program calls ([json.dump], [json.load], the
    UTF-8 codec of the file object, [int], [str.strip]) are modelled after
    CPython.  Two limits of the interpreter decide how [json.load] ends and
    are part of the model: the depth to which the scanner can nest arrays
    and objects before it raises [RecursionError], and the cap on the digits
    of an integer numeral, beyond which the conversion raises [ValueError];
    [load_todos] catches neither.  Where the program itself catches the
    [ValueError] of [int] (the index of a command) the cap is left out, and
    so is the memory of the machine; the console accepts every character.
    Lines end with a line feed, as on POSIX.  The command line ([argparse],
    [main]) is not part of the model. *)

From Stdlib Require Import ZArith Lia List Ascii String Bool DecimalString
  DecimalPos DecimalZ.
From stdpp Require Import base list.
Import ListNotations.
Local Open Scope Z_scope.
Set Warnings "-register-all".

(** ** Python strings *)

Definition str := list Z.

(** Code points of a literal written with ASCII characters only. *)
Definition lit (s : string) : str :=
  map (fun a => Z.of_nat (nat_of_ascii a)) (list_ascii_of_string s).

Definition in_range (lo hi c : Z) : bool := (lo <=? c) && (c <=? hi).

(** [Py_UNICODE_ISSPACE]: the characters [str.isspace] accepts and
    [str.strip] removes. *)
Definition isspace (c : Z) : bool :=
  in_range 9 13 c || in_range 28 32 c || (c =? 133) || (c =? 160)
  || (c =? 5760) || in_range 8192 8202 c || (c =? 8232) || (c =? 8233)
  || (c =? 8239) || (c =? 8287) || (c =? 12288).

Fixpoint lstrip (s : str) : str :=
  match s with
  | c :: r => if isspace c then lstrip r else s
  | [] => []
  end.

Definition rstrip (s : str) : str := rev (lstrip (rev s)).

(** [s.strip()] *)
Definition strip (s : str) : str := rstrip (lstrip s).

(** Truth value of a string: non-empty. *)
Definition str_bool (s : str) : bool :=
  match s with [] => false | _ :: _ => true end.

(** [str(n)] for an integer: its decimal numeral. *)
Definition str_of_int (n : Z) : str :=
  lit (NilZero.string_of_int (Z.to_int n)).

Definition is_digit (c : Z) : bool := in_range 48 57 c.

(** ** Exceptions and results *)

(** The exceptions that can leave a function of the program.  The errors
    the program catches ([JSONDecodeError] and [IOError] on loading, [IOError]
    on saving, [ValueError] of [int] on an index) never leave it and appear
    as the branches that handle them; the [ValueError] here is the one of
    [json.load], which nothing catches. *)
Inductive exn :=
| UnicodeDecodeError | UnicodeEncodeError
| KeyError | TypeError | IndexError | AttributeError
| RecursionError | ValueError.

Inductive result (A : Type) :=
| Ok (a : A)
| Err (e : exn).
Arguments Ok {A} a.
Arguments Err {A} e.

Definition rbind {A B} (r : result A) (k : A -> result B) : result B :=
  match r with
  | Ok a => k a
  | Err e => Err e
  end.

Declare Scope result_scope.
Delimit Scope result_scope with result.
Notation "'do' x <- r ; k" := (rbind r (fun x => k))
  (at level 10, x name, r at level 100, k at level 200) : result_scope.

(** ** Python values

    The objects [json.load] builds.  A float is kept as the literal it was
    read from; a dict keeps its keys in insertion order. *)

Inductive value :=
| VNone
| VBool (b : bool)
| VInt (n : Z)
| VFloat (literal : str)
| VStr (s : str)
| VList (l : list value)
| VDict (d : list (str * value)).

Fixpoint dict_get (d : list (str * value)) (k : str) : option value :=
  match d with
  | [] => None
  | (k', v) :: r => if bool_decide (k' = k) then Some v else dict_get r k
  end.

(** [d[k] = v]: an existing key keeps its place, a new one goes last. *)
Fixpoint dict_set (d : list (str * value)) (k : str) (v : value)
  : list (str * value) :=
  match d with
  | [] => [(k, v)]
  | (k', v') :: r =>
      if bool_decide (k' = k) then (k', v) :: r else (k', v') :: dict_set r k v
  end.

(** Position an index denotes in a sequence of length [n]: negative indices
    count from the end. *)
Definition norm_index (i : Z) (n : nat) : Z :=
  if i <? 0 then i + Z.of_nat n else i.

Definition index_ok (i : Z) (n : nat) : bool :=
  (0 <=? norm_index i n) && (norm_index i n <? Z.of_nat n).

(** [v[k]] for a string key [k]. *)
Definition getitem_str (v : value) (k : str) : result value :=
  match v with
  | VDict d =>
      match dict_get d k with
      | Some x => Ok x
      | None => Err KeyError
      end
  | _ => Err TypeError
  end.

(** [v[k] = x] for a string key [k]. *)
Definition setitem_str (v : value) (k : str) (x : value) : result value :=
  match v with
  | VDict d => Ok (VDict (dict_set d k x))
  | _ => Err TypeError
  end.

(** [v[i]] for an integer [i]. *)
Definition getitem_int (v : value) (i : Z) : result value :=
  match v with
  | VList l =>
      match l !! Z.to_nat (norm_index i (length l)) with
      | Some x => if index_ok i (length l) then Ok x else Err IndexError
      | None => Err IndexError
      end
  | VStr s =>
      match s !! Z.to_nat (norm_index i (length s)) with
      | Some c => if index_ok i (length s) then Ok (VStr [c]) else Err IndexError
      | None => Err IndexError
      end
  | VDict _ => Err KeyError
  | _ => Err TypeError
  end.

(** [v[i][k] = x]: the item [v[i]] is updated in place, so the change shows
    in [v] and in every name bound to the item.  The result is [v] and the
    item, both after the update. *)
Definition setitem_item (v : value) (i : Z) (k : str) (x : value)
  : result (value * value) :=
  (do item <- getitem_int v i;
   do item' <- setitem_str item k x;
   match v with
   | VList l =>
       Ok (VList (<[Z.to_nat (norm_index i (length l)) := item']> l), item')
   | _ => Ok (v, item')
   end)%result.

(** [v.pop(i)]: the removed item and what is left of [v]. *)
Definition py_pop (v : value) (i : Z) : result (value * value) :=
  match v with
  | VList l =>
      match l !! Z.to_nat (norm_index i (length l)) with
      | Some x =>
          if index_ok i (length l)
          then Ok (x, VList (delete (Z.to_nat (norm_index i (length l))) l))
          else Err IndexError
      | None => Err IndexError
      end
  | VDict _ => Err KeyError
  | _ => Err AttributeError
  end.

(** [v.append(x)] *)
Definition py_append (v : value) (x : value) : result value :=
  match v with
  | VList l => Ok (VList (l ++ [x]))
  | _ => Err AttributeError
  end.

(** [len(v)] *)
Definition py_len (v : value) : result Z :=
  match v with
  | VList l => Ok (Z.of_nat (length l))
  | VStr s => Ok (Z.of_nat (length s))
  | VDict d => Ok (Z.of_nat (length d))
  | _ => Err TypeError
  end.

(** The items a [for] loop over [v] visits. *)
Definition py_iter (v : value) : result (list value) :=
  match v with
  | VList l => Ok l
  | VStr s => Ok (map (fun c => VStr [c]) s)
  | VDict d => Ok (map (fun kv => VStr (fst kv)) d)
  | _ => Err TypeError
  end.

(** ** The interpreter's tables and limits

    These parts of the Python runtime are taken as parameters: the decimal
    digit property of the Unicode database ([Py_UNICODE_TODECIMAL], used by
    [int] on characters outside ASCII), the floating-point numbers (truth
    value of a float and the text [json] writes for it), and two limits.
    [int_max_str_digits] is [sys.get_int_max_str_digits()]: 0 when there is
    no cap.  [nesting_limit] is the number of arrays and objects the JSON
    scanner can be inside of at once: what the recursion limit leaves when
    [json.load] is called.  An interpreter that runs the program has room
    for a list of records, which nests two deep. *)

Class Runtime := {
  unicode_decimal : Z -> option Z;
  float_bool : str -> bool;
  float_json : str -> str;
  int_max_str_digits : Z;
  nesting_limit : nat;
  nesting_room : (2 <= nesting_limit)%nat
}.

Section Model.

Context {rt : Runtime}.

(** Truth value of an object, as [if v:] and [not v] see it. *)
Definition py_bool (v : value) : bool :=
  match v with
  | VNone => false
  | VBool b => b
  | VInt n => negb (n =? 0)
  | VFloat f => float_bool f
  | VStr s => str_bool s
  | VList l => match l with [] => false | _ :: _ => true end
  | VDict d => match d with [] => false | _ :: _ => true end
  end.

(** ** [int(s)] for a string

    The string is first brought to ASCII: a character below 127 stays, a
    Unicode space becomes a blank, a Unicode decimal digit becomes the ASCII
    digit, and the first other character becomes [?] and ends the text.  The
    numeral is then blanks, a sign, digits with single underscores between
    them, blanks. *)

Fixpoint to_ascii_digits (s : str) : str :=
  match s with
  | [] => []
  | c :: r =>
      if c <? 127 then c :: to_ascii_digits r
      else if isspace c then 32 :: to_ascii_digits r
      else match unicode_decimal c with
           | Some d => (48 + d) :: to_ascii_digits r
           | None => [63]
           end
  end.

Definition transform_decimal_and_space (s : str) : str :=
  if forallb (fun c => c <? 128) s then s else to_ascii_digits s.

(** [Py_ISSPACE] *)
Definition ascii_space (c : Z) : bool := in_range 9 13 c || (c =? 32).

Fixpoint skip_ascii_space (s : str) : str :=
  match s with
  | c :: r => if ascii_space c then skip_ascii_space r else s
  | [] => []
  end.

(** Digits and underscores after the first digit; [prev_us] tells whether
    the previous character was an underscore. *)
Fixpoint scan_digits (acc : Z) (prev_us : bool) (s : str) : option (Z * str) :=
  match s with
  | [] => if prev_us then None else Some (acc, [])
  | c :: r =>
      if is_digit c then scan_digits (10 * acc + (c - 48)) false r
      else if c =? 95 then
        if prev_us then None else scan_digits acc true r
      else if prev_us then None else Some (acc, s)
  end.

Definition long_from_string (s : str) : option Z :=
  let s1 := skip_ascii_space s in
  let '(negative, s2) :=
    match s1 with
    | c :: r => if c =? 43 then (false, r)
                else if c =? 45 then (true, r) else (false, s1)
    | [] => (false, s1)
    end in
  match s2 with
  | c :: r =>
      if is_digit c then
        match scan_digits (c - 48) false r with
        | Some (n, rest) =>
            match skip_ascii_space rest with
            | [] => Some (if negative then - n else n)
            | _ :: _ => None
            end
        | None => None
        end
      else None
  | [] => None
  end.

(** [int(s)]; [None] stands for the [ValueError]. *)
Definition py_int (s : str) : option Z :=
  long_from_string (transform_decimal_and_space s).

(** ** [json.dump(todos, file, indent=2, ensure_ascii=False)]

    The encoder escapes the quote, the backslash and the control characters
    below U+0020 and writes every other character as it is. *)

Definition hex_digit (n : Z) : Z := if n <? 10 then 48 + n else 87 + n.

Definition escape_char (c : Z) : str :=
  if c =? 34 then [92; 34]
  else if c =? 92 then [92; 92]
  else if c =? 10 then [92; 110]
  else if c =? 13 then [92; 114]
  else if c =? 9 then [92; 116]
  else if c =? 8 then [92; 98]
  else if c =? 12 then [92; 102]
  else if in_range 0 31 c then [92; 117; 48; 48; hex_digit (c / 16); hex_digit (c mod 16)]
  else [c].

Definition encode_basestring (s : str) : str :=
  34 :: concat (map escape_char s) ++ [34].

(** The items of a list or dict, each after [sep] except the first. *)
Fixpoint join (sep : str) (items : list str) : str :=
  match items with
  | [] => []
  | [x] => x
  | x :: r => x ++ sep ++ join sep r
  end.

(** A line break followed by the indentation of nesting depth [level]. *)
Definition newline_indent (level : nat) : str :=
  10 :: repeat 32 (2 * level)%nat.

Fixpoint iterencode (level : nat) (v : value) : str :=
  match v with
  | VNone => lit "null"
  | VBool true => lit "true"
  | VBool false => lit "false"
  | VInt n => str_of_int n
  | VFloat f => float_json f
  | VStr s => encode_basestring s
  | VList [] => lit "[]"
  | VList l =>
      [91] ++ newline_indent (S level)
      ++ join (44 :: newline_indent (S level)) (map (iterencode (S level)) l)
      ++ newline_indent level ++ [93]
  | VDict [] => lit "{}"
  | VDict d =>
      [123] ++ newline_indent (S level)
      ++ join (44 :: newline_indent (S level))
           (map (fun kv => encode_basestring (fst kv) ++ [58; 32]
                           ++ iterencode (S level) (snd kv)) d)
      ++ newline_indent level ++ [125]
  end.

Definition json_dumps (v : value) : str := iterencode 0 v.

(** ** [json.load]: the scanner

    A scan either yields an object and the text after it, or fails with a
    [JSONDecodeError], or exhausts its budget of steps, or ends with an
    exception that is no [JSONDecodeError]. *)

Inductive scan (A : Type) :=
| Scanned (a : A) (rest : str)
| Invalid
| Fuel
| Raised (e : exn).
#[global] Arguments Scanned {A} a rest.
#[global] Arguments Invalid {A}.
#[global] Arguments Fuel {A}.
#[global] Arguments Raised {A} e.

Definition scan_map {A B} (f : A -> B) (r : scan A) : scan B :=
  match r with
  | Scanned a rest => Scanned (f a) rest
  | Invalid => Invalid
  | Fuel => Fuel
  | Raised e => Raised e
  end.

(** JSON whitespace: blank, tab, line feed, carriage return. *)
Definition json_ws (c : Z) : bool :=
  (c =? 32) || (c =? 9) || (c =? 10) || (c =? 13).

Fixpoint skip_ws (s : str) : str :=
  match s with
  | c :: r => if json_ws c then skip_ws r else s
  | [] => []
  end.

Definition hex_value (c : Z) : option Z :=
  if in_range 48 57 c then Some (c - 48)
  else if in_range 97 102 c then Some (c - 87)
  else if in_range 65 70 c then Some (c - 55)
  else None.

Definition hex4 (a b c d : Z) : option Z :=
  match hex_value a, hex_value b, hex_value c, hex_value d with
  | Some x, Some y, Some z, Some w => Some (((x * 16 + y) * 16 + z) * 16 + w)
  | _, _, _, _ => None
  end.

Definition high_surrogate (c : Z) : bool := in_range 55296 56319 c.
Definition low_surrogate (c : Z) : bool := in_range 56320 57343 c.
Definition join_surrogates (hi lo : Z) : Z :=
  65536 + ((hi - 55296) * 1024 + (lo - 56320)).

(** Simple escapes: the character after the backslash and what it denotes. *)
Definition unescape (e : Z) : option Z :=
  if e =? 34 then Some 34
  else if e =? 92 then Some 92
  else if e =? 47 then Some 47
  else if e =? 98 then Some 8
  else if e =? 102 then Some 12
  else if e =? 110 then Some 10
  else if e =? 114 then Some 13
  else if e =? 116 then Some 9
  else None.

(** The text of a string literal, scanned from just after its opening
    quote (strict mode: a raw control character is an error). *)
Fixpoint scanstring (s : str) : scan str :=
  match s with
  | [] => Invalid
  | c :: r =>
      if c =? 34 then Scanned [] r
      else if c =? 92 then
        match r with
        | [] => Invalid
        | e :: r1 =>
            if e =? 117 then
              match r1 with
              | h1 :: h2 :: h3 :: h4 :: r2 =>
                  match hex4 h1 h2 h3 h4 with
                  | None => Invalid
                  | Some u =>
                      if high_surrogate u then
                        match r2 with
                        | b :: u' :: g1 :: g2 :: g3 :: g4 :: r3 =>
                            if (b =? 92) && (u' =? 117) then
                              match hex4 g1 g2 g3 g4 with
                              | None => Invalid
                              | Some u2 =>
                                  if low_surrogate u2
                                  then scan_map (cons (join_surrogates u u2))
                                         (scanstring r3)
                                  else scan_map (cons u) (scanstring r2)
                              end
                            else scan_map (cons u) (scanstring r2)
                        | _ => scan_map (cons u) (scanstring r2)
                        end
                      else scan_map (cons u) (scanstring r2)
                  end
              | _ => Invalid
              end
            else
              match unescape e with
              | Some x => scan_map (cons x) (scanstring r1)
              | None => Invalid
              end
        end
      else if c <=? 31 then Invalid
      else scan_map (cons c) (scanstring r)
  end.

Fixpoint span_digits (s : str) : str * str :=
  match s with
  | c :: r =>
      if is_digit c
      then let '(ds, rest) := span_digits r in (c :: ds, rest)
      else ([], s)
  | [] => ([], [])
  end.

Definition digits_value (ds : str) : Z :=
  fold_left (fun acc c => 10 * acc + (c - 48)) ds 0.

(** The integer part of a numeral: [0], or a non-zero digit and more
    digits. *)
Definition scan_int_part (s : str) : option (str * str) :=
  match s with
  | c :: r =>
      if in_range 49 57 c
      then let '(ds, rest) := span_digits r in Some (c :: ds, rest)
      else if c =? 48 then Some ([c], r)
      else None
  | [] => None
  end.

(** A fraction: a dot followed by at least one digit. *)
Definition scan_frac (s : str) : str * str :=
  match s with
  | dot :: d :: r =>
      if (dot =? 46) && is_digit d
      then let '(ds, rest) := span_digits r in (dot :: d :: ds, rest)
      else ([], s)
  | _ => ([], s)
  end.

(** An exponent: [e] or [E], a sign or none, at least one digit. *)
Definition scan_exp (s : str) : str * str :=
  match s with
  | e :: r =>
      if (e =? 101) || (e =? 69) then
        let '(sign, r1) :=
          match r with
          | c :: r' => if (c =? 43) || (c =? 45) then ([c], r') else ([], r)
          | [] => ([], r)
          end in
        match span_digits r1 with
        | ([], _) => ([], s)
        | (ds, rest) => (e :: sign ++ ds, rest)
        end
      else ([], s)
  | [] => ([], s)
  end.

(** [int] refuses a numeral of more digits than the cap
    ([PyLong_FromString]; numerals of up to 640 digits are never checked). *)
Definition too_many_digits (digits : str) : bool :=
  (640 <? Z.of_nat (length digits)) && (0 <? int_max_str_digits)
  && (int_max_str_digits <? Z.of_nat (length digits)).

(** A numeral without fraction and exponent is converted by [int], which
    raises [ValueError] beyond the cap; any other numeral is a float. *)
Definition match_number (s : str) : scan value :=
  let '(negative, s1) :=
    match s with
    | c :: r => if c =? 45 then (true, r) else (false, s)
    | [] => (false, s)
    end in
  match scan_int_part s1 with
  | None => Invalid
  | Some (ip, r1) =>
      let '(frac, r2) := scan_frac r1 in
      let '(ex, r3) := scan_exp r2 in
      match frac, ex with
      | [], [] =>
          if too_many_digits ip then Raised ValueError
          else
            Scanned (VInt (if negative then - digits_value ip else digits_value ip))
              r3
      | _, _ =>
          Scanned (VFloat ((if negative then [45] else []) ++ ip ++ frac ++ ex)) r3
      end
  end.

(** [s] without the literal [p] at its front, when it starts with it. *)
Fixpoint strip_prefix (p s : str) : option str :=
  match p, s with
  | [], _ => Some s
  | a :: p', b :: s' => if a =? b then strip_prefix p' s' else None
  | _ :: _, [] => None
  end.

(** The dict an object literal denotes: a repeated key keeps its first
    place and takes the last value. *)
Definition dict_of_pairs (pairs : list (str * value)) : list (str * value) :=
  fold_left (fun d kv => dict_set d (fst kv) (snd kv)) pairs [].

(** [depth] is the number of arrays and objects the scanner may still
    enter ([Py_EnterRecursiveCall] guards both); [fuel] bounds the steps. *)
Fixpoint scan_once (fuel : nat) (depth : nat) (s : str) {struct fuel}
  : scan value :=
  match fuel with
  | O => Fuel
  | S n =>
      match s with
      | [] => Invalid
      | c :: r =>
          if c =? 34 then scan_map VStr (scanstring r)
          else if c =? 123 then
            match depth with
            | O => Raised RecursionError
            | S inner =>
                match skip_ws r with
                | c' :: r' =>
                    if c' =? 125 then Scanned (VDict []) r'
                    else scan_map (fun ps => VDict (dict_of_pairs ps))
                           (parse_object n inner (skip_ws r))
                | [] => Invalid
                end
            end
          else if c =? 91 then
            match depth with
            | O => Raised RecursionError
            | S inner =>
                match skip_ws r with
                | c' :: r' =>
                    if c' =? 93 then Scanned (VList []) r'
                    else scan_map VList (parse_array n inner (skip_ws r))
                | [] => Invalid
                end
            end
          else
            match strip_prefix (lit "null") s with
            | Some rest => Scanned VNone rest
            | None =>
            match strip_prefix (lit "true") s with
            | Some rest => Scanned (VBool true) rest
            | None =>
            match strip_prefix (lit "false") s with
            | Some rest => Scanned (VBool false) rest
            | None =>
            match strip_prefix (lit "NaN") s with
            | Some rest => Scanned (VFloat (lit "NaN")) rest
            | None =>
            match strip_prefix (lit "Infinity") s with
            | Some rest => Scanned (VFloat (lit "Infinity")) rest
            | None =>
            match strip_prefix (lit "-Infinity") s with
            | Some rest => Scanned (VFloat (lit "-Infinity")) rest
            | None => match_number s
            end end end end end end
      end
  end

(** The items of a non-empty array, from its first item to the closing
    bracket. *)
with parse_array (fuel : nat) (depth : nat) (s : str) {struct fuel}
  : scan (list value) :=
  match fuel with
  | O => Fuel
  | S n =>
      match scan_once n depth s with
      | Scanned v rest =>
          match skip_ws rest with
          | c :: r =>
              if c =? 93 then Scanned [v] r
              else if c =? 44
              then scan_map (cons v) (parse_array n depth (skip_ws r))
              else Invalid
          | [] => Invalid
          end
      | Invalid => Invalid
      | Fuel => Fuel
      | Raised e => Raised e
      end
  end

(** The members of a non-empty object, from its first key to the closing
    brace. *)
with parse_object (fuel : nat) (depth : nat) (s : str) {struct fuel}
  : scan (list (str * value)) :=
  match fuel with
  | O => Fuel
  | S n =>
      match s with
      | q :: r =>
          if q =? 34 then
            match scanstring r with
            | Scanned key rest =>
                match skip_ws rest with
                | colon :: r1 =>
                    if colon =? 58 then
                      match scan_once n depth (skip_ws r1) with
                      | Scanned v rest1 =>
                          match skip_ws rest1 with
                          | c :: r2 =>
                              if c =? 125 then Scanned [(key, v)] r2
                              else if c =? 44
                              then scan_map (cons (key, v))
                                     (parse_object n depth (skip_ws r2))
                              else Invalid
                          | [] => Invalid
                          end
                      | Invalid => Invalid
                      | Fuel => Fuel
                      | Raised e => Raised e
                      end
                    else Invalid
                | [] => Invalid
                end
            | Invalid => Invalid
            | Fuel => Fuel
            | Raised e => Raised e
            end
          else Invalid
      | [] => Invalid
      end
  end.

(** [json.loads(s)]: a byte order mark is refused, whitespace may surround
    the document, nothing else may follow it. *)
Definition json_loads (s : str) : scan value :=
  if match s with c :: _ => c =? 65279 | [] => false end then Invalid
  else
    match scan_once (S (2 * length s)) nesting_limit (skip_ws s) with
    | Scanned v rest =>
        match skip_ws rest with
        | [] => Scanned v []
        | _ :: _ => Invalid
        end
    | Invalid => Invalid
    | Fuel => Fuel
    | Raised e => Raised e
    end.

(** ** The UTF-8 codec of the file object

    [open(..., encoding='utf-8')] encodes and decodes strictly: a surrogate
    cannot be written, and a byte sequence that is not well-formed UTF-8
    cannot be read. *)

Definition is_surrogate (c : Z) : bool := in_range 55296 57343 c.

Definition utf8_encode_char (c : Z) : option (list Z) :=
  if c <? 0 then None
  else if c <? 128 then Some [c]
  else if c <? 2048 then Some [192 + c / 64; 128 + c mod 64]
  else if c <? 65536 then
    if is_surrogate c then None
    else Some [224 + c / 4096; 128 + (c / 64) mod 64; 128 + c mod 64]
  else if c <? 1114112 then
    Some [240 + c / 262144; 128 + (c / 4096) mod 64;
          128 + (c / 64) mod 64; 128 + c mod 64]
  else None.

Fixpoint utf8_encode (s : str) : option (list Z) :=
  match s with
  | [] => Some []
  | c :: r =>
      match utf8_encode_char c, utf8_encode r with
      | Some bs, Some rest => Some (bs ++ rest)
      | _, _ => None
      end
  end.

Definition is_cont (b : Z) : bool := in_range 128 191 b.

Fixpoint utf8_decode (bs : list Z) : option str :=
  match bs with
  | [] => Some []
  | b0 :: r0 =>
      if in_range 0 127 b0 then option_map (cons b0) (utf8_decode r0)
      else if in_range 194 223 b0 then
        match r0 with
        | b1 :: r1 =>
            if is_cont b1
            then option_map (cons ((b0 - 192) * 64 + (b1 - 128))) (utf8_decode r1)
            else None
        | _ => None
        end
      else if in_range 224 239 b0 then
        match r0 with
        | b1 :: b2 :: r2 =>
            let c := ((b0 - 224) * 64 + (b1 - 128)) * 64 + (b2 - 128) in
            if is_cont b1 && is_cont b2 && (2048 <=? c) && negb (is_surrogate c)
            then option_map (cons c) (utf8_decode r2)
            else None
        | _ => None
        end
      else if in_range 240 244 b0 then
        match r0 with
        | b1 :: b2 :: b3 :: r3 =>
            let c := (((b0 - 240) * 64 + (b1 - 128)) * 64 + (b2 - 128)) * 64
                     + (b3 - 128) in
            if is_cont b1 && is_cont b2 && is_cont b3
               && (65536 <=? c) && (c <? 1114112)
            then option_map (cons c) (utf8_decode r3)
            else None
        | _ => None
        end
      else None
  end.

(** Universal newlines, as a file opened for reading in text mode applies
    them: [\r\n] and [\r] are read as [\n]. *)
Fixpoint translate_newlines (s : str) : str :=
  match s with
  | [] => []
  | c :: r =>
      if c =? 13 then
        match r with
        | c' :: r' => if c' =? 10 then 10 :: translate_newlines r'
                      else 10 :: translate_newlines r
        | [] => [10]
        end
      else c :: translate_newlines r
  end.

(** ** Console output

    A printed text is a sequence of characters; where an f-string formats
    an object whose [str()] is not modelled (a float or a container), the
    object itself stands in the text.  [ErrText] is the message of an
    [OSError]. *)

Inductive atom :=
| Ch (c : Z)
| Repr (v : value)
| ErrText.

Definition text := list atom.

Definition chars (s : str) : text := map Ch s.

(** How an f-string shows an object. *)
Definition show (v : value) : text :=
  match v with
  | VStr s => chars s
  | VInt n => chars (str_of_int n)
  | VBool true => chars (lit "True")
  | VBool false => chars (lit "False")
  | VNone => chars (lit "None")
  | VFloat _ | VList _ | VDict _ => [Repr v]
  end.

(** ** The world a command runs in *)

Inductive event :=
| Printed (line : text)
| Saved (todos : value).

Record world := {
  file : option (list Z);   (* bytes of todos.json, [None] if there is no file *)
  readable : bool;          (* [open(filename, 'r')] succeeds *)
  writable : bool;          (* [open(filename, 'w')] succeeds *)
  clock : str;              (* [datetime.now().strftime('%Y-%m-%d %H:%M')] *)
  events : list event       (* what has been printed and saved, oldest first *)
}.

Definition log (e : event) (w : world) : world :=
  {| file := file w; readable := readable w; writable := writable w;
     clock := clock w; events := events w ++ [e] |}.

Definition write_file (bytes : list Z) (w : world) : world :=
  {| file := Some bytes; readable := readable w; writable := writable w;
     clock := clock w; events := events w |}.

Inductive outcome (A : Type) :=
| Return (a : A) (w : world)
| Raise (e : exn)
| Exit (code : Z) (w : world).
#[global] Arguments Return {A} a w.
#[global] Arguments Raise {A} e.
#[global] Arguments Exit {A} code w.

Definition M (A : Type) : Type := world -> outcome A.

Definition ret {A} (a : A) : M A := fun w => Return a w.

Definition bind {A B} (c : M A) (k : A -> M B) : M B :=
  fun w =>
    match c w with
    | Return a w' => k a w'
    | Raise e => Raise e
    | Exit code w' => Exit code w'
    end.

Definition lift {A} (r : result A) : M A :=
  fun w => match r with Ok a => Return a w | Err e => Raise e end.

Declare Scope io_scope.
Delimit Scope io_scope with io.
Notation "'do' x <- c ; k" := (bind c (fun x => k))
  (at level 10, x name, c at level 100, k at level 200) : io_scope.
Notation "'exec' c ; k" := (bind c (fun _ => k))
  (at level 10, c at level 100, k at level 200) : io_scope.

Definition print (line : text) : M unit :=
  fun w => Return tt (log (Printed line) w).

Definition now_string : M str := fun w => Return (clock w) w.

(** ** TodoStorage *)

(** [load_todos]: the empty list when there is no file, when the file cannot
    be opened ([IOError]) and when its text is not JSON ([JSONDecodeError]).
    The [except] clause names nothing else: bytes that are not UTF-8 raise
    [UnicodeDecodeError], and [json.load] can raise [RecursionError] and
    [ValueError]. *)
Definition load_todos : M value :=
  fun w =>
    match file w with
    | None => Return (VList []) w
    | Some bytes =>
        if readable w then
          match utf8_decode bytes with
          | None => Raise UnicodeDecodeError
          | Some content =>
              match json_loads (translate_newlines content) with
              | Scanned v _ => Return v w
              | Invalid => Return (VList []) w
              | Raised e => Raise e
              | Fuel => Raise RecursionError
                  (* the budget of steps never runs out: json_loads_finishes *)
              end
          end
        else Return (VList []) w
    end.

(** [save_todos]: when the file cannot be opened for writing ([IOError]) the
    error is printed and the program exits with status 1.  A text that holds
    a surrogate cannot be encoded: the [UnicodeEncodeError] is not caught,
    and what is left of the file is not followed. *)
Definition save_todos (todos : value) : M unit :=
  fun w =>
    if writable w then
      match utf8_encode (json_dumps todos) with
      | Some bytes => Return tt (log (Saved todos) (write_file bytes w))
      | None => Raise UnicodeEncodeError
      end
    else
      Exit 1 (log (Printed (chars (10060 :: lit " Error saving todos: ")
                            ++ [ErrText])) w).

(** ** TodoFormatter *)

Definition COLORS : list (string * str) :=
  [ ("green", 27 :: lit "[92m"); ("red", 27 :: lit "[91m");
    ("yellow", 27 :: lit "[93m"); ("blue", 27 :: lit "[94m");
    ("magenta", 27 :: lit "[95m"); ("cyan", 27 :: lit "[96m");
    ("white", 27 :: lit "[97m"); ("bold", 27 :: lit "[1m");
    ("reset", 27 :: lit "[0m") ]%string.

Definition SYMBOLS : list (string * str) :=
  [ ("check", [9989]); ("cross", [10060]); ("list", [128203]);
    ("trash", [128465; 65039]); ("empty", [128237]); ("add", [10133]);
    ("todo", [128221]); ("done", [9745; 65039]); ("pending", [9203]) ]%string.

Fixpoint table_get (table : list (string * str)) (key : string) : str :=
  match table with
  | [] => []
  | (k, v) :: r => if String.eqb k key then v else table_get r key
  end.

Definition colorize (t : text) (color : string) : text :=
  chars (table_get COLORS color) ++ t ++ chars (table_get COLORS "reset").

Definition format_todo_item (todo : value) (index : Z) : result text :=
  (do c1 <- getitem_str todo (lit "completed");
   let status := if py_bool c1 then [10003] else [32] in
   do c2 <- getitem_str todo (lit "completed");
   let status_color := (if py_bool c2 then "green" else "yellow")%string in
   let checkbox := colorize (chars ([91] ++ status ++ [93])) status_color in
   do task <- getitem_str todo (lit "task");
   do c3 <- getitem_str todo (lit "completed");
   let task_text :=
     if py_bool c3 then colorize (show task) "green" else show task in
   do created <- getitem_str todo (lit "created");
   let date_str := colorize (chars [40] ++ show created ++ chars [41]) "blue" in
   Ok (colorize (chars (str_of_int index)) "magenta" ++ chars (lit ". ")
       ++ checkbox ++ chars [32] ++ task_text ++ chars [32] ++ date_str))%result.

Definition print_header (title : str) : M unit :=
  (exec print (chars ([10] ++ table_get SYMBOLS "todo" ++ [32])
               ++ colorize (chars title) "bold");
   print (colorize (chars (repeat 61 (length title + 3))) "cyan"))%io.

Definition print_success (message : text) : M unit :=
  print (chars (table_get SYMBOLS "check" ++ [32]) ++ colorize message "green").

Definition print_error (message : text) : M unit :=
  print (chars (table_get SYMBOLS "cross" ++ [32]) ++ colorize message "red").

Definition print_info (message : text) : M unit :=
  print (chars (table_get SYMBOLS "list" ++ [32]) ++ colorize message "blue").

(** ** TodoValidator *)

(** [bool(task and task.strip())]; [None] stands for Python's [None]. *)
Definition validate_task_text (task : option str) : bool :=
  match task with
  | None => false
  | Some s => if str_bool s then str_bool (strip s) else false
  end.

(** [1 <= index <= len(todos)]: the length is taken only when the first
    comparison holds. *)
Definition validate_task_index (todos : value) (index : Z) : result bool :=
  if 1 <=? index
  then (do n <- py_len todos; Ok (index <=? n))%result
  else Ok false.

Definition get_valid_task_index (todos : value) (index_str : str)
  : result (option Z) :=
  match py_int index_str with
  | Some index =>
      (do valid <- validate_task_index todos index;
       Ok (if valid then Some index else None))%result
  | None => Ok None
  end.

(** ** TodoManager *)

Definition create_todo (task : str) : M value :=
  (do created <- now_string;
   ret (VDict [ (lit "task", VStr (strip task));
                (lit "completed", VBool false);
                (lit "created", VStr created) ]))%io.

Definition add_task (task : str) : M bool :=
  if validate_task_text (Some task) then
    (do todos <- load_todos;
     do new_todo <- create_todo task;
     do todos' <- lift (py_append todos new_todo);
     exec save_todos todos';
     exec print_success (chars (lit "Task added: ") ++ chars task);
     ret true)%io
  else
    (exec print_error (chars (lit "Task cannot be empty!"));
     ret false)%io.

(** [[todo for todo in todos if todo['completed']]] when [completed] is
    [true], and the comprehension with [not todo['completed']] when it is
    [false]. *)
Fixpoint select (completed : bool) (todos : list value) : result (list value) :=
  match todos with
  | [] => Ok []
  | todo :: r =>
      (do c <- getitem_str todo (lit "completed");
       do rest <- select completed r;
       Ok (if Bool.eqb (py_bool c) completed then todo :: rest else rest))%result
  end.

(** [for i, todo in enumerate(tasks, start): print(f"  {format_todo_item(todo, i)}")] *)
Fixpoint print_items (tasks : list value) (i : Z) : M unit :=
  match tasks with
  | [] => ret tt
  | todo :: r =>
      (do line <- lift (format_todo_item todo i);
       exec print (chars (lit "  ") ++ line);
       print_items r (i + 1))%io
  end.

Definition summary_line (total completed pending : Z) : text :=
  chars [10] ++ colorize (chars (lit "Summary:")) "bold" ++ chars [32]
  ++ chars (str_of_int total) ++ chars (lit " total, ")
  ++ chars (str_of_int completed) ++ chars (lit " completed, ")
  ++ chars (str_of_int pending) ++ chars (lit " pending").

Definition list_tasks : M unit :=
  (do todos <- load_todos;
   if py_bool todos then
     exec print_header (lit "Your Todo List");
     do items <- lift (py_iter todos);
     do pending_tasks <- lift (select false items);
     do items' <- lift (py_iter todos);
     do completed_tasks <- lift (select true items');
     exec (match pending_tasks with
           | [] => ret tt
           | _ :: _ =>
               exec print (chars ([10] ++ table_get SYMBOLS "pending" ++ [32])
                           ++ colorize (chars (lit "Pending Tasks:")) "yellow");
               print_items pending_tasks 1
           end);
     exec (match completed_tasks with
           | [] => ret tt
           | _ :: _ =>
               exec print (chars ([10] ++ table_get SYMBOLS "done" ++ [32])
                           ++ colorize (chars (lit "Completed Tasks:")) "green");
               print_items completed_tasks (Z.of_nat (length pending_tasks) + 1)
           end);
     do total <- lift (py_len todos);
     print (summary_line total (Z.of_nat (length completed_tasks))
              (Z.of_nat (length pending_tasks)))
   else
     exec print_info (chars (lit "No tasks found."));
     print (chars (table_get SYMBOLS "empty" ++ lit " Your todo list is empty!")))%io.

Definition complete_task (index_str : str) : M bool :=
  (do todos <- load_todos;
   if py_bool todos then
     do resolved <- lift (get_valid_task_index todos index_str);
     match resolved with
     | None =>
         exec print_error (chars (lit "Invalid task number: ") ++ chars index_str);
         ret false
     | Some index =>
         do todo <- lift (getitem_int todos (index - 1));
         do c <- lift (getitem_str todo (lit "completed"));
         if py_bool c then
           exec print_info (chars (lit "Task ") ++ chars (str_of_int index)
                            ++ chars (lit " is already completed!"));
           ret false
         else
           do updated <- lift (setitem_item todos (index - 1) (lit "completed")
                                 (VBool true));
           exec save_todos (fst updated);
           do task <- lift (getitem_str (snd updated) (lit "task"));
           exec print_success (chars (lit "Task ") ++ chars (str_of_int index)
                               ++ chars (lit " marked as complete: ") ++ show task);
           ret true
     end
   else
     exec print_error (chars (lit "No tasks found!"));
     ret false)%io.

Definition remove_task (index_str : str) : M bool :=
  (do todos <- load_todos;
   if py_bool todos then
     do resolved <- lift (get_valid_task_index todos index_str);
     match resolved with
     | None =>
         exec print_error (chars (lit "Invalid task number: ") ++ chars index_str);
         ret false
     | Some index =>
         do popped <- lift (py_pop todos (index - 1));
         exec save_todos (snd popped);
         do task <- lift (getitem_str (fst popped) (lit "task"));
         exec print_success (chars (lit "Task ") ++ chars (str_of_int index)
                             ++ chars (lit " removed: ") ++ show task);
         ret true
     end
   else
     exec print_error (chars (lit "No tasks found!"));
     ret false)%io.

(** [sum(1 for todo in todos if todo['completed'])] *)
Fixpoint count_completed (todos : list value) : result Z :=
  match todos with
  | [] => Ok 0
  | todo :: r =>
      (do c <- getitem_str todo (lit "completed");
       do n <- count_completed r;
       Ok (if py_bool c then 1 + n else n))%result
  end.

Definition clear_completed : M bool :=
  (do todos <- load_todos;
   do items <- lift (py_iter todos);
   do completed_count <- lift (count_completed items);
   if completed_count =? 0 then
     exec print_info (chars (lit "No completed tasks to clear!"));
     ret false
   else
     do items' <- lift (py_iter todos);
     do remaining <- lift (select false items');
     exec save_todos (VList remaining);
     exec print_success (chars (lit "Cleared ") ++ chars (str_of_int completed_count)
                         ++ chars (lit " completed task(s)"));
     ret true)%io.

(** ** Task records

    The todo items the application itself creates and maintains: a dict with
    the text, the completion flag and the creation time, in this order. *)

Record Task := {
  task : str;
  completed : bool;
  created : str
}.

Definition task_value (t : Task) : value :=
  VDict [ (lit "task", VStr (task t));
          (lit "completed", VBool (completed t));
          (lit "created", VStr (created t)) ].

Definition todos_value (T : list Task) : value := VList (map task_value T).

Definition mark_completed (t : Task) : Task :=
  {| task := task t; completed := true; created := created t |}.

(** A Unicode scalar value: a code point that is not a surrogate. *)
Definition scalar (c : Z) : bool :=
  in_range 0 1114111 c && negb (is_surrogate c).

(** A well-formed task holds Unicode text. *)
Definition well_formed (t : Task) : Prop :=
  forallb scalar (task t) = true /\ forallb scalar (created t) = true.

(** The backing file can be opened both ways and holds the list [T]. *)
Definition holds (w : world) (T : list Task) : Prop :=
  readable w = true /\ writable w = true
  /\ load_todos w = Return (todos_value T) w.

(** No [save_todos] happened between the worlds [w] and [w']. *)
Definition no_save (w w' : world) : Prop :=
  exists lines, events w' = events w ++ map Printed lines.

(** ** Auxiliary notions of the proofs *)

(** The text is longer than the cap on the digits of an integer. *)
Definition over_digit_cap (s : str) : Prop :=
  0 < int_max_str_digits
  /\ 640 < Z.of_nat (length s)
  /\ int_max_str_digits < Z.of_nat (length s).


(** Code points are not negative. *)
Definition nonneg_task (t : Task) : Prop :=
  forallb (Z.leb 0) (task t) = true /\ forallb (Z.leb 0) (created t) = true.

(** The text of a member: key, colon, blank. *)
Definition member_key (key : str) : str := encode_basestring key ++ [58; 32].

(** [r'] is the result [r] settles on: [r] is [r'] unless the budget of
    [r] ran out. *)
Definition settled {A} (r r' : scan A) : Prop := r = Fuel \/ r = r'.


(** A character that is written and read back unchanged: a Unicode scalar
    value other than the carriage return. *)
Definition plain (c : Z) : bool := scalar c && negb (c =? 13).

(** The task at the 1-based storage position [p]. *)
Definition position (T : list Task) (p : Z) : option Task :=
  if 1 <=? p then T !! Z.to_nat (p - 1) else None.

(** ** What a listing shows *)

(** The world after the events [es] happened in turn. *)
Definition log_all (es : list event) (w : world) : world :=
  fold_left (fun w' e => log e w') es w.

(** [enumerate(tasks, start)] *)
Fixpoint numbered (start : Z) (tasks : list Task) : list (Z * Task) :=
  match tasks with
  | [] => []
  | t :: r => (start, t) :: numbered (start + 1) r
  end.

(** The line of a task record shown under the number [index]: the number,
    a dot, the checkbox, the text (green when completed) and the date. *)
Definition item_line (t : Task) (index : Z) : text :=
  colorize (chars (str_of_int index)) "magenta" ++ chars (lit ". ")
  ++ colorize (chars ([91] ++ (if completed t then [10003] else [32]) ++ [93]))
       (if completed t then "green" else "yellow")
  ++ chars [32]
  ++ (if completed t then colorize (chars (task t)) "green" else chars (task t))
  ++ chars [32]
  ++ colorize (chars [40] ++ chars (created t) ++ chars [41]) "blue".

(** The printed lines of a group: its heading, then one indented line for
    each task with its number; nothing at all for an empty group. *)
Definition group_lines (heading : text) (start : Z) (tasks : list Task)
  : list text :=
  match tasks with
  | [] => []
  | _ :: _ =>
      heading
      :: map (fun it => chars (lit "  ") ++ item_line (snd it) (fst it))
           (numbered start tasks)
  end.

(** The last line of a listing, as it reaches the console: a line break,
    [Summary:] in bold, and the three counts as decimal numerals. *)
Definition counts_line (total completed pending : nat) : text :=
  chars ([10; 27] ++ lit "[1mSummary:" ++ [27] ++ lit "[0m ")
  ++ chars (str_of_int (Z.of_nat total)) ++ chars (lit " total, ")
  ++ chars (str_of_int (Z.of_nat completed)) ++ chars (lit " completed, ")
  ++ chars (str_of_int (Z.of_nat pending)) ++ chars (lit " pending").

Definition title_lines : list text :=
  [ chars ([10] ++ table_get SYMBOLS "todo" ++ [32])
    ++ colorize (chars (lit "Your Todo List")) "bold";
    colorize (chars (repeat 61 17)) "cyan" ].

Definition pending_heading : text :=
  chars ([10] ++ table_get SYMBOLS "pending" ++ [32])
  ++ colorize (chars (lit "Pending Tasks:")) "yellow".

Definition completed_heading : text :=
  chars ([10] ++ table_get SYMBOLS "done" ++ [32])
  ++ colorize (chars (lit "Completed Tasks:")) "green".

End Model.

(** ** Sample data

    A choice of the interpreter's tables and limits for running the model:
    the default cap of 4300 digits, and room for 990 nested containers (the
    default recursion limit of 1000 less the frames in use when [json.load]
    is called).  None of the sample inputs holds a digit outside ASCII or a
    float, so no result computed with it depends on the tables. *)

Definition sample_runtime : Runtime :=
  {| unicode_decimal := fun _ => None;
     float_bool := fun _ => true;
     float_json := fun literal => literal;
     int_max_str_digits := 4300;
     nesting_limit := 990;
     nesting_room := proj1 (Nat.leb_le 2 990) eq_refl |}.

Definition milk : Task :=
  {| task := lit "Buy milk"; completed := false;
     created := lit "2024-01-01 12:00" |}.

Definition bread : Task :=
  {| task := lit "Bake bread"; completed := true;
     created := lit "2024-01-02 08:30" |}.

(** No file yet; the directory allows reading and writing. *)
Definition fresh : world :=
  {| file := None; readable := true; writable := true;
     clock := lit "2024-01-03 09:15"; events := [] |}.

(** The world after [T] was saved into [fresh]. *)
Definition stored (T : list Task) : world :=
  match save_todos (rt := sample_runtime) (todos_value T) fresh with
  | Return _ w => w
  | _ => fresh
  end.




(** A file that is not UTF-8. *)
Definition garbled : world :=
  {| file := Some [255]; readable := true; writable := true;
     clock := lit "2024-01-03 09:15"; events := [] |}.

(** The result a command returned, and the world it left. *)
Definition answer {A} (o : outcome A) : option A :=
  match o with
  | Return a _ => Some a
  | _ => None
  end.

Definition world_after {A} (o : outcome A) : world :=
  match o with
  | Return _ w => w
  | Exit _ w => w
  | Raise _ => fresh
  end.

Definition add (text : string) : M bool := add_task (rt := sample_runtime) (lit text).
Definition complete (index : string) : M bool :=
  complete_task (rt := sample_runtime) (lit index).
Definition remove (index : string) : M bool :=
  remove_task (rt := sample_runtime) (lit index).
Definition clear : M bool := clear_completed (rt := sample_runtime).

(** The stored sample list in a directory that does not allow writing. *)
Definition locked : world :=
  {| file := file (stored [milk; bread]); readable := true; writable := false;
     clock := clock fresh; events := [] |}.

(** A text with the surrogate that stands for an undecodable byte of the
    command line. *)
Definition undecodable : str := lit "Buy " ++ [56448].

(** ** What a command does to the world *)

(** The todo item [create_todo] makes of a text at the moment [w]. *)
Definition new_todo (text : str) (w : world) : Task :=
  {| task := strip text; completed := false; created := clock w |}.

(** The line a failed save prints: the cross, the message and the text of
    the error. *)
Definition save_error_line : text :=
  chars (10060 :: lit " Error saving todos: ") ++ [ErrText].

(** Started in [w], [c] ends the program with exit status 1; all it did
    was print the save error, once, and the file is as before. *)
Definition exits_unsaved {A} (c : M A) (w : world) : Prop :=
  exists w',
    c w = Exit 1 w'
    /\ events w' = events w ++ [Printed save_error_line]
    /\ file w' = file w /\ no_save w w'.

(** The line [print_success] prints for a message. *)
Definition success_line (message : text) : text :=
  chars (table_get SYMBOLS "check" ++ [32]) ++ colorize message "green".

Definition is_print (e : event) : Prop :=
  match e with
  | Printed _ => True
  | Saved _ => False
  end.

(** A printed line, or the saving of a list. *)
Definition prints_or_saves_list (e : event) : Prop :=
  match e with
  | Printed _ => True
  | Saved v => exists l, v = VList l
  end.

(** Started in [w], the command [c] either raises, or ends in a world that
    differs from [w] by events that all satisfy [P]; the permissions and
    the clock are as before, and so is the file unless something was
    saved. *)
Definition effects_at {A} (P : event -> Prop) (c : M A) (w : world) : Prop :=
  match c w with
  | Return _ w' | Exit _ w' =>
      exists es,
        events w' = events w ++ es /\ Forall P es
        /\ (Forall is_print es -> file w' = file w)
        /\ readable w' = readable w /\ writable w' = writable w
        /\ clock w' = clock w
  | Raise _ => True
  end.

Definition effects {A} (P : event -> Prop) (c : M A) : Prop :=
  forall w, effects_at P c w.

(** A text as the program stores it: not empty and without whitespace at
    either end. *)
Definition trimmed (t : Task) : Prop :=
  task t <> [] /\ strip (task t) = task t.

(** The store holds [T], every task of [T] is well formed and trimmed, and
    the clock reads a Unicode text. *)
Definition sound_store {rt : Runtime} (w : world) (T : list Task) : Prop :=
  holds w T /\ Forall well_formed T /\ Forall trimmed T
  /\ forallb scalar (clock w) = true.

(** Started on a sound store, [c] returns and leaves a sound store. *)
Definition preserves {rt : Runtime} {A} (c : M A) : Prop :=
  forall w T, sound_store w T ->
    exists a w' T', c w = Return a w' /\ sound_store w' T'.

(** * Proofs *)

Section Proofs.

Context {rt : Runtime}.

(** ** The UTF-8 codec *)

Ltac bool_cases :=
  repeat match goal with
    | |- context [?a <? ?b] => destruct (Z.ltb_spec a b)
    | |- context [?a <=? ?b] => destruct (Z.leb_spec a b)
    | |- context [?a =? ?b] => destruct (Z.eqb_spec a b)
    end.

Lemma utf8_decode_encode_char (c : Z) (bs rest : list Z) :
  utf8_encode_char c = Some bs ->
  utf8_decode (bs ++ rest) = option_map (cons c) (utf8_decode rest).
Proof.
  unfold utf8_encode_char, is_surrogate, in_range.
  destruct (Z.ltb_spec c 0); [discriminate|].
  destruct (Z.ltb_spec c 128).
  { intros [= <-]. simpl. unfold in_range.
    destruct (Z.leb_spec 0 c); [|lia]. destruct (Z.leb_spec c 127); [|lia].
    reflexivity. }
  destruct (Z.ltb_spec c 2048).
  { intros [= <-].
    assert (E : c = 64 * (c / 64) + c mod 64) by (apply Z.div_mod; lia).
    assert (0 <= c mod 64 < 64) by (apply Z.mod_pos_bound; lia).
    assert (2 <= c / 64 < 32) by lia.
    cbn [app utf8_decode]. unfold is_cont, in_range.
    repeat match goal with
      | |- context [?a <=? ?b] => destruct (Z.leb_spec a b); try lia
      end.
    cbn [andb]. do 2 f_equal. lia. }
  destruct (Z.ltb_spec c 65536).
  { destruct (Z.leb_spec 55296 c), (Z.leb_spec c 57343); cbn [andb negb];
      try discriminate; intros [= <-].
    all: assert (E : c = 64 * (c / 64) + c mod 64) by (apply Z.div_mod; lia).
    all: assert (E' : c / 64 = 64 * (c / 4096) + (c / 64) mod 64)
      by (rewrite (Z.div_mod (c / 64) 64) at 1 by lia;
          rewrite Z.div_div by lia; reflexivity).
    all: assert (0 <= c mod 64 < 64) by (apply Z.mod_pos_bound; lia).
    all: assert (0 <= (c / 64) mod 64 < 64) by (apply Z.mod_pos_bound; lia).
    all: assert (0 <= c / 4096 < 16) by lia.
    all: cbn [app utf8_decode]; unfold is_cont, is_surrogate, in_range.
    all: replace ((224 + c / 4096 - 224) * 64 + (128 + (c / 64) mod 64 - 128))
      with (c / 64) by lia.
    all: replace (c / 64 * 64 + (128 + c mod 64 - 128)) with c by lia.
    all: repeat match goal with
      | |- context [?a <=? ?b] => destruct (Z.leb_spec a b); try lia
      end.
    all: reflexivity. }
  destruct (Z.ltb_spec c 1114112); [|discriminate].
  intros [= <-].
  assert (E : c = 64 * (c / 64) + c mod 64) by (apply Z.div_mod; lia).
  assert (E' : c / 64 = 64 * (c / 4096) + (c / 64) mod 64)
    by (rewrite (Z.div_mod (c / 64) 64) at 1 by lia;
        rewrite Z.div_div by lia; reflexivity).
  assert (E'' : c / 4096 = 64 * (c / 262144) + (c / 4096) mod 64)
    by (rewrite (Z.div_mod (c / 4096) 64) at 1 by lia;
        rewrite Z.div_div by lia; reflexivity).
  assert (0 <= c mod 64 < 64) by (apply Z.mod_pos_bound; lia).
  assert (0 <= (c / 64) mod 64 < 64) by (apply Z.mod_pos_bound; lia).
  assert (0 <= (c / 4096) mod 64 < 64) by (apply Z.mod_pos_bound; lia).
  assert (0 <= c / 262144 < 5) by lia.
  cbn [app utf8_decode]. unfold is_cont, in_range.
  replace ((240 + c / 262144 - 240) * 64 + (128 + (c / 4096) mod 64 - 128))
    with (c / 4096) by lia.
  replace (c / 4096 * 64 + (128 + (c / 64) mod 64 - 128)) with (c / 64) by lia.
  replace (c / 64 * 64 + (128 + c mod 64 - 128)) with c by lia.
  repeat match goal with
    | |- context [?a <=? ?b] => destruct (Z.leb_spec a b); try lia
    | |- context [?a <? ?b] => destruct (Z.ltb_spec a b); try lia
    end.
  reflexivity.
Qed.

Lemma utf8_decode_encode (s : str) (bs : list Z) :
  utf8_encode s = Some bs -> utf8_decode bs = Some s.
Proof.
  revert bs. induction s as [|c r IH]; intros bs; simpl.
  - intros [= <-]. reflexivity.
  - destruct (utf8_encode_char c) as [cb|] eqn:Ec; [|discriminate].
    destruct (utf8_encode r) as [rb|] eqn:Er; [|discriminate].
    intros [= <-]. rewrite (utf8_decode_encode_char c cb rb Ec).
    rewrite (IH rb eq_refl). reflexivity.
Qed.

Lemma utf8_encode_scalar (s : str) :
  forallb scalar s = true -> exists bs, utf8_encode s = Some bs.
Proof.
  induction s as [|c r IH]; simpl; [eauto|].
  intros H. apply andb_true_iff in H. destruct H as [Hc Hr].
  destruct (IH Hr) as [rb ->].
  assert (exists cb, utf8_encode_char c = Some cb) as [cb ->]; [|eauto].
  unfold scalar, is_surrogate, in_range in Hc.
  unfold utf8_encode_char, is_surrogate, in_range.
  destruct (Z.ltb_spec c 0); [exfalso; revert Hc; bool_cases; simpl; (discriminate || lia)|].
  destruct (Z.ltb_spec c 128); [eauto|].
  destruct (Z.ltb_spec c 2048); [eauto|].
  destruct (Z.ltb_spec c 65536).
  { destruct ((55296 <=? c) && (c <=? 57343)); [|eauto].
    rewrite andb_false_r in Hc. discriminate. }
  destruct (Z.ltb_spec c 1114112); [eauto|].
  exfalso; revert Hc; bool_cases; simpl; (discriminate || lia).
Qed.

(** ** Scanning what the encoder wrote *)

Lemma scanstring_plain (c : Z) (r : str) :
  c <> 34 -> c <> 92 -> 31 < c ->
  scanstring (c :: r) = scan_map (cons c) (scanstring r).
Proof.
  intros H1 H2 H3. cbn [scanstring].
  destruct (Z.eqb_spec c 34); [contradiction|].
  destruct (Z.eqb_spec c 92); [contradiction|].
  destruct (Z.leb_spec c 31); [lia|]. reflexivity.
Qed.

Lemma scanstring_u00 (c : Z) (r : str) :
  0 <= c <= 31 ->
  scanstring (92 :: 117 :: 48 :: 48 :: hex_digit (c / 16)
                :: hex_digit (c mod 16) :: r)
  = scan_map (cons c) (scanstring r).
Proof.
  intros H.
  assert (Hc : In c (map Z.of_nat (seq 0 32))).
  { apply in_map_iff. exists (Z.to_nat c). split; [lia|].
    apply in_seq. lia. }
  cbn in Hc.
  repeat (destruct Hc as [<-|Hc]; [reflexivity|]). contradiction.
Qed.

Lemma scanstring_simple (e x : Z) (r : str) :
  unescape e = Some x ->
  scanstring (92 :: e :: r) = scan_map (cons x) (scanstring r).
Proof.
  intros H. cbn [scanstring]. change (92 =? 34) with false.
  change (92 =? 92) with true. cbv iota.
  destruct (Z.eqb_spec e 117) as [->|]; [discriminate|].
  rewrite H. reflexivity.
Qed.

Lemma scanstring_escape_char (c : Z) (r : str) :
  0 <= c ->
  scanstring (escape_char c ++ r) = scan_map (cons c) (scanstring r).
Proof.
  intros Hc. unfold escape_char, in_range.
  destruct (Z.eqb_spec c 34) as [->|]; [exact (scanstring_simple 34 34 r eq_refl)|].
  destruct (Z.eqb_spec c 92) as [->|]; [exact (scanstring_simple 92 92 r eq_refl)|].
  destruct (Z.eqb_spec c 10) as [->|]; [exact (scanstring_simple 110 10 r eq_refl)|].
  destruct (Z.eqb_spec c 13) as [->|]; [exact (scanstring_simple 114 13 r eq_refl)|].
  destruct (Z.eqb_spec c 9) as [->|]; [exact (scanstring_simple 116 9 r eq_refl)|].
  destruct (Z.eqb_spec c 8) as [->|]; [exact (scanstring_simple 98 8 r eq_refl)|].
  destruct (Z.eqb_spec c 12) as [->|]; [exact (scanstring_simple 102 12 r eq_refl)|].
  destruct (Z.leb_spec 0 c); [|lia].
  destruct (Z.leb_spec c 31); cbn [andb app].
  - apply scanstring_u00. lia.
  - apply scanstring_plain; lia.
Qed.

Lemma scanstring_escaped (s rest : str) :
  forallb (Z.leb 0) s = true ->
  scanstring (concat (map escape_char s) ++ 34 :: rest) = Scanned s rest.
Proof.
  induction s as [|c s IH]; intros H.
  - reflexivity.
  - cbn [forallb] in H. apply andb_true_iff in H. destruct H as [Hc Hs].
    apply Z.leb_le in Hc. cbn [map concat]. rewrite <- app_assoc.
    rewrite scanstring_escape_char by exact Hc. rewrite (IH Hs). reflexivity.
Qed.

Lemma scan_encode_basestring (n d : nat) (s rest : str) :
  forallb (Z.leb 0) s = true ->
  scan_once (S n) d (encode_basestring s ++ rest) = Scanned (VStr s) rest.
Proof.
  intros H. unfold encode_basestring. cbn [app scan_once].
  change (34 =? 34) with true. cbv iota.
  rewrite <- app_assoc. cbn [app].
  rewrite scanstring_escaped by exact H. reflexivity.
Qed.

Lemma skip_ws_blanks (k : nat) (r : str) :
  skip_ws (repeat 32 k ++ r) = skip_ws r.
Proof. induction k as [|k IH]; [reflexivity|exact IH]. Qed.

Lemma skip_ws_newline_indent (level : nat) (r : str) :
  skip_ws (newline_indent level ++ r) = skip_ws r.
Proof. unfold newline_indent. cbn [app skip_ws]. apply skip_ws_blanks. Qed.

(** One more item follows in the array. *)
Lemma parse_array_more (n d : nat) (s rest r r' : str) (v : value)
    (vs : list value) :
  scan_once n d s = Scanned v rest ->
  skip_ws rest = 44 :: r ->
  parse_array n d (skip_ws r) = Scanned vs r' ->
  parse_array (S n) d s = Scanned (v :: vs) r'.
Proof.
  intros H1 H2 H3. cbn [parse_array]. rewrite H1, H2. cbn. rewrite H3.
  reflexivity.
Qed.

(** The array ends after this item. *)
Lemma parse_array_last (n d : nat) (s rest r : str) (v : value) :
  scan_once n d s = Scanned v rest ->
  skip_ws rest = 93 :: r ->
  parse_array (S n) d s = Scanned [v] r.
Proof. intros H1 H2. cbn [parse_array]. rewrite H1, H2. reflexivity. Qed.

(** One more member follows in the object. *)
Lemma parse_object_more (n d : nat) (s rest r1 rest1 r2 r' : str) (key : str)
    (v : value) (ps : list (str * value)) :
  scanstring s = Scanned key rest ->
  skip_ws rest = 58 :: r1 ->
  scan_once n d (skip_ws r1) = Scanned v rest1 ->
  skip_ws rest1 = 44 :: r2 ->
  parse_object n d (skip_ws r2) = Scanned ps r' ->
  parse_object (S n) d (34 :: s) = Scanned ((key, v) :: ps) r'.
Proof.
  intros H1 H2 H3 H4 H5. cbn [parse_object]. change (34 =? 34) with true.
  cbv iota. rewrite H1, H2. change (58 =? 58) with true. cbv iota.
  rewrite H3, H4. cbn. rewrite H5. reflexivity.
Qed.

(** The object ends after this member. *)
Lemma parse_object_last (n d : nat) (s rest r1 rest1 r2 : str) (key : str)
    (v : value) :
  scanstring s = Scanned key rest ->
  skip_ws rest = 58 :: r1 ->
  scan_once n d (skip_ws r1) = Scanned v rest1 ->
  skip_ws rest1 = 125 :: r2 ->
  parse_object (S n) d (34 :: s) = Scanned [(key, v)] r2.
Proof.
  intros H1 H2 H3 H4. cbn [parse_object]. change (34 =? 34) with true.
  cbv iota. rewrite H1, H2. change (58 =? 58) with true. cbv iota.
  rewrite H3, H4. reflexivity.
Qed.

Lemma scan_array (n d : nat) (r r' rest : str) (c : Z) (vs : list value) :
  skip_ws r = c :: r' -> c <> 93 ->
  parse_array n d (skip_ws r) = Scanned vs rest ->
  scan_once (S n) (S d) (91 :: r) = Scanned (VList vs) rest.
Proof.
  intros H1 H2 H3. cbn [scan_once]. change (91 =? 34) with false.
  change (91 =? 123) with false. change (91 =? 91) with true. cbv iota.
  rewrite H3, H1. destruct (Z.eqb_spec c 93); [contradiction|]. reflexivity.
Qed.

Lemma scan_object (n d : nat) (r r' rest : str) (c : Z)
    (ps : list (str * value)) :
  skip_ws r = c :: r' -> c <> 125 ->
  parse_object n d (skip_ws r) = Scanned ps rest ->
  scan_once (S n) (S d) (123 :: r) = Scanned (VDict (dict_of_pairs ps)) rest.
Proof.
  intros H1 H2 H3. cbn [scan_once]. change (123 =? 34) with false.
  change (123 =? 123) with true. cbv iota.
  rewrite H3, H1. destruct (Z.eqb_spec c 125); [contradiction|]. reflexivity.
Qed.

Lemma scan_bool (n d : nat) (b : bool) (rest : str) :
  scan_once (S n) d (iterencode 0 (VBool b) ++ rest) = Scanned (VBool b) rest.
Proof. destruct b; reflexivity. Qed.

Lemma skip_ws_quote (s rest : str) :
  skip_ws (encode_basestring s ++ rest) = encode_basestring s ++ rest.
Proof. reflexivity. Qed.

Lemma scalar_nonneg (s : str) :
  forallb scalar s = true -> forallb (Z.leb 0) s = true.
Proof.
  intros H. apply forallb_forall. intros c Hc.
  rewrite forallb_forall in H. specialize (H c Hc).
  unfold scalar, in_range in H. apply Z.leb_le.
  destruct (Z.leb_spec 0 c); [assumption|discriminate].
Qed.

Lemma parse_member_more (n d : nat) (key text r rest r' : str) (v : value)
    (ps : list (str * value)) :
  forallb (Z.leb 0) key = true ->
  scan_once n d text = Scanned v rest ->
  skip_ws text = text ->
  skip_ws rest = 44 :: r ->
  parse_object n d (skip_ws r) = Scanned ps r' ->
  parse_object (S n) d (member_key key ++ text) = Scanned ((key, v) :: ps) r'.
Proof.
  intros Hk H1 Hw H2 H3. unfold member_key, encode_basestring.
  cbn [app]. rewrite <- !app_assoc. cbn [app].
  eapply parse_object_more.
  - apply scanstring_escaped, Hk.
  - reflexivity.
  - cbn [skip_ws json_ws]. change (32 =? 32) with true. cbv iota.
    cbn [orb]. rewrite Hw. exact H1.
  - exact H2.
  - exact H3.
Qed.

Lemma parse_member_last (n d : nat) (key text r rest : str) (v : value) :
  forallb (Z.leb 0) key = true ->
  scan_once n d text = Scanned v rest ->
  skip_ws text = text ->
  skip_ws rest = 125 :: r ->
  parse_object (S n) d (member_key key ++ text) = Scanned [(key, v)] r.
Proof.
  intros Hk H1 Hw H2. unfold member_key, encode_basestring.
  cbn [app]. rewrite <- !app_assoc. cbn [app].
  eapply parse_object_last.
  - apply scanstring_escaped, Hk.
  - reflexivity.
  - cbn [skip_ws json_ws]. change (32 =? 32) with true. cbv iota.
    cbn [orb]. rewrite Hw. exact H1.
  - exact H2.
Qed.

Lemma skip_ws_bool (b : bool) (rest : str) :
  skip_ws (iterencode 0 (VBool b) ++ rest) = iterencode 0 (VBool b) ++ rest.
Proof. destruct b; reflexivity. Qed.

Lemma iterencode_task (level : nat) (t : Task) :
  iterencode level (task_value t)
  = 123 :: newline_indent (S level)
    ++ (member_key (lit "task") ++ encode_basestring (task t)
        ++ 44 :: newline_indent (S level)
        ++ member_key (lit "completed") ++ iterencode 0 (VBool (completed t))
        ++ 44 :: newline_indent (S level)
        ++ member_key (lit "created") ++ encode_basestring (created t)
        ++ newline_indent level ++ [125]).
Proof.
  unfold task_value, member_key. cbn [iterencode map join fst snd].
  rewrite <- !app_assoc. reflexivity.
Qed.

Ltac right_nest :=
  repeat (rewrite <- app_assoc || rewrite <- app_comm_cons
          || rewrite app_nil_l).

Lemma scan_task (n d level : nat) (t : Task) (rest : str) :
  nonneg_task t ->
  scan_once (5 + n) (S d) (iterencode level (task_value t) ++ rest)
  = Scanned (task_value t) rest.
Proof.
  intros [Ht Hc]. rewrite iterencode_task. cbn [plus]. right_nest.
  change (task_value t) with
    (VDict (dict_of_pairs [ (lit "task", VStr (task t));
                            (lit "completed", VBool (completed t));
                            (lit "created", VStr (created t)) ])).
  eapply scan_object.
  - rewrite skip_ws_newline_indent. reflexivity.
  - discriminate.
  - rewrite skip_ws_newline_indent.
    change (skip_ws (member_key (lit "task") ++ ?x))
      with (member_key (lit "task") ++ x).
    eapply parse_member_more.
    + reflexivity.
    + apply scan_encode_basestring, Ht.
    + apply skip_ws_quote.
    + reflexivity.
    + rewrite skip_ws_newline_indent.
      change (skip_ws (member_key (lit "completed") ++ ?x))
        with (member_key (lit "completed") ++ x).
      eapply parse_member_more.
      * reflexivity.
      * apply scan_bool.
      * apply skip_ws_bool.
      * reflexivity.
      * rewrite skip_ws_newline_indent.
        change (skip_ws (member_key (lit "created") ++ ?x))
          with (member_key (lit "created") ++ x).
        eapply parse_member_last.
        -- reflexivity.
        -- apply scan_encode_basestring, Hc.
        -- apply skip_ws_quote.
        -- rewrite skip_ws_newline_indent. reflexivity.
Qed.

Lemma tasks_text_head (t : Task) (T : list Task) (x : str) :
  exists r,
    join (44 :: newline_indent 1) (map (iterencode 1) (map task_value (t :: T)))
    ++ x = 123 :: r.
Proof.
  cbn [map]. rewrite iterencode_task.
  destruct (map (iterencode 1) (map task_value T)); cbn [join]; right_nest;
    eauto.
Qed.

Lemma parse_tasks (T : list Task) (t : Task) (n d : nat) (rest : str) :
  Forall nonneg_task (t :: T) ->
  parse_array (6 + length T + n) (S d)
    (join (44 :: newline_indent 1) (map (iterencode 1) (map task_value (t :: T)))
     ++ newline_indent 0 ++ 93 :: rest)
  = Scanned (map task_value (t :: T)) rest.
Proof.
  revert t. induction T as [|t' T IH]; intros t H.
  - cbn [map join length plus]. eapply parse_array_last.
    + apply (scan_task n d 1 t). inversion H; assumption.
    + reflexivity.
  - inversion H as [|? ? Ht HT]; subst.
    change (map (iterencode 1) (map task_value (t :: t' :: T)))
      with (iterencode 1 (task_value t)
            :: map (iterencode 1) (map task_value (t' :: T))).
    change (join ?sep (?x :: map ?f (map ?g (t' :: T))))
      with (x ++ sep ++ join sep (map f (map g (t' :: T)))).
    right_nest. cbn [length plus map].
    eapply parse_array_more.
    + apply (scan_task (S (length T + n)) d 1 t _ Ht).
    + reflexivity.
    + rewrite skip_ws_newline_indent.
      destruct (tasks_text_head t' T (newline_indent 0 ++ 93 :: rest))
        as [r Hr].
      pose proof (IH t' HT) as IH'. cbn [map] in Hr, IH'.
      rewrite Hr in IH' |- *. exact IH'.
Qed.

Lemma scan_todos (T : list Task) (n d : nat) (rest : str) :
  Forall nonneg_task T ->
  scan_once (7 + length T + n) (S (S d)) (json_dumps (todos_value T) ++ rest)
  = Scanned (todos_value T) rest.
Proof.
  intros H. destruct T as [|t T]; [reflexivity|].
  unfold json_dumps, todos_value.
  change (iterencode 0 (VList (map task_value (t :: T))))
    with (91 :: newline_indent 1
          ++ join (44 :: newline_indent 1)
               (map (iterencode 1) (map task_value (t :: T)))
          ++ newline_indent 0 ++ [93]).
  right_nest. cbn [length plus].
  pose proof (parse_tasks T t (S n) d rest H) as P.
  destruct (tasks_text_head t T (newline_indent 0 ++ 93 :: rest)) as [r Hr].
  rewrite Hr in P |- *.
  eapply scan_array.
  - rewrite skip_ws_newline_indent. reflexivity.
  - discriminate.
  - rewrite skip_ws_newline_indent. change (skip_ws (123 :: r)) with (123 :: r).
    replace (S (S (S (S (S (S (S (length T + n))))))))
      with (6 + length T + S n)%nat by lia.
    exact P.
Qed.

(** ** The scanner always finishes

    Every successful scan consumes at least one character, so a budget of
    twice the length of the text, plus one, is never exhausted. *)

Lemma skip_ws_length (s : str) : (length (skip_ws s) <= length s)%nat.
Proof.
  induction s as [|c r IH]; cbn [skip_ws length]; [lia|].
  destruct (json_ws c); cbn [length]; lia.
Qed.

Ltac scan_map_inv H :=
  match type of H with
  | scan_map _ ?x = Scanned _ _ =>
      let E := fresh "E" in
      destruct x eqn:E; cbn [scan_map] in H; [|discriminate H..];
      injection H as <- <-
  end.

Lemma scanstring_shorter (s t r : str) :
  scanstring s = Scanned t r -> (length r < length s)%nat.
Proof.
  remember (length s) as k eqn:Hk. revert s t r Hk.
  induction k as [k IH] using lt_wf_ind. intros s t r Hk H. subst k.
  assert (IH' : forall s' t' r', (length s' < length s)%nat ->
            scanstring s' = Scanned t' r' -> (length r' < length s')%nat).
  { intros s' t' r' L. exact (IH _ L s' t' r' eq_refl). }
  clear IH. destruct s as [|c s]; [discriminate|]. cbn [scanstring] in H.
  destruct (c =? 34). { injection H as <- <-. cbn [length]. lia. }
  destruct (c =? 92).
  2:{ destruct (c <=? 31); [discriminate|]. scan_map_inv H.
      apply IH' in E; cbn [length] in *; lia. }
  destruct s as [|e s]; [discriminate|].
  destruct (e =? 117).
  2:{ destruct (unescape e); [|discriminate]. scan_map_inv H.
      apply IH' in E; cbn [length] in *; lia. }
  destruct s as [|h1 [|h2 [|h3 [|h4 s]]]]; try discriminate.
  destruct (hex4 h1 h2 h3 h4) as [u|]; [|discriminate].
  assert (D : forall x, scan_map (cons x) (scanstring s) = Scanned t r ->
            (length r < length (c :: e :: h1 :: h2 :: h3 :: h4 :: s))%nat).
  { intros x Hx. scan_map_inv Hx. apply IH' in E; cbn [length] in *; lia. }
  destruct (high_surrogate u); [|exact (D _ H)].
  destruct s as [|b [|u' [|g1 [|g2 [|g3 [|g4 s']]]]]]; try exact (D _ H).
  destruct ((b =? 92) && (u' =? 117)); [|exact (D _ H)].
  destruct (hex4 g1 g2 g3 g4) as [u2|]; [|discriminate].
  destruct (low_surrogate u2); [|exact (D _ H)].
  scan_map_inv H. apply IH' in E; cbn [length] in *; lia.
Qed.

Lemma span_digits_length (s : str) :
  (length (snd (span_digits s)) <= length s)%nat.
Proof.
  induction s as [|c r IH]; cbn [span_digits length snd]; [lia|].
  destruct (is_digit c); [|cbn [snd length]; lia].
  destruct (span_digits r) as [ds rest]. cbn [snd] in *. lia.
Qed.

Lemma strip_prefix_length (p s r : str) :
  strip_prefix p s = Some r -> length s = (length p + length r)%nat.
Proof.
  revert s. induction p as [|a p IH]; intros s; cbn [strip_prefix].
  - intros [= ->]. reflexivity.
  - destruct s as [|b s]; [discriminate|]. destruct (a =? b); [|discriminate].
    intros H. apply IH in H. cbn [length]. lia.
Qed.

Lemma scan_int_part_shorter (s ip r : str) :
  scan_int_part s = Some (ip, r) -> (length r < length s)%nat.
Proof.
  unfold scan_int_part. destruct s as [|c s]; [discriminate|].
  destruct (in_range 49 57 c).
  - pose proof (span_digits_length s) as L.
    destruct (span_digits s) as [ds rest]. intros [= <- <-].
    cbn [snd length] in *. lia.
  - destruct (c =? 48); [|discriminate]. intros [= <- <-]. cbn [length]. lia.
Qed.

Lemma scan_frac_length (s : str) : (length (snd (scan_frac s)) <= length s)%nat.
Proof.
  unfold scan_frac. destruct s as [|dot [|d s]]; cbn [snd length]; try lia.
  destruct ((dot =? 46) && is_digit d); [|cbn [snd length]; lia].
  pose proof (span_digits_length s) as L.
  destruct (span_digits s) as [ds rest]. cbn [snd] in *. lia.
Qed.

Lemma scan_exp_length (s : str) : (length (snd (scan_exp s)) <= length s)%nat.
Proof.
  unfold scan_exp. destruct s as [|e s]; cbn [snd length]; [lia|].
  destruct ((e =? 101) || (e =? 69)); [|cbn [snd length]; lia].
  assert (L : forall r1 sign, (length r1 <= length s)%nat ->
    (length (snd (match span_digits r1 with
                  | ([], _) => ([], e :: s)
                  | (ds, rest) => (e :: sign ++ ds, rest)
                  end)) <= S (length s))%nat).
  { intros r1 sign Hr. pose proof (span_digits_length r1) as L.
    destruct (span_digits r1) as [[|d ds] rest]; cbn [snd length] in *; lia. }
  destruct s as [|c s']; [apply L; cbn [length]; lia|].
  destruct ((c =? 43) || (c =? 45)); apply L; cbn [length]; lia.
Qed.

Lemma match_number_shorter (s : str) (v : value) (r : str) :
  match_number s = Scanned v r -> (length r < length s)%nat.
Proof.
  unfold match_number.
  set (p := match s with
            | c :: r0 => if c =? 45 then (true, r0) else (false, s)
            | [] => (false, s)
            end).
  assert (Hp : (length (snd p) <= length s)%nat).
  { subst p. destruct s as [|c s']; [cbn; lia|].
    destruct (c =? 45); cbn [snd length]; lia. }
  destruct p as [negative s1]. cbn [snd] in Hp.
  destruct (scan_int_part s1) as [[ip r1]|] eqn:Ei; [|discriminate].
  apply scan_int_part_shorter in Ei.
  pose proof (scan_frac_length r1) as Lf.
  destruct (scan_frac r1) as [frac r2]. cbn [snd] in Lf.
  pose proof (scan_exp_length r2) as Le.
  destruct (scan_exp r2) as [ex r3]. cbn [snd] in Le.
  destruct frac, ex; try destruct (too_many_digits ip); try discriminate;
    intros [= _ <-]; lia.
Qed.

Lemma scan_literals_shorter (s : str) (v : value) (r : str) :
  match strip_prefix (lit "null") s with
  | Some rest => Scanned VNone rest
  | None =>
  match strip_prefix (lit "true") s with
  | Some rest => Scanned (VBool true) rest
  | None =>
  match strip_prefix (lit "false") s with
  | Some rest => Scanned (VBool false) rest
  | None =>
  match strip_prefix (lit "NaN") s with
  | Some rest => Scanned (VFloat (lit "NaN")) rest
  | None =>
  match strip_prefix (lit "Infinity") s with
  | Some rest => Scanned (VFloat (lit "Infinity")) rest
  | None =>
  match strip_prefix (lit "-Infinity") s with
  | Some rest => Scanned (VFloat (lit "-Infinity")) rest
  | None => match_number s
  end end end end end end = Scanned v r ->
  (length r < length s)%nat.
Proof.
  repeat match goal with
    | |- context [strip_prefix ?p s] =>
        let E := fresh "E" in
        destruct (strip_prefix p s) eqn:E;
        [apply strip_prefix_length in E; cbn [lit list_ascii_of_string map length] in E;
         intros [= _ <-]; lia|clear E]
    end.
  apply match_number_shorter.
Qed.

Lemma scans_shorter (n : nat) :
  (forall d s v r, scan_once n d s = Scanned v r -> (length r < length s)%nat)
  /\ (forall d s vs r,
        parse_array n d s = Scanned vs r -> (length r < length s)%nat)
  /\ (forall d s ps r,
        parse_object n d s = Scanned ps r -> (length r < length s)%nat).
Proof.
  induction n as [|n (IHv & IHa & IHo)]; [repeat split; discriminate|].
  repeat split.
  - intros d s v r H. cbn [scan_once] in H.
    destruct s as [|c s]; [discriminate|].
    destruct (c =? 34).
    { scan_map_inv H. apply scanstring_shorter in E. cbn [length]. lia. }
    destruct (c =? 123).
    { destruct d as [|d]; [discriminate|].
      pose proof (skip_ws_length s) as L.
      destruct (skip_ws s) as [|c' r'] eqn:Es; [discriminate|].
      destruct (c' =? 125).
      - injection H as <- <-. cbn [length] in *. lia.
      - scan_map_inv H. apply IHo in E. cbn [length] in *. lia. }
    destruct (c =? 91).
    { destruct d as [|d]; [discriminate|].
      pose proof (skip_ws_length s) as L.
      destruct (skip_ws s) as [|c' r'] eqn:Es; [discriminate|].
      destruct (c' =? 93).
      - injection H as <- <-. cbn [length] in *. lia.
      - scan_map_inv H. apply IHa in E. cbn [length] in *. lia. }
    exact (scan_literals_shorter _ _ _ H).
  - intros d s vs r H. cbn [parse_array] in H.
    destruct (scan_once n d s) as [v rest| | |e] eqn:Ev; try discriminate.
    apply IHv in Ev. pose proof (skip_ws_length rest) as L.
    destruct (skip_ws rest) as [|c r0]; [discriminate|].
    destruct (c =? 93).
    { injection H as <- <-. cbn [length] in *. lia. }
    destruct (c =? 44); [|discriminate].
    scan_map_inv H. apply IHa in E. pose proof (skip_ws_length r0).
    cbn [length] in *. lia.
  - intros d s ps r H. cbn [parse_object] in H.
    destruct s as [|q s]; [discriminate|].
    destruct (q =? 34); [|discriminate].
    destruct (scanstring s) as [key rest| | |e] eqn:Ek; try discriminate.
    apply scanstring_shorter in Ek. pose proof (skip_ws_length rest) as L.
    destruct (skip_ws rest) as [|colon r1]; [discriminate|].
    destruct (colon =? 58); [|discriminate].
    destruct (scan_once n d (skip_ws r1)) as [v rest1| | |e] eqn:Ev;
      try discriminate.
    apply IHv in Ev. pose proof (skip_ws_length r1) as L1.
    pose proof (skip_ws_length rest1) as L2.
    destruct (skip_ws rest1) as [|c r2]; [discriminate|].
    destruct (c =? 125).
    { injection H as <- <-. cbn [length] in *. lia. }
    destruct (c =? 44); [|discriminate].
    scan_map_inv H. apply IHo in E. pose proof (skip_ws_length r2).
    cbn [length] in *. lia.
Qed.

Lemma scan_map_fuel {A B} (f : A -> B) (x : scan A) :
  x <> Fuel -> scan_map f x <> Fuel.
Proof. destruct x; cbn; congruence. Qed.

Lemma scanstring_finishes (s : str) : scanstring s <> Fuel.
Proof.
  induction s as [s IH] using (induction_ltof1 _ (@length Z)).
  unfold ltof in IH.
  assert (D : forall x r, (length r < length s)%nat ->
            scan_map (cons x) (scanstring r) <> Fuel).
  { intros x r L. apply scan_map_fuel, IH, L. }
  destruct s as [|c s]; [discriminate|]. cbn [scanstring].
  destruct (c =? 34); [discriminate|].
  destruct (c =? 92).
  2:{ destruct (c <=? 31); [discriminate|]. apply D. cbn [length]. lia. }
  destruct s as [|e s]; [discriminate|].
  destruct (e =? 117).
  2:{ destruct (unescape e); [|discriminate]. apply D. cbn [length]. lia. }
  destruct s as [|h1 [|h2 [|h3 [|h4 s]]]]; try discriminate.
  destruct (hex4 h1 h2 h3 h4) as [u|]; [|discriminate].
  destruct (high_surrogate u); [|apply D; cbn [length]; lia].
  destruct s as [|b [|u' [|g1 [|g2 [|g3 [|g4 s']]]]]];
    try (apply D; cbn [length]; lia).
  destruct ((b =? 92) && (u' =? 117)); [|apply D; cbn [length]; lia].
  destruct (hex4 g1 g2 g3 g4) as [u2|]; [|discriminate].
  destruct (low_surrogate u2); apply D; cbn [length]; lia.
Qed.

Lemma scans_finish (n : nat) :
  (forall d s, (2 * length s < n)%nat -> scan_once n d s <> Fuel)
  /\ (forall d s, (2 * length s + 1 < n)%nat -> parse_array n d s <> Fuel)
  /\ (forall d s, (2 * length s + 1 < n)%nat -> parse_object n d s <> Fuel).
Proof.
  induction n as [|n (IHv & IHa & IHo)]; [repeat split; intros; lia|].
  repeat split.
  - intros d s Hn. cbn [scan_once]. destruct s as [|c s]; [discriminate|].
    cbn [length] in Hn.
    destruct (c =? 34).
    { apply scan_map_fuel, scanstring_finishes. }
    destruct (c =? 123).
    { destruct d as [|d]; [discriminate|].
      pose proof (skip_ws_length s) as L.
      destruct (skip_ws s) as [|c' r'] eqn:Es; [discriminate|].
      destruct (c' =? 125); [discriminate|].
      apply scan_map_fuel, IHo. lia. }
    destruct (c =? 91).
    { destruct d as [|d]; [discriminate|].
      pose proof (skip_ws_length s) as L.
      destruct (skip_ws s) as [|c' r'] eqn:Es; [discriminate|].
      destruct (c' =? 93); [discriminate|].
      apply scan_map_fuel, IHa. lia. }
    repeat match goal with
      | |- context [strip_prefix ?p ?x] => destruct (strip_prefix p x); [discriminate|]
      end.
    unfold match_number.
    repeat match goal with
      | |- context [match ?x with _ => _ end] => destruct x; try discriminate
      end.
  - intros d s Hn. cbn [parse_array].
    destruct (scan_once n d s) as [v rest| | |e] eqn:Ev;
      [|discriminate|exfalso; revert Ev; apply IHv; lia|discriminate].
    apply (proj1 (scans_shorter n)) in Ev. pose proof (skip_ws_length rest) as L.
    destruct (skip_ws rest) as [|c r0]; [discriminate|].
    destruct (c =? 93); [discriminate|].
    destruct (c =? 44); [|discriminate].
    pose proof (skip_ws_length r0). cbn [length] in *.
    apply scan_map_fuel, IHa. lia.
  - intros d s Hn. cbn [parse_object].
    destruct s as [|q s]; [discriminate|].
    destruct (q =? 34); [|discriminate].
    destruct (scanstring s) as [key rest| | |e] eqn:Ek;
      [|discriminate| |discriminate].
    2:{ exfalso. exact (scanstring_finishes s Ek). }
    apply scanstring_shorter in Ek. pose proof (skip_ws_length rest) as L.
    destruct (skip_ws rest) as [|colon r1]; [discriminate|].
    destruct (colon =? 58); [|discriminate].
    pose proof (skip_ws_length r1) as L1. cbn [length] in *.
    destruct (scan_once n d (skip_ws r1)) as [v rest1| | |e] eqn:Ev;
      [|discriminate|exfalso; revert Ev; apply IHv; lia|discriminate].
    apply (proj1 (scans_shorter n)) in Ev.
    pose proof (skip_ws_length rest1) as L2.
    destruct (skip_ws rest1) as [|c r2]; [discriminate|].
    destruct (c =? 125); [discriminate|].
    destruct (c =? 44); [|discriminate].
    pose proof (skip_ws_length r2). cbn [length] in *.
    apply scan_map_fuel, IHo. lia.
Qed.

(** ** A larger budget changes nothing

    Once a scan finishes within a budget, it gives the same result within
    every larger one. *)

Lemma settled_refl {A} (r : scan A) : settled r r.
Proof. right. reflexivity. Qed.

Lemma settled_map {A B} (f : A -> B) (r r' : scan A) :
  settled r r' -> settled (scan_map f r) (scan_map f r').
Proof. intros [->| ->]; [left|right]; reflexivity. Qed.

Lemma scans_monotone (n : nat) :
  forall m, (n <= m)%nat ->
    (forall d s, settled (scan_once n d s) (scan_once m d s))
    /\ (forall d s, settled (parse_array n d s) (parse_array m d s))
    /\ (forall d s, settled (parse_object n d s) (parse_object m d s)).
Proof.
  induction n as [|n IH]; intros m Hm.
  { repeat split; intros d s; left; reflexivity. }
  destruct m as [|m]; [lia|].
  destruct (IH m ltac:(lia)) as (IHv & IHa & IHo). clear IH.
  repeat split; intros d s.
  - cbn [scan_once]. destruct s as [|c s]; [apply settled_refl|].
    destruct (c =? 34); [apply settled_refl|].
    destruct (c =? 123).
    { destruct d as [|d]; [apply settled_refl|].
      destruct (skip_ws s) as [|c' r'] eqn:Es; [apply settled_refl|].
      destruct (c' =? 125); [apply settled_refl|]. apply settled_map, IHo. }
    destruct (c =? 91).
    { destruct d as [|d]; [apply settled_refl|].
      destruct (skip_ws s) as [|c' r'] eqn:Es; [apply settled_refl|].
      destruct (c' =? 93); [apply settled_refl|]. apply settled_map, IHa. }
    apply settled_refl.
  - cbn [parse_array]. destruct (IHv d s) as [E|E].
    { rewrite E. left. reflexivity. }
    rewrite <- E.
    destruct (scan_once n d s) as [v rest| | |e]; try apply settled_refl.
    destruct (skip_ws rest) as [|c r0]; [apply settled_refl|].
    destruct (c =? 93); [apply settled_refl|].
    destruct (c =? 44); [|apply settled_refl].
    apply settled_map, IHa.
  - cbn [parse_object]. destruct s as [|q s]; [apply settled_refl|].
    destruct (q =? 34); [|apply settled_refl].
    destruct (scanstring s) as [key rest| | |e]; try apply settled_refl.
    destruct (skip_ws rest) as [|colon r1]; [apply settled_refl|].
    destruct (colon =? 58); [|apply settled_refl].
    destruct (IHv d (skip_ws r1)) as [E|E].
    { rewrite E. left. reflexivity. }
    rewrite <- E.
    destruct (scan_once n d (skip_ws r1)) as [v rest1| | |e];
      try apply settled_refl.
    destruct (skip_ws rest1) as [|c r2]; [apply settled_refl|].
    destruct (c =? 125); [apply settled_refl|].
    destruct (c =? 44); [|apply settled_refl].
    apply settled_map, IHo.
Qed.

(** A scan that succeeds within some budget succeeds within the budget
    [json_loads] grants. *)
Lemma scan_once_enough (n d : nat) (s : str) (v : value) (rest : str) :
  scan_once n d s = Scanned v rest ->
  forall m, (2 * length s < m)%nat -> scan_once m d s = Scanned v rest.
Proof.
  intros H m Hm. destruct (Nat.le_ge_cases n m) as [L|L].
  - destruct (proj1 (scans_monotone n m L) d s) as [E|E]; congruence.
  - destruct (proj1 (scans_monotone m n L) d s) as [E|E]; [|congruence].
    exfalso. exact (proj1 (scans_finish m) d s Hm E).
Qed.


(** What [json.dump] wrote for a list of tasks, [json.loads] reads back. *)
Lemma json_loads_dumps (T : list Task) :
  Forall nonneg_task T ->
  json_loads (json_dumps (todos_value T)) = Scanned (todos_value T) [].
Proof.
  intros H.
  assert (Hn : exists d, nesting_limit = S (S d)).
  { pose proof nesting_room as R.
    destruct nesting_limit as [|[|d]]; [lia|lia|]. eauto. }
  destruct Hn as [d Hn].
  pose proof (scan_todos T 0 d [] H) as S. rewrite app_nil_r in S.
  assert (Hd : exists r, json_dumps (todos_value T) = 91 :: r).
  { destruct T as [|t T]; [eexists; reflexivity|].
    unfold json_dumps, todos_value. cbn [map iterencode app]. eauto. }
  destruct Hd as [r Hr]. unfold json_loads. rewrite Hr in S. rewrite Hn, Hr.
  change (skip_ws (91 :: r)) with (91 :: r).
  change (91 =? 65279) with false. cbv iota.
  rewrite (scan_once_enough _ _ _ _ _ S) by lia. reflexivity.
Qed.

(** ** When the scanner raises

    The scanner raises [ValueError] only at an integer numeral that exceeds
    the cap, and [RecursionError] only when it has entered as many
    containers as it may; either way the text is longer than the limit. *)

Lemma scan_map_raised {A B} (f : A -> B) (x : scan A) (e : exn) :
  scan_map f x = Raised e -> x = Raised e.
Proof. destruct x; cbn; congruence. Qed.

Lemma scanstring_never_raises (s : str) (e : exn) : scanstring s <> Raised e.
Proof.
  induction s as [s IH] using (induction_ltof1 _ (@length Z)).
  unfold ltof in IH.
  assert (D : forall x r, (length r < length s)%nat ->
            scan_map (cons x) (scanstring r) <> Raised e).
  { intros x r L H. apply scan_map_raised in H. exact (IH r L H). }
  destruct s as [|c s]; [discriminate|]. cbn [scanstring].
  destruct (c =? 34); [discriminate|].
  destruct (c =? 92).
  2:{ destruct (c <=? 31); [discriminate|]. apply D. cbn [length]. lia. }
  destruct s as [|x s]; [discriminate|].
  destruct (x =? 117).
  2:{ destruct (unescape x); [|discriminate]. apply D. cbn [length]. lia. }
  destruct s as [|h1 [|h2 [|h3 [|h4 s]]]]; try discriminate.
  destruct (hex4 h1 h2 h3 h4) as [u|]; [|discriminate].
  destruct (high_surrogate u); [|apply D; cbn [length]; lia].
  destruct s as [|b [|u' [|g1 [|g2 [|g3 [|g4 s']]]]]];
    try (apply D; cbn [length]; lia).
  destruct ((b =? 92) && (u' =? 117)); [|apply D; cbn [length]; lia].
  destruct (hex4 g1 g2 g3 g4) as [u2|]; [|discriminate].
  destruct (low_surrogate u2); apply D; cbn [length]; lia.
Qed.

Lemma span_digits_split (s : str) :
  (length (fst (span_digits s)) + length (snd (span_digits s)))%nat = length s.
Proof.
  induction s as [|c r IH]; [reflexivity|]. cbn [span_digits].
  destruct (is_digit c); [|reflexivity].
  destruct (span_digits r) as [ds rest]. cbn [fst snd length] in *. lia.
Qed.

Lemma scan_int_part_length (s ip r : str) :
  scan_int_part s = Some (ip, r) -> (length ip <= length s)%nat.
Proof.
  unfold scan_int_part. destruct s as [|c s]; [discriminate|].
  destruct (in_range 49 57 c).
  - pose proof (span_digits_split s) as L.
    destruct (span_digits s) as [ds rest]. intros [= <- <-].
    cbn [fst snd length] in *. lia.
  - destruct (c =? 48); [|discriminate]. intros [= <- <-]. cbn [length]. lia.
Qed.

Lemma over_digit_cap_longer (s s' : str) :
  (length s <= length s')%nat -> over_digit_cap s -> over_digit_cap s'.
Proof. unfold over_digit_cap. intros L (A & B & C). repeat split; lia. Qed.

Lemma match_number_raises (s : str) (e : exn) :
  match_number s = Raised e -> e = ValueError /\ over_digit_cap s.
Proof.
  unfold match_number.
  set (p := match s with
            | c :: r0 => if c =? 45 then (true, r0) else (false, s)
            | [] => (false, s)
            end).
  assert (Hp : (length (snd p) <= length s)%nat).
  { subst p. destruct s as [|c s']; [cbn; lia|].
    destruct (c =? 45); cbn [snd length]; lia. }
  destruct p as [negative s1]. cbn [snd] in Hp.
  destruct (scan_int_part s1) as [[ip r1]|] eqn:Ei; [|discriminate].
  apply scan_int_part_length in Ei.
  destruct (scan_frac r1) as [frac r2]. destruct (scan_exp r2) as [ex r3].
  destruct frac, ex; try discriminate.
  destruct (too_many_digits ip) eqn:Hd; [|discriminate].
  intros [= <-]. split; [reflexivity|].
  unfold too_many_digits in Hd.
  apply andb_true_iff in Hd. destruct Hd as [Hd H3].
  apply andb_true_iff in Hd. destruct Hd as [H1 H2].
  apply Z.ltb_lt in H1, H2, H3. unfold over_digit_cap. repeat split; lia.
Qed.

Lemma scans_raise (n : nat) :
  (forall d s e, scan_once n d s = Raised e ->
     (e = ValueError /\ over_digit_cap s)
     \/ (e = RecursionError /\ (d < length s)%nat))
  /\ (forall d s e, parse_array n d s = Raised e ->
        (e = ValueError /\ over_digit_cap s)
        \/ (e = RecursionError /\ (d < length s)%nat))
  /\ (forall d s e, parse_object n d s = Raised e ->
        (e = ValueError /\ over_digit_cap s)
        \/ (e = RecursionError /\ (d < length s)%nat)).
Proof.
  assert (W : forall d e (s s' : str), (length s <= length s')%nat ->
            (e = ValueError /\ over_digit_cap s)
            \/ (e = RecursionError /\ (d < length s)%nat) ->
            (e = ValueError /\ over_digit_cap s')
            \/ (e = RecursionError /\ (d < length s')%nat)).
  { intros d e s s' L [[-> H]|[-> H]]; [left|right]; split; try reflexivity;
      [exact (over_digit_cap_longer s s' L H)|lia]. }
  induction n as [|n (IHv & IHa & IHo)]; [repeat split; discriminate|].
  repeat split.
  - intros d s e H. cbn [scan_once] in H.
    destruct s as [|c s]; [discriminate|].
    destruct (c =? 34).
    { apply scan_map_raised in H. destruct (scanstring_never_raises _ _ H). }
    destruct (c =? 123).
    { destruct d as [|d].
      { injection H as <-. right. split; [reflexivity|cbn [length]; lia]. }
      pose proof (skip_ws_length s) as L.
      destruct (skip_ws s) as [|c' r'] eqn:Es; [discriminate|].
      destruct (c' =? 125); [discriminate|].
      apply scan_map_raised, IHo in H.
      destruct H as [[-> H]|[-> H]]; [left|right]; split; try reflexivity.
      - apply (over_digit_cap_longer (c' :: r')); [cbn [length] in *; lia|exact H].
      - cbn [length] in *. lia. }
    destruct (c =? 91).
    { destruct d as [|d].
      { injection H as <-. right. split; [reflexivity|cbn [length]; lia]. }
      pose proof (skip_ws_length s) as L.
      destruct (skip_ws s) as [|c' r'] eqn:Es; [discriminate|].
      destruct (c' =? 93); [discriminate|].
      apply scan_map_raised, IHa in H.
      destruct H as [[-> H]|[-> H]]; [left|right]; split; try reflexivity.
      - apply (over_digit_cap_longer (c' :: r')); [cbn [length] in *; lia|exact H].
      - cbn [length] in *. lia. }
    repeat match type of H with
      | context [strip_prefix ?p ?x] =>
          destruct (strip_prefix p x); [discriminate H|]
      end.
    left. exact (match_number_raises _ _ H).
  - intros d s e H. cbn [parse_array] in H.
    destruct (scan_once n d s) as [v rest| | |e'] eqn:Ev; try discriminate.
    2:{ injection H as ->. exact (IHv _ _ _ Ev). }
    apply (proj1 (scans_shorter n)) in Ev.
    pose proof (skip_ws_length rest) as L.
    destruct (skip_ws rest) as [|c r0]; [discriminate|].
    destruct (c =? 93); [discriminate|].
    destruct (c =? 44); [|discriminate].
    apply scan_map_raised, IHa in H. pose proof (skip_ws_length r0).
    apply (W d e (skip_ws r0)); [cbn [length] in *; lia|exact H].
  - intros d s e H. cbn [parse_object] in H.
    destruct s as [|q s]; [discriminate|].
    destruct (q =? 34); [|discriminate].
    destruct (scanstring s) as [key rest| | |e'] eqn:Ek; try discriminate.
    2:{ destruct (scanstring_never_raises _ _ Ek). }
    apply scanstring_shorter in Ek. pose proof (skip_ws_length rest) as L.
    destruct (skip_ws rest) as [|colon r1]; [discriminate|].
    destruct (colon =? 58); [|discriminate].
    pose proof (skip_ws_length r1) as L1.
    destruct (scan_once n d (skip_ws r1)) as [v rest1| | |e'] eqn:Ev;
      try discriminate.
    2:{ injection H as ->. apply IHv in Ev.
        apply (W d e (skip_ws r1)); [cbn [length] in *; lia|exact Ev]. }
    apply (proj1 (scans_shorter n)) in Ev.
    pose proof (skip_ws_length rest1) as L2.
    destruct (skip_ws rest1) as [|c r2]; [discriminate|].
    destruct (c =? 125); [discriminate|].
    destruct (c =? 44); [|discriminate].
    apply scan_map_raised, IHo in H. pose proof (skip_ws_length r2).
    apply (W d e (skip_ws r2)); [cbn [length] in *; lia|exact H].
Qed.

(** [json.loads] raises only on a text that is longer than the limit it
    met. *)
Lemma json_loads_raises (s : str) (e : exn) :
  json_loads s = Raised e ->
  (e = ValueError /\ over_digit_cap s)
  \/ (e = RecursionError /\ (nesting_limit < length s)%nat).
Proof.
  unfold json_loads.
  destruct (match s with c :: _ => c =? 65279 | [] => false end);
    [discriminate|].
  destruct (scan_once (S (2 * length s)) nesting_limit (skip_ws s))
    as [v rest| | |e'] eqn:E; try discriminate.
  - destruct (skip_ws rest); discriminate.
  - intros [= ->]. apply (proj1 (scans_raise _)) in E.
    pose proof (skip_ws_length s) as L.
    destruct E as [[-> H]|[-> H]]; [left|right]; split; try reflexivity.
    + exact (over_digit_cap_longer _ _ L H).
    + lia.
Qed.

Lemma json_loads_raises_kind (s : str) (e : exn) :
  json_loads s = Raised e -> e = ValueError \/ e = RecursionError.
Proof.
  intros H. destruct (json_loads_raises s e H) as [[-> _]|[-> _]]; auto.
Qed.

(** ** Texts on which [json.load] raises *)







(** ** What is written to the file *)

Lemma translate_newlines_plain (s : str) :
  forallb plain s = true -> translate_newlines s = s.
Proof.
  induction s as [|c r IH]; [reflexivity|]. cbn [forallb translate_newlines].
  intros H. apply andb_true_iff in H. destruct H as [Hc Hr].
  unfold plain in Hc. apply andb_true_iff in Hc. destruct Hc as [_ Hc].
  destruct (c =? 13); [discriminate|]. rewrite (IH Hr). reflexivity.
Qed.

Lemma plain_scalar (s : str) :
  forallb plain s = true -> forallb scalar s = true.
Proof.
  intros H. apply forallb_forall. intros c Hc.
  rewrite forallb_forall in H. specialize (H c Hc). unfold plain in H.
  apply andb_true_iff in H. exact (proj1 H).
Qed.

Lemma plain_hex_digit (n : Z) : 0 <= n < 16 -> plain (hex_digit n) = true.
Proof.
  intros H. assert (Hn : In n (map Z.of_nat (seq 0 16))).
  { apply in_map_iff. exists (Z.to_nat n). split; [lia|]. apply in_seq. lia. }
  cbn in Hn. repeat (destruct Hn as [<-|Hn]; [reflexivity|]). contradiction.
Qed.

Lemma plain_escape_char (c : Z) :
  scalar c = true -> forallb plain (escape_char c) = true.
Proof.
  intros H. unfold escape_char.
  repeat match goal with
    | |- context [if ?c =? ?k then _ else _] =>
        destruct (Z.eqb_spec c k); [reflexivity|]
    end.
  unfold in_range. destruct (Z.leb_spec 0 c), (Z.leb_spec c 31); cbn [andb].
  - cbn [forallb]. rewrite !plain_hex_digit; [reflexivity| |].
    + apply Z.mod_pos_bound. lia.
    + split; [apply Z.div_pos; lia|apply Z.div_lt_upper_bound; lia].
  - cbn [forallb]. unfold plain. rewrite H.
    destruct (Z.eqb_spec c 13); [contradiction|]. reflexivity.
  - unfold scalar, in_range in H. destruct (Z.leb_spec 0 c); [lia|discriminate].
  - unfold scalar, in_range in H. destruct (Z.leb_spec 0 c); [lia|discriminate].
Qed.

Lemma plain_encode_basestring (s : str) :
  forallb scalar s = true -> forallb plain (encode_basestring s) = true.
Proof.
  intros H. unfold encode_basestring. cbn [forallb]. rewrite forallb_app.
  change (plain 34) with true. cbn [forallb andb]. rewrite andb_true_r.
  induction s as [|c r IH]; [reflexivity|]. cbn [map concat forallb] in *.
  apply andb_true_iff in H. destruct H as [Hc Hr].
  rewrite forallb_app, (plain_escape_char c Hc), (IH Hr). reflexivity.
Qed.

Lemma plain_newline_indent (level : nat) :
  forallb plain (newline_indent level) = true.
Proof.
  unfold newline_indent. cbn [forallb]. change (plain 10) with true.
  induction (2 * level)%nat as [|k IH]; [reflexivity|exact IH].
Qed.

Lemma forallb_plain_cons (c : Z) (s : str) :
  forallb plain (c :: s) = plain c && forallb plain s.
Proof. reflexivity. Qed.

Lemma plain_task (level : nat) (t : Task) :
  well_formed t -> forallb plain (iterencode level (task_value t)) = true.
Proof.
  intros [Ht Hc]. rewrite iterencode_task. unfold member_key.
  repeat (rewrite forallb_app || rewrite forallb_plain_cons).
  rewrite !plain_newline_indent.
  rewrite !plain_encode_basestring by (assumption || reflexivity).
  destruct (completed t); reflexivity.
Qed.

Lemma plain_tasks (T : list Task) :
  Forall well_formed T -> forallb plain (json_dumps (todos_value T)) = true.
Proof.
  intros H. destruct T as [|t T]; [reflexivity|].
  unfold json_dumps, todos_value.
  change (iterencode 0 (VList (map task_value (t :: T))))
    with (91 :: newline_indent 1
          ++ join (44 :: newline_indent 1)
               (map (iterencode 1) (map task_value (t :: T)))
          ++ newline_indent 0 ++ [93]).
  cbn [forallb]. change (plain 91) with true.
  rewrite !forallb_app, !plain_newline_indent. cbn [forallb andb].
  change (plain 93) with true. rewrite !andb_true_r.
  revert t H. induction T as [|t' T IH]; intros t H.
  - cbn [map join]. apply plain_task. inversion H; assumption.
  - inversion H as [|? ? Ht HT]; subst.
    change (join ?sep (map ?f (map ?g (t :: t' :: T))))
      with (f (g t) ++ sep ++ join sep (map f (map g (t' :: T)))).
    rewrite !forallb_app. cbn [forallb]. change (plain 44) with true.
    rewrite plain_task, plain_newline_indent, (IH t' HT) by assumption.
    reflexivity.
Qed.

Lemma well_formed_nonneg (T : list Task) :
  Forall well_formed T -> Forall nonneg_task T.
Proof.
  intros H. eapply Forall_impl; [exact H|]. intros t [Ht Hc].
  split; apply scalar_nonneg; assumption.
Qed.

(** ** Saving and loading *)

(** The bytes [save_todos] writes for a list of well-formed tasks. *)
Lemma encode_tasks (T : list Task) :
  Forall well_formed T ->
  exists bytes,
    utf8_encode (json_dumps (todos_value T)) = Some bytes
    /\ utf8_decode bytes = Some (json_dumps (todos_value T)).
Proof.
  intros H.
  destruct (utf8_encode_scalar _ (plain_scalar _ (plain_tasks T H)))
    as [bytes E].
  exists bytes. split; [exact E|]. apply utf8_decode_encode, E.
Qed.

Lemma load_written (T : list Task) (bytes : list Z) (w : world) :
  Forall well_formed T ->
  utf8_encode (json_dumps (todos_value T)) = Some bytes ->
  file w = Some bytes -> readable w = true ->
  load_todos w = Return (todos_value T) w.
Proof.
  intros H E Hf Hr. unfold load_todos. rewrite Hf, Hr.
  rewrite (utf8_decode_encode _ _ E).
  rewrite (translate_newlines_plain _ (plain_tasks T H)).
  rewrite (json_loads_dumps T (well_formed_nonneg T H)). reflexivity.
Qed.

Lemma save_tasks (T : list Task) (w : world) :
  Forall well_formed T -> writable w = true ->
  exists bytes,
    utf8_encode (json_dumps (todos_value T)) = Some bytes
    /\ save_todos (todos_value T) w
       = Return tt (log (Saved (todos_value T)) (write_file bytes w)).
Proof.
  intros H Hw. destruct (encode_tasks T H) as (bytes & E & _).
  exists bytes. split; [exact E|]. unfold save_todos. rewrite Hw, E.
  reflexivity.
Qed.
(** ** Stripping whitespace *)

Lemma lstrip_nil_iff (s : str) :
  lstrip s = [] <-> forallb isspace s = true.
Proof.
  induction s as [|c r IH]; simpl; [tauto|].
  destruct (isspace c); simpl; [exact IH|].
  split; discriminate.
Qed.

Lemma lstrip_suffix (s : str) : exists p, s = p ++ lstrip s /\ forallb isspace p = true.
Proof.
  induction s as [|c r IH]; simpl.
  - exists []. auto.
  - destruct (isspace c) eqn:E.
    + destruct IH as (p & Hp & Hs). exists (c :: p). simpl.
      rewrite E, Hs. split; [congruence|reflexivity].
    + exists []. auto.
Qed.

Lemma forallb_rev {A} (f : A -> bool) (l : list A) :
  forallb f (rev l) = forallb f l.
Proof.
  induction l as [|a l IH]; simpl; [reflexivity|].
  rewrite forallb_app, IH. simpl. rewrite andb_true_r. apply andb_comm.
Qed.

Lemma strip_nil_iff (s : str) :
  strip s = [] <-> forallb isspace s = true.
Proof.
  unfold strip, rstrip. split.
  - intros H. apply (f_equal (@rev Z)) in H. rewrite rev_involutive in H.
    simpl in H. apply lstrip_nil_iff in H. rewrite forallb_rev in H.
    destruct (lstrip_suffix s) as (p & Hp & Hs).
    rewrite Hp, forallb_app, Hs, H. reflexivity.
  - intros H. assert (L : lstrip s = []) by (apply lstrip_nil_iff; exact H).
    rewrite L. reflexivity.
Qed.

Lemma str_bool_strip (s : str) :
  str_bool (strip s) = existsb (fun c => negb (isspace c)) s.
Proof.
  destruct (forallb isspace s) eqn:E.
  - assert (strip s = []) as -> by (apply strip_nil_iff; exact E).
    simpl. symmetry. apply not_true_is_false. intros H.
    apply existsb_exists in H. destruct H as (c & Hc & Hn).
    rewrite forallb_forall in E. rewrite (E c Hc) in Hn. discriminate.
  - assert (N : strip s <> []).
    { intros H. apply strip_nil_iff in H. congruence. }
    destruct (strip s); [congruence|]. simpl. symmetry.
    destruct (existsb (fun c => negb (isspace c)) s) eqn:X; [reflexivity|].
    exfalso. assert (forallb isspace s = true); [|congruence].
    apply forallb_forall. intros c Hc.
    destruct (isspace c) eqn:Ec; [reflexivity|].
    assert (existsb (fun c => negb (isspace c)) s = true); [|congruence].
    apply existsb_exists. exists c. rewrite Ec. auto.
Qed.

(** C7: validate_task_text answers true exactly when the value is present
    and holds a character that is not whitespace: it is false for [None],
    and for a string it is the truth of "some character is not a space",
    which is also the truth of "the string is not empty once stripped". *)
Theorem validate_task_text_spec :
  validate_task_text None = false
  /\ (forall s : str,
        validate_task_text (Some s)
        = existsb (fun c => negb (isspace c)) s)
  /\ (forall s : str, validate_task_text (Some s) = str_bool (strip s))
  /\ (forall s : str,
        validate_task_text (Some s) = false <-> forallb isspace s = true).
Proof.
  assert (E : forall s : str, validate_task_text (Some s) = str_bool (strip s)).
  { intros s. cbn [validate_task_text]. destruct s; reflexivity. }
  split; [reflexivity|]. split; [|split; [exact E|]].
  - intros s. rewrite E. apply str_bool_strip.
  - intros s. rewrite E. rewrite <- strip_nil_iff.
    destruct (strip s); cbn [str_bool]; split; congruence.
Qed.

(** ** Resolving an index *)

Lemma validate_task_index_list (l : list value) (i : Z) :
  validate_task_index (VList l) i
  = Ok ((1 <=? i) && (i <=? Z.of_nat (length l))).
Proof.
  unfold validate_task_index. destruct (1 <=? i); reflexivity.
Qed.

Lemma get_valid_task_index_list (l : list value) (s : str) :
  get_valid_task_index (VList l) s
  = Ok (match py_int s with
        | Some i =>
            if (1 <=? i) && (i <=? Z.of_nat (length l)) then Some i else None
        | None => None
        end).
Proof.
  unfold get_valid_task_index. destruct (py_int s) as [i|]; [|reflexivity].
  rewrite validate_task_index_list. reflexivity.
Qed.

(** C6: for a list of tasks, resolving an index string gives none when the
    string is not an integer numeral and when the integer lies outside
    1..len(tasks); an index that is returned is the parsed integer itself,
    never a neighbouring value inside the range. *)
Theorem get_valid_task_index_rejects (l : list value) (s : str) :
  (py_int s = None -> get_valid_task_index (VList l) s = Ok None)
  /\ (forall n : Z,
        py_int s = Some n -> n < 1 \/ Z.of_nat (length l) < n ->
        get_valid_task_index (VList l) s = Ok None)
  /\ (forall i : Z,
        get_valid_task_index (VList l) s = Ok (Some i) ->
        py_int s = Some i /\ 1 <= i <= Z.of_nat (length l)).
Proof.
  rewrite get_valid_task_index_list. repeat split.
  - intros ->. reflexivity.
  - intros n -> H.
    destruct (Z.leb_spec 1 n), (Z.leb_spec n (Z.of_nat (length l)));
      cbn [andb]; (reflexivity || lia).
  - destruct (py_int s) as [n|]; [|discriminate].
    destruct (Z.leb_spec 1 n), (Z.leb_spec n (Z.of_nat (length l)));
      cbn [andb] in *; congruence.
  - destruct (py_int s) as [n|]; [|discriminate].
    destruct (Z.leb_spec 1 n), (Z.leb_spec n (Z.of_nat (length l)));
      cbn [andb] in *; [injection H as <-; lia|discriminate..].
  - destruct (py_int s) as [n|]; [|discriminate].
    destruct (Z.leb_spec 1 n), (Z.leb_spec n (Z.of_nat (length l)));
      cbn [andb] in *; [injection H as <-; lia|discriminate..].
Qed.

(** ** Lists of task records as Python lists *)

Lemma lookup_map {A B} (f : A -> B) (l : list A) (k : nat) :
  map f l !! k = option_map f (l !! k).
Proof.
  revert k. induction l as [|a l IH]; intros [|k]; cbn; auto.
Qed.

Lemma delete_map {A B} (f : A -> B) (l : list A) (k : nat) :
  delete k (map f l) = map f (delete k l).
Proof.
  revert k. induction l as [|a l IH]; intros [|k]; cbn; auto.
  f_equal. apply IH.
Qed.

Lemma insert_map {A B} (f : A -> B) (l : list A) (k : nat) (x : A) :
  <[k := f x]> (map f l) = map f (<[k := x]> l).
Proof.
  revert k. induction l as [|a l IH]; intros [|k]; cbn; auto.
  f_equal. apply IH.
Qed.

Lemma task_completed (t : Task) :
  getitem_str (task_value t) (lit "completed") = Ok (VBool (completed t)).
Proof. reflexivity. Qed.

Lemma task_text (t : Task) :
  getitem_str (task_value t) (lit "task") = Ok (VStr (task t)).
Proof. reflexivity. Qed.

Lemma task_created (t : Task) :
  getitem_str (task_value t) (lit "created") = Ok (VStr (created t)).
Proof. reflexivity. Qed.

Lemma task_set_completed (t : Task) :
  setitem_str (task_value t) (lit "completed") (VBool true)
  = Ok (task_value (mark_completed t)).
Proof. reflexivity. Qed.

Lemma todos_bool (T : list Task) :
  py_bool (todos_value T) = match T with [] => false | _ :: _ => true end.
Proof. destruct T; reflexivity. Qed.

Lemma todos_getitem (T : list Task) (i : Z) (t : Task) :
  1 <= i -> T !! Z.to_nat (i - 1) = Some t ->
  getitem_int (todos_value T) (i - 1) = Ok (task_value t).
Proof.
  intros Hi Ht. unfold todos_value, getitem_int, index_ok, norm_index.
  destruct (Z.ltb_spec (i - 1) 0); [lia|].
  rewrite lookup_map, Ht. cbn [option_map].
  apply lookup_lt_Some in Ht. rewrite length_map.
  destruct (Z.leb_spec 0 (i - 1)); [|lia].
  destruct (Z.ltb_spec (i - 1) (Z.of_nat (length T))); [reflexivity|lia].
Qed.

Lemma todos_pop (T : list Task) (i : Z) (t : Task) :
  1 <= i -> T !! Z.to_nat (i - 1) = Some t ->
  py_pop (todos_value T) (i - 1)
  = Ok (task_value t, todos_value (delete (Z.to_nat (i - 1)) T)).
Proof.
  intros Hi Ht. unfold todos_value, py_pop, index_ok, norm_index.
  destruct (Z.ltb_spec (i - 1) 0); [lia|].
  rewrite lookup_map, Ht. cbn [option_map].
  apply lookup_lt_Some in Ht. rewrite length_map.
  destruct (Z.leb_spec 0 (i - 1)); [|lia].
  destruct (Z.ltb_spec (i - 1) (Z.of_nat (length T))); [|lia].
  cbn [andb]. rewrite delete_map. reflexivity.
Qed.

Lemma todos_set_completed (T : list Task) (i : Z) (t : Task) :
  1 <= i -> T !! Z.to_nat (i - 1) = Some t ->
  setitem_item (todos_value T) (i - 1) (lit "completed") (VBool true)
  = Ok (todos_value (<[Z.to_nat (i - 1) := mark_completed t]> T),
        task_value (mark_completed t)).
Proof.
  intros Hi Ht. unfold setitem_item. rewrite (todos_getitem T i t Hi Ht).
  cbn [rbind]. rewrite task_set_completed. cbn [rbind].
  unfold todos_value, norm_index. destruct (Z.ltb_spec (i - 1) 0); [lia|].
  rewrite insert_map. reflexivity.
Qed.

Lemma todos_resolve (T : list Task) (s : str) :
  get_valid_task_index (todos_value T) s
  = Ok (match py_int s with
        | Some i =>
            if (1 <=? i) && (i <=? Z.of_nat (length T)) then Some i else None
        | None => None
        end).
Proof.
  unfold todos_value. rewrite get_valid_task_index_list, length_map.
  reflexivity.
Qed.

Lemma select_tasks (b : bool) (T : list Task) :
  select b (map task_value T)
  = Ok (map task_value (List.filter (fun t => Bool.eqb (completed t) b) T)).
Proof.
  induction T as [|t T IH]; [reflexivity|].
  cbn [map select List.filter]. rewrite task_completed. cbn [rbind].
  rewrite IH. cbn [rbind py_bool].
  destruct (Bool.eqb (completed t) b); reflexivity.
Qed.

Lemma count_completed_tasks (T : list Task) :
  count_completed (map task_value T)
  = Ok (Z.of_nat (length (List.filter completed T))).
Proof.
  induction T as [|t T IH]; [reflexivity|].
  cbn [map count_completed List.filter]. rewrite task_completed. cbn [rbind].
  rewrite IH. cbn [rbind py_bool].
  destruct (completed t); cbn [length]; f_equal; lia.
Qed.

(** Reading depends on the file and its permission only. *)
Lemma load_todos_frame (w w' : world) (v : value) :
  file w' = file w -> readable w' = readable w ->
  load_todos w = Return v w -> load_todos w' = Return v w'.
Proof.
  unfold load_todos. intros -> ->.
  destruct (file w) as [bytes|]; [|intros [= <-]; reflexivity].
  destruct (readable w); [|intros [= <-]; reflexivity].
  destruct (utf8_decode bytes) as [content|]; [|discriminate].
  destruct (json_loads (translate_newlines content));
    [intros [= <-]|intros [= <-]|discriminate|discriminate]; reflexivity.
Qed.

Lemma load_todos_same_world (w w' : world) (v : value) :
  load_todos w = Return v w' -> w' = w.
Proof.
  unfold load_todos.
  destruct (file w) as [bytes|]; [|intros [= _ <-]; reflexivity].
  destruct (readable w); [|intros [= _ <-]; reflexivity].
  destruct (utf8_decode bytes) as [content|]; [|discriminate].
  destruct (json_loads (translate_newlines content));
    [intros [= _ <-]|intros [= _ <-]|discriminate|discriminate];
    reflexivity.
Qed.

(** C1: when the file can be written and read, saving a sequence of
    well-formed tasks succeeds, and the next load returns that same sequence,
    element for element and in the same order. *)
Theorem save_load_round_trip (T : list Task) (w : world) :
  Forall well_formed T -> writable w = true -> readable w = true ->
  exists w',
    save_todos (todos_value T) w = Return tt w'
    /\ load_todos w' = Return (todos_value T) w'.
Proof.
  intros H Hw Hr. destruct (save_tasks T w H Hw) as (bytes & E & S).
  eexists. split; [exact S|].
  apply (load_written T bytes); [exact H|exact E|reflexivity|exact Hr].
Qed.

(** ** Commands on a stored list of tasks *)

Lemma holds_after_save (T : list Task) (bytes : list Z) (w w' : world) :
  Forall well_formed T ->
  utf8_encode (json_dumps (todos_value T)) = Some bytes ->
  file w' = Some bytes -> readable w' = true -> writable w' = true ->
  holds w' T.
Proof.
  intros H E Hf Hr Hw. repeat split; [exact Hr|exact Hw|].
  apply (load_written T bytes); assumption.
Qed.

Lemma position_lookup (T : list Task) (p : Z) (t : Task) :
  position T p = Some t ->
  1 <= p <= Z.of_nat (length T) /\ T !! Z.to_nat (p - 1) = Some t.
Proof.
  unfold position. destruct (Z.leb_spec 1 p) as [Hp|Hp]; [|discriminate].
  intros Ht. split; [|exact Ht]. apply lookup_lt_Some in Ht. lia.
Qed.

Lemma resolve_position (T : list Task) (s : str) (i : Z) (t : Task) :
  py_int s = Some i -> position T i = Some t ->
  get_valid_task_index (todos_value T) s = Ok (Some i).
Proof.
  intros Hs Ht. apply position_lookup in Ht. destruct Ht as [Hi _].
  rewrite todos_resolve, Hs.
  destruct (Z.leb_spec 1 i), (Z.leb_spec i (Z.of_nat (length T)));
    cbn [andb]; (reflexivity || lia).
Qed.

(** C2: on a stored list of well-formed tasks, removing at a storage
    position i with 1 <= i <= length returns true; the list stored afterwards
    is the old one without its i-th task, so it is one shorter, the tasks
    before position i are where they were, and each task after position i has
    moved down by one. *)
Theorem remove_task_shifts (w : world) (T : list Task) (index_str : str) (i : Z) :
  holds w T -> Forall well_formed T ->
  py_int index_str = Some i -> 1 <= i <= Z.of_nat (length T) ->
  exists (w' : world) (before : list Task) (removed : Task) (after : list Task),
    remove_task index_str w = Return true w'
    /\ T = before ++ removed :: after
    /\ Z.of_nat (length before) = i - 1
    /\ holds w' (before ++ after)
    /\ S (length (before ++ after)) = length T
    /\ (forall p, 1 <= p < i -> position (before ++ after) p = position T p)
    /\ (forall p, i <= p -> position (before ++ after) p = position T (p + 1)).
Proof.
  intros (Hr & Hw & Hl) Hwf Hs Hi.
  destruct (lookup_lt_is_Some_2 T (Z.to_nat (i - 1))) as [t Ht]; [lia|].
  assert (HT : T = take (Z.to_nat (i - 1)) T ++ t :: drop (S (Z.to_nat (i - 1))) T).
  { symmetry. apply take_drop_middle, Ht. }
  assert (HD : delete (Z.to_nat (i - 1)) T
               = take (Z.to_nat (i - 1)) T ++ drop (S (Z.to_nat (i - 1))) T).
  { apply delete_take_drop. }
  set (before := take (Z.to_nat (i - 1)) T) in *.
  set (after := drop (S (Z.to_nat (i - 1))) T) in *.
  assert (Hb : length before = Z.to_nat (i - 1)).
  { subst before. rewrite length_take. lia. }
  assert (Hwf' : Forall well_formed (before ++ after)).
  { rewrite <- HD. apply Forall_delete, Hwf. }
  destruct (save_tasks (before ++ after) w Hwf' Hw) as (bytes & E & Hsave).
  exists (log (Printed (chars (table_get SYMBOLS "check" ++ [32])
                        ++ colorize (chars (lit "Task ") ++ chars (str_of_int i)
                                     ++ chars (lit " removed: ")
                                     ++ show (VStr (task t))) "green"))
            (log (Saved (todos_value (before ++ after))) (write_file bytes w))),
    before, t, after.
  split; [|split; [exact HT|split; [lia|split; [|split; [|split]]]]].
  - unfold remove_task, bind. rewrite Hl, todos_bool.
    destruct T as [|t0 T0]; [cbn [length] in Hi; lia|].
    unfold lift. rewrite todos_resolve, Hs.
    destruct (Z.leb_spec 1 i); [|lia].
    destruct (Z.leb_spec i (Z.of_nat (length (t0 :: T0)))); [|lia].
    cbn [andb]. rewrite (todos_pop _ i t) by (lia || exact Ht).
    cbn [fst snd]. rewrite HD, Hsave, task_text. reflexivity.
  - apply (holds_after_save _ bytes); auto.
  - apply (f_equal length) in HT. rewrite length_app in HT |- *.
    cbn [length] in HT. lia.
  - intros p Hp. unfold position. destruct (Z.leb_spec 1 p); [|lia].
    assert (X : T !! Z.to_nat (p - 1)
                = (before ++ t :: after) !! Z.to_nat (p - 1))
      by (rewrite <- HT; reflexivity).
    rewrite X, !lookup_app_l by lia. reflexivity.
  - intros p Hp. unfold position.
    destruct (Z.leb_spec 1 p); [|lia]. destruct (Z.leb_spec 1 (p + 1)); [|lia].
    assert (X : T !! Z.to_nat (p + 1 - 1)
                = (before ++ t :: after) !! Z.to_nat (p + 1 - 1))
      by (rewrite <- HT; reflexivity).
    rewrite X, !lookup_app_r by lia.
    replace (Z.to_nat (p + 1 - 1) - length before)%nat
      with (S (Z.to_nat (p - 1) - length before)) by lia.
    reflexivity.
Qed.

Lemma well_formed_mark (t : Task) : well_formed t -> well_formed (mark_completed t).
Proof. intros H. exact H. Qed.

(** C4: completing twice in succession a task that is stored at position i
    and not yet completed answers true the first time and false the second;
    the task at position i is completed after the first call and after the
    second, the other tasks are untouched, and the second call neither saves
    nor changes the file. *)
Theorem complete_task_twice (w : world) (T : list Task) (index_str : str)
    (i : Z) (t : Task) :
  holds w T -> Forall well_formed T ->
  py_int index_str = Some i -> position T i = Some t -> completed t = false ->
  exists (w1 w2 : world) (T' : list Task),
    complete_task index_str w = Return true w1
    /\ complete_task index_str w1 = Return false w2
    /\ holds w1 T' /\ holds w2 T'
    /\ position T' i = Some (mark_completed t)
    /\ (forall p, p <> i -> position T' p = position T p)
    /\ length T' = length T
    /\ file w2 = file w1 /\ no_save w1 w2.
Proof.
  intros (Hr & Hw & Hl) Hwf Hs Hp Hc.
  pose proof (resolve_position T _ _ _ Hs Hp) as Hres.
  destruct (position_lookup _ _ _ Hp) as [Hi Ht].
  set (k := Z.to_nat (i - 1)) in *.
  set (T' := <[k := mark_completed t]> T).
  assert (Hk : (k < length T)%nat) by (apply lookup_lt_Some in Ht; exact Ht).
  assert (Ht' : T' !! k = Some (mark_completed t))
    by (apply list_lookup_insert_eq, Hk).
  assert (Hp' : position T' i = Some (mark_completed t)).
  { unfold position. destruct (Z.leb_spec 1 i); [exact Ht'|lia]. }
  assert (Hwf' : Forall well_formed T').
  { apply Forall_insert; [exact Hwf|].
    apply well_formed_mark. rewrite Forall_lookup in Hwf. exact (Hwf k t Ht). }
  destruct (save_tasks T' w Hwf' Hw) as (bytes & E & Hsave).
  set (w1 := log (Printed (chars (table_get SYMBOLS "check" ++ [32])
                ++ colorize (chars (lit "Task ") ++ chars (str_of_int i)
                             ++ chars (lit " marked as complete: ")
                             ++ show (VStr (task t))) "green"))
              (log (Saved (todos_value T')) (write_file bytes w))).
  assert (H1 : holds w1 T') by (apply (holds_after_save _ bytes); auto).
  set (line := chars (table_get SYMBOLS "list" ++ [32])
               ++ colorize (chars (lit "Task ") ++ chars (str_of_int i)
                            ++ chars (lit " is already completed!")) "blue").
  exists w1, (log (Printed line) w1), T'.
  assert (Hne : forall U : list Task, (k < length U)%nat ->
            py_bool (todos_value U) = true).
  { intros [|u U] L; [cbn [length] in L; lia|reflexivity]. }
  split; [|split; [|split; [exact H1|split; [|split; [exact Hp'|split;
            [|split; [|split]]]]]]].
  - unfold complete_task, bind. rewrite Hl, (Hne T Hk). unfold lift.
    rewrite Hres, (todos_getitem T i t) by (lia || exact Ht).
    rewrite task_completed, Hc. cbn [py_bool].
    rewrite (todos_set_completed T i t) by (lia || exact Ht).
    fold k. fold T'. cbn [fst snd]. rewrite Hsave. reflexivity.
  - destruct H1 as (_ & _ & Hl1).
    assert (Hk' : (k < length T')%nat)
      by (unfold T'; rewrite length_insert; exact Hk).
    unfold complete_task, bind. rewrite Hl1, (Hne T' Hk'). unfold lift.
    rewrite (resolve_position T' _ _ _ Hs Hp').
    rewrite (todos_getitem T' i (mark_completed t)) by (lia || exact Ht').
    reflexivity.
  - destruct H1 as (Hr1 & Hw1 & Hl1). repeat split; [exact Hr1|exact Hw1|].
    apply (load_todos_frame w1); [reflexivity|reflexivity|exact Hl1].
  - intros p Hne'. unfold position. destruct (Z.leb_spec 1 p); [|reflexivity].
    unfold T'. apply list_lookup_insert_ne. unfold k. lia.
  - unfold T'. apply length_insert.
  - reflexivity.
  - exists [line]. reflexivity.
Qed.

Lemma no_completed_filter (T : list Task) :
  existsb completed T = false -> List.filter completed T = [].
Proof.
  induction T as [|t T IH]; [reflexivity|]. cbn [existsb List.filter].
  destruct (completed t); [discriminate|]. exact IH.
Qed.

Lemma some_completed_filter (T : list Task) :
  existsb completed T = true -> List.filter completed T <> [].
Proof.
  induction T as [|t T IH]; [discriminate|]. cbn [existsb List.filter].
  destruct (completed t); [discriminate|]. exact IH.
Qed.

Lemma filter_pending (T : list Task) :
  List.filter (fun t => Bool.eqb (completed t) false) T
  = List.filter (fun t => negb (completed t)) T.
Proof.
  apply List.filter_ext. intros t. destruct (completed t); reflexivity.
Qed.

Lemma well_formed_filter (f : Task -> bool) (T : list Task) :
  Forall well_formed T -> Forall well_formed (List.filter f T).
Proof.
  induction 1 as [|t T Ht HT IH]; cbn [List.filter]; [constructor|].
  destruct (f t); [constructor; assumption|assumption].
Qed.

(** C3: on a stored list of well-formed tasks, clearing answers false,
    saves nothing and leaves the file as it is when no task is completed;
    otherwise it answers true and the list stored afterwards holds exactly
    the tasks that were not completed, in their original order. *)
Theorem clear_completed_spec (w : world) (T : list Task) :
  holds w T -> Forall well_formed T ->
  (existsb completed T = false ->
   exists w',
     clear_completed w = Return false w'
     /\ file w' = file w /\ no_save w w' /\ holds w' T)
  /\ (existsb completed T = true ->
      exists w',
        clear_completed w = Return true w'
        /\ holds w' (List.filter (fun t => negb (completed t)) T)).
Proof.
  intros (Hr & Hw & Hl) Hwf. split; intros Hc.
  - eexists. split; [|split; [|split]].
    + unfold clear_completed, bind. rewrite Hl. unfold lift, todos_value.
      cbn [py_iter]. rewrite count_completed_tasks.
      rewrite (no_completed_filter T Hc). cbn [length Z.of_nat Z.eqb].
      reflexivity.
    + reflexivity.
    + eexists [_]. reflexivity.
    + repeat split; [exact Hr|exact Hw|].
      apply (load_todos_frame w); [reflexivity|reflexivity|exact Hl].
  - set (T' := List.filter (fun t => negb (completed t)) T).
    assert (Hwf' : Forall well_formed T') by apply well_formed_filter, Hwf.
    destruct (save_tasks T' w Hwf' Hw) as (bytes & E & Hsave).
    eexists. split.
    + unfold clear_completed, bind. rewrite Hl. unfold lift, todos_value.
      cbn [py_iter]. rewrite count_completed_tasks.
      assert (Hz : (Z.of_nat (length (List.filter completed T)) =? 0) = false).
      { pose proof (some_completed_filter T Hc) as Hn.
        destruct (List.filter completed T); [congruence|].
        cbn [length]. apply Z.eqb_neq. lia. }
      rewrite Hz, select_tasks, filter_pending. fold T'. fold (todos_value T').
      rewrite Hsave. reflexivity.
    + apply (holds_after_save _ bytes); auto.
Qed.

(** C8: soft failures leave the storage untouched.  Adding a text that is
    empty once stripped answers false, prints, and neither saves nor changes
    the file; removing with an index that does not resolve answers false with
    the stored list unchanged; and index 5 does not resolve on a list of two
    tasks. *)
Theorem soft_failures_keep_storage :
  (forall (w : world) (text : str),
     validate_task_text (Some text) = false ->
     exists w',
       add_task text w = Return false w'
       /\ file w' = file w /\ no_save w w'
       /\ (forall v, load_todos w = Return v w -> load_todos w' = Return v w'))
  /\ (forall (w : world) (T : list Task) (index_str : str),
        load_todos w = Return (todos_value T) w ->
        get_valid_task_index (todos_value T) index_str = Ok None ->
        exists w',
          remove_task index_str w = Return false w'
          /\ file w' = file w /\ no_save w w'
          /\ load_todos w' = Return (todos_value T) w')
  /\ (forall t1 t2 : Task,
        get_valid_task_index (todos_value [t1; t2]) (lit "5") = Ok None).
Proof.
  split; [|split].
  - intros w text H. eexists. split; [|split; [|split]].
    + unfold add_task. rewrite H. reflexivity.
    + reflexivity.
    + eexists [_]. reflexivity.
    + intros v Hl. apply (load_todos_frame w); [reflexivity..|exact Hl].
  - intros w T index_str Hl Hres.
    assert (E : exists line, remove_task index_str w
                             = Return false (log (Printed line) w)).
    { unfold remove_task, bind. rewrite Hl, todos_bool.
      destruct T as [|t T]; [eexists; reflexivity|].
      unfold lift. rewrite Hres. eexists. reflexivity. }
    destruct E as [line E]. eexists. split; [exact E|]. split; [reflexivity|].
    split; [exists [line]; reflexivity|].
    apply (load_todos_frame w); [reflexivity..|exact Hl].
  - intros t1 t2. reflexivity.
Qed.

(** ** No access out of range *)

Lemma bind_never {A B} (e : exn) (c : M A) (k : A -> M B) (w : world) :
  c w <> Raise e ->
  (forall a w', c w = Return a w' -> k a w' <> Raise e) ->
  bind c k w <> Raise e.
Proof.
  intros Hc Hk. unfold bind. destruct (c w) as [a w'|e'|code w'].
  - apply Hk. reflexivity.
  - intros [= ->]. apply Hc. reflexivity.
  - discriminate.
Qed.

Lemma lift_never {A B} (e : exn) (r : result A) (k : A -> M B) (w : world) :
  r <> Err e ->
  (forall a, r = Ok a -> k a w <> Raise e) ->
  bind (lift r) k w <> Raise e.
Proof.
  intros Hr Hk. unfold bind, lift. destruct r as [a|e'].
  - apply Hk. reflexivity.
  - congruence.
Qed.

Lemma print_never {B} (e : exn) (line : text) (k : unit -> M B) (w : world) :
  k tt (log (Printed line) w) <> Raise e ->
  bind (print line) k w <> Raise e.
Proof. intros H. exact H. Qed.

Lemma getitem_str_in_range (v : value) (k : str) :
  getitem_str v k <> Err IndexError.
Proof. destruct v; cbn; try discriminate. destruct (dict_get d k); discriminate. Qed.

Lemma load_todos_in_range (w : world) : load_todos w <> Raise IndexError.
Proof.
  unfold load_todos. destruct (file w); [|discriminate].
  destruct (readable w); [|discriminate].
  destruct (utf8_decode l); [|discriminate].
  destruct (json_loads (translate_newlines s)) eqn:E; try discriminate.
  intros [= ->]. destruct (json_loads_raises_kind _ _ E); discriminate.
Qed.

Lemma save_todos_in_range (v : value) (w : world) :
  save_todos v w <> Raise IndexError.
Proof.
  unfold save_todos. destruct (writable w); [|discriminate].
  destruct (utf8_encode (json_dumps v)); discriminate.
Qed.

Lemma resolved_in_range (todos : value) (s : str) (i : Z) :
  get_valid_task_index todos s = Ok (Some i) ->
  exists n, py_len todos = Ok n /\ 1 <= i <= n.
Proof.
  unfold get_valid_task_index, validate_task_index.
  destruct (py_int s) as [j|]; [|discriminate].
  destruct (Z.leb_spec 1 j); [|discriminate].
  destruct (py_len todos) as [n|e]; [|discriminate]. cbn [rbind].
  destruct (Z.leb_spec j n); [|discriminate].
  intros [= <-]. exists n. split; [reflexivity|lia].
Qed.

Lemma get_valid_task_index_in_range (todos : value) (s : str) :
  get_valid_task_index todos s <> Err IndexError.
Proof.
  unfold get_valid_task_index, validate_task_index.
  destruct (py_int s) as [j|]; [|discriminate].
  destruct (1 <=? j); [|discriminate].
  destruct todos; cbn; try discriminate;
    match goal with |- context [if ?b then _ else _] => destruct b end;
    discriminate.
Qed.

Lemma list_item_in_range {A} (l : list A) (i : Z) :
  1 <= i <= Z.of_nat (length l) ->
  index_ok (i - 1) (length l) = true
  /\ norm_index (i - 1) (length l) = i - 1
  /\ exists x, l !! Z.to_nat (i - 1) = Some x.
Proof.
  intros H. unfold index_ok, norm_index.
  destruct (Z.ltb_spec (i - 1) 0); [lia|].
  destruct (Z.leb_spec 0 (i - 1)); [|lia].
  destruct (Z.ltb_spec (i - 1) (Z.of_nat (length l))); [|lia].
  repeat split. apply lookup_lt_is_Some_2. lia.
Qed.

Lemma getitem_int_in_range (todos : value) (s : str) (i : Z) :
  get_valid_task_index todos s = Ok (Some i) ->
  getitem_int todos (i - 1) <> Err IndexError.
Proof.
  intros H. destruct (resolved_in_range _ _ _ H) as (n & Hn & Hi).
  destruct todos; cbn [py_len] in Hn; try discriminate Hn;
    injection Hn as <-; cbn [getitem_int].
  - unfold str in *.
    destruct (list_item_in_range s0 i Hi) as (-> & -> & x & ->). discriminate.
  - destruct (list_item_in_range l i Hi) as (-> & -> & x & ->). discriminate.
  - discriminate.
Qed.

Lemma py_pop_in_range (todos : value) (s : str) (i : Z) :
  get_valid_task_index todos s = Ok (Some i) ->
  py_pop todos (i - 1) <> Err IndexError.
Proof.
  intros H. destruct (resolved_in_range _ _ _ H) as (n & Hn & Hi).
  destruct todos; cbn [py_len] in Hn; try discriminate Hn;
    injection Hn as <-; cbn [py_pop]; try discriminate.
  destruct (list_item_in_range l i Hi) as (-> & -> & x & ->). discriminate.
Qed.

Lemma setitem_item_in_range (todos : value) (s : str) (i : Z) (k : str)
    (x : value) :
  get_valid_task_index todos s = Ok (Some i) ->
  setitem_item todos (i - 1) k x <> Err IndexError.
Proof.
  intros H. unfold setitem_item.
  pose proof (getitem_int_in_range _ _ _ H) as G.
  destruct (getitem_int todos (i - 1)) as [item|e]; cbn [rbind]; [|congruence].
  destruct item; cbn; try discriminate. destruct todos; discriminate.
Qed.

Lemma complete_task_in_range (s : str) (w : world) :
  complete_task s w <> Raise IndexError.
Proof.
  unfold complete_task.
  apply bind_never; [apply load_todos_in_range|]. intros todos w' _.
  destruct (py_bool todos); [|discriminate].
  apply lift_never; [apply get_valid_task_index_in_range|].
  intros [i|] Hres; [|discriminate].
  apply lift_never; [exact (getitem_int_in_range _ _ _ Hres)|]. intros todo _.
  apply lift_never; [apply getitem_str_in_range|]. intros c _.
  destruct (py_bool c); [discriminate|].
  apply lift_never; [exact (setitem_item_in_range _ _ _ _ _ Hres)|].
  intros updated _.
  apply bind_never; [apply save_todos_in_range|]. intros [] w'' _.
  apply lift_never; [apply getitem_str_in_range|]. intros task _.
  discriminate.
Qed.

Lemma remove_task_in_range (s : str) (w : world) :
  remove_task s w <> Raise IndexError.
Proof.
  unfold remove_task.
  apply bind_never; [apply load_todos_in_range|]. intros todos w' _.
  destruct (py_bool todos); [|discriminate].
  apply lift_never; [apply get_valid_task_index_in_range|].
  intros [i|] Hres; [|discriminate].
  apply lift_never; [exact (py_pop_in_range _ _ _ Hres)|]. intros popped _.
  apply bind_never; [apply save_todos_in_range|]. intros [] w'' _.
  apply lift_never; [apply getitem_str_in_range|]. intros task _.
  discriminate.
Qed.

(** C10: an index that get_valid_task_index returns for a list lies in
    1..len(list), so the item [todos[i - 1]] exists, reading it and popping
    it succeed; and whatever the file holds and whatever index string is
    given, complete_task and remove_task never end in an IndexError. *)
Theorem resolved_index_in_bounds :
  (forall (l : list value) (s : str) (i : Z),
     get_valid_task_index (VList l) s = Ok (Some i) ->
     1 <= i <= Z.of_nat (length l)
     /\ exists x,
          l !! Z.to_nat (i - 1) = Some x
          /\ getitem_int (VList l) (i - 1) = Ok x
          /\ py_pop (VList l) (i - 1)
             = Ok (x, VList (delete (Z.to_nat (i - 1)) l)))
  /\ (forall (w : world) (s : str),
        complete_task s w <> Raise IndexError
        /\ remove_task s w <> Raise IndexError).
Proof.
  split.
  - intros l s i H. destruct (resolved_in_range _ _ _ H) as (n & Hn & Hi).
    injection Hn as <-. split; [exact Hi|].
    destruct (list_item_in_range l i Hi) as (Hok & Hnorm & x & Hx).
    exists x. cbn [getitem_int py_pop]. rewrite Hok, Hnorm, Hx. auto.
  - intros w s. split;
      [apply complete_task_in_range|apply remove_task_in_range].
Qed.

(** ** Listing *)

Lemma log_all_app (es es' : list event) (w : world) :
  log_all (es ++ es') w = log_all es' (log_all es w).
Proof. unfold log_all. apply fold_left_app. Qed.

Lemma log_all_events (es : list event) (w : world) :
  events (log_all es w) = events w ++ es.
Proof.
  revert w. induction es as [|e es IH]; intros w; cbn [log_all fold_left].
  - rewrite app_nil_r. reflexivity.
  - change (fold_left (fun w' e0 => log e0 w') es (log e w))
      with (log_all es (log e w)).
    rewrite IH. cbn [log events]. rewrite <- app_assoc. reflexivity.
Qed.

Lemma log_all_file (es : list event) (w : world) :
  file (log_all es w) = file w.
Proof.
  revert w. induction es as [|e es IH]; intros w; [reflexivity|].
  cbn [log_all fold_left].
  change (fold_left (fun w' e0 => log e0 w') es (log e w))
    with (log_all es (log e w)).
  rewrite IH. reflexivity.
Qed.

Lemma format_task (t : Task) (index : Z) :
  format_todo_item (task_value t) index = Ok (item_line t index).
Proof.
  unfold format_todo_item. rewrite !task_completed, task_text, task_created.
  cbn [rbind py_bool show]. unfold item_line.
  destruct (completed t); reflexivity.
Qed.

Lemma print_items_tasks (P : list Task) (start : Z) (w : world) :
  print_items (map task_value P) start w
  = Return tt
      (log_all (map Printed
                  (map (fun it => chars (lit "  ") ++ item_line (snd it) (fst it))
                     (numbered start P))) w).
Proof.
  revert start w. induction P as [|t P IH]; intros start w; [reflexivity|].
  cbn [map print_items numbered]. unfold bind at 1, lift.
  rewrite format_task. unfold bind at 1, print. rewrite IH. reflexivity.
Qed.

Lemma numbered_lookup (start : Z) (P : list Task) (k : nat) (t : Task) :
  P !! k = Some t -> numbered start P !! k = Some (start + Z.of_nat k, t).
Proof.
  revert start k. induction P as [|u P IH]; intros start [|k] H;
    try discriminate.
  - injection H as <-. cbn. do 2 f_equal. lia.
  - cbn [numbered].
    change (((start, u) :: numbered (start + 1) P) !! S k)
      with (numbered (start + 1) P !! k).
    rewrite (IH (start + 1) k H). do 2 f_equal. lia.
Qed.

Lemma filter_completed (T : list Task) :
  List.filter (fun t => Bool.eqb (completed t) true) T
  = List.filter completed T.
Proof.
  apply List.filter_ext. intros t. destruct (completed t); reflexivity.
Qed.

Lemma filter_partition_length (T : list Task) :
  length T
  = (length (List.filter completed T)
     + length (List.filter (fun t => negb (completed t)) T))%nat.
Proof.
  induction T as [|t T IH]; [reflexivity|]. cbn [List.filter length].
  destruct (completed t); cbn [negb length]; lia.
Qed.

Lemma group_lines_run (heading : text) (start : Z) (P : list Task) (w : world) :
  match map task_value P with
  | [] => ret tt
  | _ :: _ =>
      bind (print heading) (fun _ => print_items (map task_value P) start)
  end w
  = Return tt (log_all (map Printed (group_lines heading start P)) w).
Proof.
  destruct P as [|t P]; [reflexivity|].
  cbn [map]. unfold bind, print.
  change (task_value t :: map task_value P) with (map task_value (t :: P)).
  rewrite print_items_tasks. reflexivity.
Qed.

Lemma bind_step {A B} (c : M A) (k : A -> M B) (w w' : world) (a : A)
    (r : outcome B) :
  c w = Return a w' -> k a w' = r -> bind c k w = r.
Proof. intros Hc Hk. unfold bind. rewrite Hc. exact Hk. Qed.

Lemma print_header_lines (w : world) :
  print_header (lit "Your Todo List") w
  = Return tt (log_all (map Printed title_lines) w).
Proof. reflexivity. Qed.

Lemma summary_line_counts (total completed pending : nat) :
  summary_line (Z.of_nat total) (Z.of_nat completed) (Z.of_nat pending)
  = counts_line total completed pending.
Proof. reflexivity. Qed.

(** C9: for a stored list of tasks that is not empty, the listing prints
    the title, then the pending tasks in storage order numbered 1, 2, ...,
    then the completed tasks in storage order numbered on from
    len(pending) + 1, then the summary line, which reads "Summary:" followed
    by the numerals of len(list), len(completed) and len(pending) with the
    words total, completed and pending; these counts are the sizes of the
    list and of the two groups, and the two groups together make up the
    list. *)
Theorem list_tasks_output (w : world) (T : list Task) :
  load_todos w = Return (todos_value T) w -> T <> [] ->
  let pending := List.filter (fun t => negb (completed t)) T in
  let done := List.filter completed T in
  list_tasks w
  = Return tt
      (log_all
         (map Printed
            (title_lines
             ++ group_lines pending_heading 1 pending
             ++ group_lines completed_heading (Z.of_nat (length pending) + 1) done
             ++ [counts_line (length T) (length done) (length pending)]))
         w)
  /\ (forall k t, pending !! k = Some t ->
        numbered 1 pending !! k = Some (1 + Z.of_nat k, t))
  /\ (forall k t, done !! k = Some t ->
        numbered (Z.of_nat (length pending) + 1) done !! k
        = Some (Z.of_nat (length pending) + 1 + Z.of_nat k, t))
  /\ (forall t index,
        format_todo_item (task_value t) index = Ok (item_line t index))
  /\ length T = (length done + length pending)%nat.
Proof.
  intros Hl Hne pending done.
  split; [|split; [|split; [|split]]].
  - rewrite <- summary_line_counts.
    unfold list_tasks. eapply bind_step; [exact Hl|].
    rewrite todos_bool. destruct T as [|t0 T0]; [congruence|].
    eapply bind_step; [apply print_header_lines|].
    eapply bind_step; [reflexivity|].
    eapply bind_step;
      [unfold lift; rewrite select_tasks, filter_pending; reflexivity|].
    eapply bind_step; [reflexivity|].
    eapply bind_step;
      [unfold lift; rewrite select_tasks, filter_completed; reflexivity|].
    eapply bind_step; [apply (group_lines_run pending_heading 1)|].
    eapply bind_step; [apply (group_lines_run completed_heading)|].
    eapply bind_step; [reflexivity|].
    unfold print. rewrite !length_map, !map_app, !log_all_app. reflexivity.
  - intros k t. apply numbered_lookup.
  - intros k t. apply numbered_lookup.
  - apply format_task.
  - subst pending done. apply filter_partition_length.
Qed.

(** ** Loading whatever the file holds *)




(** * Further properties of the program *)

(** ** What [strip] leaves *)

Lemma lstrip_idempotent (s : str) : lstrip (lstrip s) = lstrip s.
Proof.
  induction s as [|c r IH]; [reflexivity|]. cbn [lstrip].
  destruct (isspace c) eqn:E; [exact IH|]. cbn [lstrip]. rewrite E.
  reflexivity.
Qed.

Lemma lstrip_snoc (s : str) (c : Z) :
  isspace c = false -> lstrip (s ++ [c]) = lstrip s ++ [c].
Proof.
  intros E. induction s as [|a s IH]; cbn [app lstrip].
  - rewrite E. reflexivity.
  - destruct (isspace a); [exact IH|reflexivity].
Qed.

Lemma rstrip_cons (c : Z) (s : str) :
  isspace c = false -> rstrip (c :: s) = c :: rstrip s.
Proof.
  intros E. unfold rstrip. cbn [rev].
  rewrite (lstrip_snoc _ _ E), rev_app_distr. reflexivity.
Qed.

Lemma lstrip_head (s : str) (c : Z) (r : str) :
  lstrip s = c :: r -> isspace c = false.
Proof.
  induction s as [|a s IH]; [discriminate|]. cbn [lstrip].
  destruct (isspace a) eqn:E; [exact IH|]. intros [= <- _]. exact E.
Qed.

Lemma strip_idempotent (s : str) : strip (strip s) = strip s.
Proof.
  unfold strip. destruct (lstrip s) as [|c r] eqn:E; [reflexivity|].
  pose proof (lstrip_head s c r E) as Hc.
  rewrite (rstrip_cons c r Hc). cbn [lstrip]. rewrite Hc.
  rewrite (rstrip_cons c _ Hc). f_equal.
  unfold rstrip. rewrite rev_involutive, lstrip_idempotent. reflexivity.
Qed.

Lemma forallb_lstrip (P : Z -> bool) (s : str) :
  forallb P s = true -> forallb P (lstrip s) = true.
Proof.
  induction s as [|c r IH]; [reflexivity|]. cbn [lstrip].
  destruct (isspace c); [|exact (fun H => H)]. cbn [forallb]. intros H.
  apply andb_true_iff in H. apply IH, H.
Qed.

Lemma forallb_strip (P : Z -> bool) (s : str) :
  forallb P s = true -> forallb P (strip s) = true.
Proof.
  intros H. unfold strip, rstrip. rewrite forallb_rev.
  apply forallb_lstrip. rewrite forallb_rev. apply forallb_lstrip, H.
Qed.

(** A stripped text starts and ends with a character that is no space. *)
Lemma strip_ends (s : str) :
  match strip s with
  | [] => True
  | c :: r => isspace c = false /\ isspace (List.last (c :: r) c) = false
  end.
Proof.
  unfold strip. destruct (lstrip s) as [|c r] eqn:E; [exact I|].
  pose proof (lstrip_head s c r E) as Hc.
  rewrite (rstrip_cons c r Hc). split; [exact Hc|].
  unfold rstrip.
  destruct (lstrip (rev r)) as [|d u] eqn:Er; [exact Hc|].
  pose proof (lstrip_head _ d u Er) as Hd.
  cbn [rev]. change (c :: rev u ++ [d]) with ((c :: rev u) ++ [d]).
  rewrite List.last_last. exact Hd.
Qed.


(** ** What the commands do to a stored list *)

Lemma events_saved_printed (w : world) (bytes : list Z) (v : value)
    (line : text) :
  events (log (Printed line) (log (Saved v) (write_file bytes w)))
  = events w ++ [Saved v; Printed line].
Proof. cbn [log events write_file]. rewrite <- app_assoc. reflexivity. Qed.

Lemma todos_append (T : list Task) (t : Task) :
  py_append (todos_value T) (task_value t) = Ok (todos_value (T ++ [t])).
Proof. unfold todos_value, py_append. rewrite map_app. reflexivity. Qed.

Lemma well_formed_new_todo (text : str) (w : world) :
  forallb scalar text = true -> forallb scalar (clock w) = true ->
  well_formed (new_todo text w).
Proof. intros Ht Hc. split; [apply forallb_strip, Ht|exact Hc]. Qed.

Lemma add_task_run (w : world) (T : list Task) (text : str) :
  load_todos w = Return (todos_value T) w -> writable w = true ->
  Forall well_formed T -> validate_task_text (Some text) = true ->
  forallb scalar text = true -> forallb scalar (clock w) = true ->
  exists bytes,
    utf8_encode (json_dumps (todos_value (T ++ [new_todo text w]))) = Some bytes
    /\ add_task text w
       = Return true
           (log (Printed (success_line (chars (lit "Task added: ") ++ chars text)))
              (log (Saved (todos_value (T ++ [new_todo text w])))
                 (write_file bytes w))).
Proof.
  intros Hl Hw Hwf Hv Ht Hc.
  assert (Hwf' : Forall well_formed (T ++ [new_todo text w])).
  { apply Forall_app. split; [exact Hwf|].
    constructor; [apply well_formed_new_todo; assumption|constructor]. }
  destruct (save_tasks _ w Hwf' Hw) as (bytes & E & Hsave).
  exists bytes. split; [exact E|].
  unfold add_task. rewrite Hv.
  eapply bind_step; [exact Hl|].
  eapply bind_step with (a := task_value (new_todo text w)); [reflexivity|].
  eapply bind_step;
    [unfold lift; rewrite (todos_append T (new_todo text w)); reflexivity|].
  eapply bind_step; [exact Hsave|]. reflexivity.
Qed.

Lemma remove_task_run (w : world) (T : list Task) (s : str) (i : Z) (t : Task) :
  load_todos w = Return (todos_value T) w -> writable w = true ->
  Forall well_formed T ->
  py_int s = Some i -> position T i = Some t ->
  exists bytes,
    utf8_encode (json_dumps (todos_value (delete (Z.to_nat (i - 1)) T)))
    = Some bytes
    /\ remove_task s w
       = Return true
           (log (Printed (success_line
                            (chars (lit "Task ") ++ chars (str_of_int i)
                             ++ chars (lit " removed: ") ++ chars (task t))))
              (log (Saved (todos_value (delete (Z.to_nat (i - 1)) T)))
                 (write_file bytes w))).
Proof.
  intros Hl Hw Hwf Hs Hp.
  pose proof (resolve_position T _ _ _ Hs Hp) as Hres.
  destruct (position_lookup _ _ _ Hp) as [Hi Ht].
  assert (Hwf' : Forall well_formed (delete (Z.to_nat (i - 1)) T))
    by apply Forall_delete, Hwf.
  destruct (save_tasks _ w Hwf' Hw) as (bytes & E & Hsave).
  exists bytes. split; [exact E|].
  unfold remove_task. eapply bind_step; [exact Hl|].
  rewrite todos_bool. destruct T as [|t0 T0]; [discriminate Ht|].
  eapply bind_step; [unfold lift; rewrite Hres; reflexivity|].
  eapply bind_step;
    [unfold lift; rewrite (todos_pop _ i t) by (lia || exact Ht); reflexivity|].
  eapply bind_step; [exact Hsave|]. reflexivity.
Qed.

Lemma complete_task_run (w : world) (T : list Task) (s : str) (i : Z)
    (t : Task) :
  load_todos w = Return (todos_value T) w -> writable w = true ->
  Forall well_formed T ->
  py_int s = Some i -> position T i = Some t -> completed t = false ->
  exists bytes,
    utf8_encode (json_dumps (todos_value
                               (<[Z.to_nat (i - 1) := mark_completed t]> T)))
    = Some bytes
    /\ complete_task s w
       = Return true
           (log (Printed (success_line
                            (chars (lit "Task ") ++ chars (str_of_int i)
                             ++ chars (lit " marked as complete: ")
                             ++ chars (task t))))
              (log (Saved (todos_value
                             (<[Z.to_nat (i - 1) := mark_completed t]> T)))
                 (write_file bytes w))).
Proof.
  intros Hl Hw Hwf Hs Hp Hc.
  pose proof (resolve_position T _ _ _ Hs Hp) as Hres.
  destruct (position_lookup _ _ _ Hp) as [Hi Ht].
  assert (Hwf' : Forall well_formed (<[Z.to_nat (i - 1) := mark_completed t]> T)).
  { apply Forall_insert; [exact Hwf|].
    apply well_formed_mark. rewrite Forall_lookup in Hwf. exact (Hwf _ t Ht). }
  destruct (save_tasks _ w Hwf' Hw) as (bytes & E & Hsave).
  exists bytes. split; [exact E|].
  unfold complete_task. eapply bind_step; [exact Hl|].
  rewrite todos_bool. destruct T as [|t0 T0]; [discriminate Ht|].
  eapply bind_step; [unfold lift; rewrite Hres; reflexivity|].
  eapply bind_step;
    [unfold lift; rewrite (todos_getitem _ i t) by (lia || exact Ht);
     reflexivity|].
  eapply bind_step; [unfold lift; rewrite task_completed; reflexivity|].
  rewrite Hc. cbn [py_bool].
  eapply bind_step;
    [unfold lift; rewrite (todos_set_completed _ i t) by (lia || exact Ht);
     reflexivity|].
  eapply bind_step; [exact Hsave|]. reflexivity.
Qed.

Lemma complete_task_declined (w : world) (T : list Task) (s : str) :
  load_todos w = Return (todos_value T) w ->
  get_valid_task_index (todos_value T) s = Ok None
  \/ (exists i t, py_int s = Some i /\ position T i = Some t
                  /\ completed t = true) ->
  exists line, complete_task s w = Return false (log (Printed line) w).
Proof.
  intros Hl [Hres|(i & t & Hs & Hp & Hc)].
  - unfold complete_task, bind. rewrite Hl, todos_bool.
    destruct T as [|t T]; [eexists; reflexivity|].
    unfold lift. rewrite Hres. eexists. reflexivity.
  - pose proof (resolve_position T _ _ _ Hs Hp) as Hres.
    destruct (position_lookup _ _ _ Hp) as [Hi Ht].
    unfold complete_task, bind. rewrite Hl, todos_bool.
    destruct T as [|t0 T0]; [discriminate Ht|].
    unfold lift. rewrite Hres.
    rewrite (todos_getitem _ i t) by (lia || exact Ht).
    rewrite task_completed, Hc. eexists. reflexivity.
Qed.

Lemma clear_completed_run (w : world) (T : list Task) :
  load_todos w = Return (todos_value T) w -> writable w = true ->
  Forall well_formed T -> existsb completed T = true ->
  exists bytes,
    utf8_encode (json_dumps
                   (todos_value (List.filter (fun t => negb (completed t)) T)))
    = Some bytes
    /\ clear_completed w
       = Return true
           (log (Printed (success_line
                            (chars (lit "Cleared ")
                             ++ chars (str_of_int
                                         (Z.of_nat (length (List.filter completed T))))
                             ++ chars (lit " completed task(s)"))))
              (log (Saved (todos_value
                             (List.filter (fun t => negb (completed t)) T)))
                 (write_file bytes w))).
Proof.
  intros Hl Hw Hwf Hc.
  assert (Hwf' : Forall well_formed (List.filter (fun t => negb (completed t)) T))
    by apply well_formed_filter, Hwf.
  destruct (save_tasks _ w Hwf' Hw) as (bytes & E & Hsave).
  exists bytes. split; [exact E|].
  assert (Hz : (Z.of_nat (length (List.filter completed T)) =? 0) = false).
  { pose proof (some_completed_filter T Hc) as Hn.
    destruct (List.filter completed T); [congruence|].
    cbn [length]. apply Z.eqb_neq. lia. }
  unfold clear_completed. eapply bind_step; [exact Hl|].
  eapply bind_step; [reflexivity|].
  eapply bind_step; [unfold lift; rewrite count_completed_tasks; reflexivity|].
  rewrite Hz.
  eapply bind_step; [reflexivity|].
  eapply bind_step;
    [unfold lift; rewrite select_tasks, filter_pending; reflexivity|].
  eapply bind_step; [exact Hsave|]. reflexivity.
Qed.

Lemma clear_completed_declined (w : world) (T : list Task) :
  load_todos w = Return (todos_value T) w -> existsb completed T = false ->
  exists line, clear_completed w = Return false (log (Printed line) w).
Proof.
  intros Hl Hc. eexists. unfold clear_completed, bind. rewrite Hl.
  unfold lift, todos_value. cbn [py_iter]. rewrite count_completed_tasks.
  rewrite (no_completed_filter T Hc). reflexivity.
Qed.

Lemma holds_frame (w w' : world) (T : list Task) :
  file w' = file w -> readable w' = readable w -> writable w' = writable w ->
  holds w T -> holds w' T.
Proof.
  intros Hf Hr Hw (R & W & L). repeat split; [congruence|congruence|].
  apply (load_todos_frame w); assumption.
Qed.

(** X1: on a stored list of well-formed tasks, adding a Unicode text (one
    without surrogate code points) that holds a character other than
    whitespace answers true; the list stored afterwards
    is the old list followed by one new task, which is not completed, is
    dated by the clock and holds the stripped text; that text is not empty,
    has no whitespace at either end and passes validation again; the command
    saves once and then prints once. *)
Theorem add_task_appends (w : world) (T : list Task) (text : str) :
  holds w T -> Forall well_formed T ->
  validate_task_text (Some text) = true ->
  forallb scalar text = true -> forallb scalar (clock w) = true ->
  exists w',
    add_task text w = Return true w'
    /\ holds w' (T ++ [new_todo text w])
    /\ events w'
       = events w
         ++ [ Saved (todos_value (T ++ [new_todo text w]));
              Printed (success_line (chars (lit "Task added: ") ++ chars text)) ]
    /\ task (new_todo text w) <> []
    /\ strip (task (new_todo text w)) = task (new_todo text w)
    /\ validate_task_text (Some (task (new_todo text w))) = true
    /\ completed (new_todo text w) = false
    /\ created (new_todo text w) = clock w.
Proof.
  intros (Hr & Hw & Hl) Hwf Hv Ht Hc.
  destruct (add_task_run w T text Hl Hw Hwf Hv Ht Hc) as (bytes & E & Hrun).
  assert (Hwf' : Forall well_formed (T ++ [new_todo text w])).
  { apply Forall_app. split; [exact Hwf|].
    constructor; [apply well_formed_new_todo; assumption|constructor]. }
  assert (Hne : strip text <> []).
  { cbn [validate_task_text] in Hv. destruct (str_bool text); [|discriminate].
    intros N. rewrite N in Hv. discriminate. }
  eexists. split; [exact Hrun|]. split; [|split; [|split; [|split; [|split]]]].
  - apply (holds_after_save _ bytes); auto.
  - apply events_saved_printed.
  - exact Hne.
  - apply strip_idempotent.
  - cbn [new_todo task validate_task_text]. rewrite strip_idempotent.
    destruct (strip text); [congruence|reflexivity].
  - split; reflexivity.
Qed.

Lemma resolve_cases (T : list Task) (s : str) :
  get_valid_task_index (todos_value T) s = Ok None
  \/ exists i t, py_int s = Some i /\ position T i = Some t.
Proof.
  rewrite todos_resolve. destruct (py_int s) as [i|]; [|left; reflexivity].
  destruct (Z.leb_spec 1 i) as [H1|H1]; [|left; reflexivity].
  destruct (Z.leb_spec i (Z.of_nat (length T))) as [H2|H2];
    [|left; reflexivity].
  right. destruct (lookup_lt_is_Some_2 T (Z.to_nat (i - 1))) as [t Ht]; [lia|].
  exists i, t. split; [reflexivity|]. unfold position.
  destruct (Z.leb_spec 1 i); [exact Ht|lia].
Qed.

Lemma resolve_none_position (T : list Task) (s : str) (i : Z) (t : Task) :
  get_valid_task_index (todos_value T) s = Ok None ->
  py_int s = Some i -> position T i = Some t -> False.
Proof.
  intros Hn Hs Hp. rewrite (resolve_position T s i t Hs Hp) in Hn.
  discriminate.
Qed.

(** X2: on a stored list of well-formed tasks, complete_task answers true
    exactly when the index string resolves to a task that is not completed
    yet, and then stores the list with that task completed; in every other
    case (no integer, out of range, empty list, task already completed) it
    answers false, saves nothing and leaves the file and the list as they
    are. *)
Theorem complete_task_outcome (w : world) (T : list Task) (index_str : str) :
  holds w T -> Forall well_formed T ->
  (exists i t,
     py_int index_str = Some i /\ position T i = Some t /\ completed t = false
     /\ exists w',
          complete_task index_str w = Return true w'
          /\ holds w' (<[Z.to_nat (i - 1) := mark_completed t]> T))
  \/ ((forall i t, py_int index_str = Some i -> position T i = Some t ->
         completed t = true)
      /\ exists w',
           complete_task index_str w = Return false w'
           /\ file w' = file w /\ no_save w w' /\ holds w' T).
Proof.
  intros (Hr & Hw & Hl) Hwf.
  assert (D : forall line, let w' := log (Printed line) w in
              file w' = file w /\ no_save w w' /\ holds w' T).
  { intros line w'. split; [reflexivity|]. split; [exists [line]; reflexivity|].
    apply (holds_frame w); [reflexivity..|]. repeat split; assumption. }
  destruct (resolve_cases T index_str) as [Hn|(i & t & Hs & Hp)].
  - right. split.
    + intros i t Hs Hp. destruct (resolve_none_position _ _ _ _ Hn Hs Hp).
    + destruct (complete_task_declined w T index_str Hl (or_introl Hn))
        as [line E].
      eexists. split; [exact E|]. apply D.
  - destruct (completed t) eqn:Hc.
    + right. split.
      * intros i' t' Hs' Hp'. rewrite Hs in Hs'. injection Hs' as <-.
        rewrite Hp in Hp'. injection Hp' as <-. exact Hc.
      * destruct (complete_task_declined w T index_str Hl
                    (or_intror (ex_intro _ i (ex_intro _ t (conj Hs (conj Hp Hc))))))
          as [line E].
        eexists. split; [exact E|]. apply D.
    + left. exists i, t. repeat (split; [assumption|]).
      destruct (complete_task_run w T index_str i t Hl Hw Hwf Hs Hp Hc)
        as (bytes & E & Hrun).
      eexists. split; [exact Hrun|].
      apply (holds_after_save _ bytes); auto.
      apply Forall_insert; [exact Hwf|].
      apply well_formed_mark. rewrite Forall_lookup in Hwf.
      destruct (position_lookup _ _ _ Hp) as [_ Ht]. exact (Hwf _ t Ht).
Qed.

(** X3: when the file cannot be opened for writing, every command that has
    something to save prints the line of the save error (the cross, "Error
    saving todos:" and the text of the error), prints and saves nothing
    else, and ends the program with exit status 1; the file is left as it
    was.  This holds for adding a valid text, completing a pending task,
    removing a task that exists, and clearing when a task is completed. *)
Theorem unwritable_store_exits (w : world) (T : list Task) :
  load_todos w = Return (todos_value T) w -> writable w = false ->
  (forall text, validate_task_text (Some text) = true ->
     exits_unsaved (add_task text) w)
  /\ (forall s i t, py_int s = Some i -> position T i = Some t ->
        completed t = false -> exits_unsaved (complete_task s) w)
  /\ (forall s i t, py_int s = Some i -> position T i = Some t ->
        exits_unsaved (remove_task s) w)
  /\ (existsb completed T = true -> exits_unsaved clear_completed w).
Proof.
  intros Hl Hw.
  assert (Hexit : forall v,
            save_todos v w = Exit 1 (log (Printed save_error_line) w)).
  { intros v. unfold save_todos. rewrite Hw. reflexivity. }
  assert (D : events (log (Printed save_error_line) w)
              = events w ++ [Printed save_error_line]
              /\ file (log (Printed save_error_line) w) = file w
              /\ no_save w (log (Printed save_error_line) w)).
  { split; [reflexivity|]. split; [reflexivity|].
    exists [save_error_line]. reflexivity. }
  split; [|split; [|split]].
  - intros text Hv.
    pose proof (Hexit (todos_value (T ++ [new_todo text w]))) as E.
    exists (log (Printed save_error_line) w). split; [|exact D].
    unfold add_task. rewrite Hv. eapply bind_step; [exact Hl|].
    eapply bind_step with (a := task_value (new_todo text w)); [reflexivity|].
    eapply bind_step;
      [unfold lift; rewrite (todos_append T (new_todo text w)); reflexivity|].
    unfold bind. rewrite E. reflexivity.
  - intros s i t Hs Hp Hc.
    pose proof (resolve_position T _ _ _ Hs Hp) as Hres.
    destruct (position_lookup _ _ _ Hp) as [Hi Ht].
    pose proof (Hexit (todos_value (<[Z.to_nat (i - 1) := mark_completed t]> T)))
      as E.
    exists (log (Printed save_error_line) w). split; [|exact D].
    unfold complete_task. eapply bind_step; [exact Hl|].
    rewrite todos_bool. destruct T as [|t0 T0]; [discriminate Ht|].
    eapply bind_step; [unfold lift; rewrite Hres; reflexivity|].
    eapply bind_step;
      [unfold lift; rewrite (todos_getitem _ i t) by (lia || exact Ht);
       reflexivity|].
    eapply bind_step; [unfold lift; rewrite task_completed; reflexivity|].
    rewrite Hc. cbn [py_bool].
    eapply bind_step;
      [unfold lift; rewrite (todos_set_completed _ i t) by (lia || exact Ht);
       reflexivity|].
    unfold bind. cbn [fst]. rewrite E. reflexivity.
  - intros s i t Hs Hp.
    pose proof (resolve_position T _ _ _ Hs Hp) as Hres.
    destruct (position_lookup _ _ _ Hp) as [Hi Ht].
    pose proof (Hexit (todos_value (delete (Z.to_nat (i - 1)) T))) as E.
    exists (log (Printed save_error_line) w). split; [|exact D].
    unfold remove_task. eapply bind_step; [exact Hl|].
    rewrite todos_bool. destruct T as [|t0 T0]; [discriminate Ht|].
    eapply bind_step; [unfold lift; rewrite Hres; reflexivity|].
    eapply bind_step;
      [unfold lift; rewrite (todos_pop _ i t) by (lia || exact Ht);
       reflexivity|].
    unfold bind. cbn [snd]. rewrite E. reflexivity.
  - intros Hc.
    pose proof (Hexit (todos_value (List.filter (fun t => negb (completed t)) T)))
      as E.
    exists (log (Printed save_error_line) w). split; [|exact D].
    assert (Hz : (Z.of_nat (length (List.filter completed T)) =? 0) = false).
    { pose proof (some_completed_filter T Hc) as Hn.
      destruct (List.filter completed T); [congruence|].
      cbn [length]. apply Z.eqb_neq. lia. }
    unfold clear_completed. eapply bind_step; [exact Hl|].
    eapply bind_step; [reflexivity|].
    eapply bind_step; [unfold lift; rewrite count_completed_tasks; reflexivity|].
    rewrite Hz.
    eapply bind_step; [reflexivity|].
    eapply bind_step;
      [unfold lift; rewrite select_tasks, filter_pending; reflexivity|].
    unfold bind. fold (todos_value (List.filter (fun t => negb (completed t)) T)).
    rewrite E. reflexivity.
Qed.

Lemma load_todos_never_exits (w w' : world) (code : Z) :
  load_todos w <> Exit code w'.
Proof.
  unfold load_todos. destruct (file w); [|discriminate].
  destruct (readable w); [|discriminate].
  destruct (utf8_decode l); [|discriminate].
  destruct (json_loads (translate_newlines s)); discriminate.
Qed.

Lemma load_todos_cases (w : world) :
  (exists v, load_todos w = Return v w) \/ (exists e, load_todos w = Raise e).
Proof.
  destruct (load_todos w) as [v w'|e|code w'] eqn:E.
  - left. pose proof (load_todos_same_world _ _ _ E) as ->. eauto.
  - right. eauto.
  - destruct (load_todos_never_exits _ _ _ E).
Qed.


(** X5: clearing twice.  When some task is completed, the first clear
    answers true, saves the remaining tasks once and reports how many tasks
    it removed, which is the number by which the list got shorter; a second
    clear then answers false, saves nothing and leaves the list. *)
Theorem clear_completed_twice (w : world) (T : list Task) :
  holds w T -> Forall well_formed T -> existsb completed T = true ->
  exists (w1 w2 : world) (T' : list Task) (cleared : Z),
    clear_completed w = Return true w1
    /\ clear_completed w1 = Return false w2
    /\ T' = List.filter (fun t => negb (completed t)) T
    /\ holds w1 T' /\ holds w2 T'
    /\ file w2 = file w1 /\ no_save w1 w2
    /\ existsb completed T' = false
    /\ cleared = Z.of_nat (length T) - Z.of_nat (length T')
    /\ 0 < cleared
    /\ events w1
       = events w
         ++ [ Saved (todos_value T');
              Printed (success_line
                         (chars (lit "Cleared ") ++ chars (str_of_int cleared)
                          ++ chars (lit " completed task(s)"))) ].
Proof.
  intros (Hr & Hw & Hl) Hwf Hc.
  destruct (clear_completed_run w T Hl Hw Hwf Hc) as (bytes & E & Hrun).
  set (T' := List.filter (fun t => negb (completed t)) T) in *.
  assert (Hwf' : Forall well_formed T') by apply well_formed_filter, Hwf.
  assert (Hnone : existsb completed T' = false).
  { subst T'. clear. induction T as [|t T IH]; [reflexivity|].
    cbn [List.filter]. destruct (completed t) eqn:Ec; cbn [negb]; [exact IH|].
    cbn [existsb]. rewrite Ec, IH. reflexivity. }
  assert (Hlen : Z.of_nat (length (List.filter completed T))
                 = Z.of_nat (length T) - Z.of_nat (length T')).
  { pose proof (filter_partition_length T). subst T'. lia. }
  assert (Hpos : 0 < Z.of_nat (length (List.filter completed T))).
  { pose proof (some_completed_filter T Hc) as Hn.
    destruct (List.filter completed T); [congruence|cbn [length]; lia]. }
  match type of Hrun with _ = Return true ?x => set (w1 := x) in * end.
  assert (H1 : holds w1 T') by (apply (holds_after_save _ bytes); auto).
  destruct H1 as (Hr1 & Hw1 & Hl1).
  destruct (clear_completed_declined w1 T' Hl1 Hnone) as [line E2].
  exists w1, (log (Printed line) w1), T',
    (Z.of_nat (length (List.filter completed T))).
  split; [exact Hrun|]. split; [exact E2|]. split; [reflexivity|].
  split; [repeat split; assumption|].
  split; [apply (holds_frame w1); [reflexivity..|repeat split; assumption]|].
  split; [reflexivity|]. split; [exists [line]; reflexivity|].
  split; [exact Hnone|]. split; [exact Hlen|]. split; [exact Hpos|].
  apply events_saved_printed.
Qed.

(** ** What a command may do to the world *)

Lemma effects_ret {A} (P : event -> Prop) (a : A) (w : world) :
  effects_at P (ret a) w.
Proof.
  exists []. rewrite app_nil_r. repeat split; constructor.
Qed.

Lemma effects_bind {A B} (P : event -> Prop) (c : M A) (k : A -> M B)
    (w : world) :
  effects_at P c w ->
  (forall a w', c w = Return a w' -> effects_at P (k a) w') ->
  effects_at P (bind c k) w.
Proof.
  unfold effects_at, bind. intros Hc Hk.
  destruct (c w) as [a w1|e|code w1]; [|exact I|exact Hc].
  destruct Hc as (es1 & E1 & P1 & F1 & R1 & W1 & C1).
  specialize (Hk a w1 eq_refl).
  destruct (k a w1) as [b w2|e|code w2]; [|exact I|];
    destruct Hk as (es2 & E2 & P2 & F2 & R2 & W2 & C2);
    (exists (es1 ++ es2); split; [rewrite E2, E1, app_assoc; reflexivity|];
     split; [apply Forall_app; split; assumption|];
     split; [intros H; apply Forall_app in H; destruct H as [H1 H2];
             rewrite (F2 H2); exact (F1 H1)|];
     repeat split; congruence).
Qed.

Lemma effects_lift {A B} (P : event -> Prop) (r : result A) (k : A -> M B)
    (w : world) :
  (forall a, r = Ok a -> effects_at P (k a) w) ->
  effects_at P (bind (lift r) k) w.
Proof.
  intros Hk. unfold effects_at, bind, lift. destruct r as [a|e]; [|exact I].
  exact (Hk a eq_refl).
Qed.

Lemma effects_print {B} (P : event -> Prop) (line : text) (k : unit -> M B)
    (w : world) :
  P (Printed line) ->
  (forall w', effects_at P (k tt) w') ->
  effects_at P (bind (print line) k) w.
Proof.
  intros HP Hk. apply effects_bind.
  - exists [Printed line]. repeat split. constructor; [exact HP|constructor].
  - intros [] w' _. apply Hk.
Qed.

Lemma effects_print_last (P : event -> Prop) (line : text) (w : world) :
  P (Printed line) -> effects_at P (print line) w.
Proof.
  intros HP. exists [Printed line]. repeat split.
  constructor; [exact HP|constructor].
Qed.

Lemma effects_load {B} (P : event -> Prop) (k : value -> M B) (w : world) :
  (forall v, load_todos w = Return v w -> effects_at P (k v) w) ->
  effects_at P (bind load_todos k) w.
Proof.
  intros Hk. destruct (load_todos_cases w) as [[v R]|[e R]].
  - specialize (Hk v R). unfold effects_at, bind in *. rewrite R. exact Hk.
  - unfold effects_at, bind. rewrite R. exact I.
Qed.

Lemma effects_save {B} (P : event -> Prop) (v : value) (k : unit -> M B)
    (w : world) :
  P (Saved v) -> (forall line, P (Printed line)) ->
  (forall w', effects_at P (k tt) w') ->
  effects_at P (bind (save_todos v) k) w.
Proof.
  intros HS HP Hk. apply effects_bind.
  - unfold effects_at, save_todos. destruct (writable w) eqn:Hw.
    + destruct (utf8_encode (json_dumps v)) as [bytes|]; [|exact I].
      exists [Saved v]. split; [reflexivity|].
      split; [constructor; [exact HS|constructor]|].
      split; [intros H; inversion H as [|? ? F]; destruct F|].
      repeat split. exact Hw.
    + eexists [_]. split; [reflexivity|].
      split; [constructor; [apply HP|constructor]|]. repeat split. exact Hw.
  - intros [] w' _. apply Hk.
Qed.

Lemma effects_print_items (P : event -> Prop) (items : list value) (i : Z)
    (w : world) :
  (forall line, P (Printed line)) ->
  effects_at P (print_items items i) w.
Proof.
  intros HP. revert i w. induction items as [|todo r IH]; intros i w.
  - apply effects_ret.
  - cbn [print_items]. apply effects_lift. intros line _.
    apply effects_print; [apply HP|]. intros w'. apply IH.
Qed.

Lemma printed_lines (es : list event) :
  Forall is_print es -> exists lines, es = map Printed lines.
Proof.
  induction 1 as [|e es He _ (lines & ->)]; [exists []; reflexivity|].
  destruct e as [line|v]; [|destruct He]. exists (line :: lines). reflexivity.
Qed.

Lemma list_tasks_effects (w : world) : effects_at is_print list_tasks w.
Proof.
  assert (HP : forall line, is_print (Printed line)) by (intros; exact I).
  unfold list_tasks. apply effects_load. intros todos _.
  destruct (py_bool todos).
  - unfold print_header. apply effects_bind.
    { apply effects_print; [apply HP|]. intros w'. apply effects_print_last, HP. }
    intros [] w1 _.
    apply effects_lift. intros items _. apply effects_lift. intros pending _.
    apply effects_lift. intros items' _. apply effects_lift. intros done _.
    apply effects_bind.
    { destruct pending; [apply effects_ret|].
      apply effects_print; [apply HP|]. intros w'.
      apply effects_print_items, HP. }
    intros [] w2 _. apply effects_bind.
    { destruct done; [apply effects_ret|].
      apply effects_print; [apply HP|]. intros w'.
      apply effects_print_items, HP. }
    intros [] w3 _. apply effects_lift. intros total _.
    apply effects_print_last, HP.
  - unfold print_info. apply effects_print; [apply HP|]. intros w'.
    apply effects_print_last, HP.
Qed.

(** X6: listing never writes.  Whatever the file holds, when list_tasks
    returns the file is the one it started with and nothing was saved: only
    lines were printed, and loading gives what it gave before. *)
Theorem list_tasks_reads_only (w w' : world) :
  list_tasks w = Return tt w' ->
  file w' = file w /\ no_save w w'
  /\ forall v, load_todos w = Return v w -> load_todos w' = Return v w'.
Proof.
  intros E. pose proof (list_tasks_effects w) as H. unfold effects_at in H.
  rewrite E in H. destruct H as (es & Ee & Pe & Fe & Re & We & Ce).
  specialize (Fe Pe). destruct (printed_lines es Pe) as [lines ->].
  split; [exact Fe|]. split; [exists lines; exact Ee|].
  intros v Hl. apply (load_todos_frame w); assumption.
Qed.

Lemma effects_pure {A} (P : event -> Prop) (c : M A) (w : world) (a : A) :
  c w = Return a w -> effects_at P c w.
Proof.
  intros E. unfold effects_at. rewrite E. exists []. rewrite app_nil_r.
  repeat split; constructor.
Qed.

Lemma py_append_list (v x v' : value) :
  py_append v x = Ok v' -> exists l, v' = VList l.
Proof. destruct v; try discriminate. intros [= <-]. eauto. Qed.

Lemma py_pop_list (v : value) (i : Z) (popped : value * value) :
  py_pop v i = Ok popped -> exists l, snd popped = VList l.
Proof.
  destruct v; try discriminate. cbn [py_pop].
  destruct (l !! _); [|discriminate].
  destruct (index_ok i (length l)); [|discriminate].
  intros [= <-]. cbn [snd]. eauto.
Qed.

Lemma setitem_item_list (v : value) (i : Z) (k : str) (x : value)
    (updated : value * value) :
  setitem_item v i k x = Ok updated -> exists l, fst updated = VList l.
Proof.
  unfold setitem_item.
  destruct (getitem_int v i) as [item|e] eqn:G; [|discriminate].
  cbn [rbind]. destruct (setitem_str item k x) as [item'|e] eqn:S';
    [|discriminate].
  cbn [rbind]. destruct v; try discriminate G.
  - cbn [getitem_int] in G. unfold str in *.
    destruct (s !! _); [|discriminate G].
    destruct (index_ok i (length s)); [|discriminate G].
    injection G as <-. discriminate S'.
  - intros [= <-]. cbn [fst]. eauto.
Qed.

(** X7: the file is only ever overwritten with a list.  Whatever the file
    holds and whatever the arguments, when add_task, complete_task,
    remove_task or clear_completed returns or exits, everything it did was
    printing lines and saving lists (a foreign JSON document that is not a
    list is never written back in another shape); permissions and clock are
    untouched, and the file is as before unless a save happened. *)
Theorem commands_save_lists_only (text index_str : str) :
  effects prints_or_saves_list (add_task text)
  /\ effects prints_or_saves_list (complete_task index_str)
  /\ effects prints_or_saves_list (remove_task index_str)
  /\ effects prints_or_saves_list clear_completed.
Proof.
  assert (HP : forall line, prints_or_saves_list (Printed line))
    by (intros; exact I).
  split; [|split; [|split]]; intros w.
  - unfold add_task. destruct (validate_task_text (Some text)).
    + apply effects_load. intros todos _.
      apply effects_bind; [eapply effects_pure; reflexivity|].
      intros new_item w1 _. apply effects_lift. intros todos' Ha.
      apply effects_save; [exact (py_append_list _ _ _ Ha)|exact HP|].
      intros w2. unfold print_success. apply effects_print; [apply HP|].
      intros w3. apply effects_ret.
    + unfold print_error. apply effects_print; [apply HP|].
      intros w1. apply effects_ret.
  - unfold complete_task. apply effects_load. intros todos _.
    destruct (py_bool todos).
    + apply effects_lift. intros [i|] _.
      * apply effects_lift. intros todo _. apply effects_lift. intros c _.
        destruct (py_bool c).
        -- unfold print_info. apply effects_print; [apply HP|].
           intros w1. apply effects_ret.
        -- apply effects_lift. intros updated Hu.
           apply effects_save; [exact (setitem_item_list _ _ _ _ _ Hu)|exact HP|].
           intros w1. apply effects_lift. intros name _.
           unfold print_success. apply effects_print; [apply HP|].
           intros w2. apply effects_ret.
      * unfold print_error. apply effects_print; [apply HP|].
        intros w1. apply effects_ret.
    + unfold print_error. apply effects_print; [apply HP|].
      intros w1. apply effects_ret.
  - unfold remove_task. apply effects_load. intros todos _.
    destruct (py_bool todos).
    + apply effects_lift. intros [i|] _.
      * apply effects_lift. intros popped Hpop.
        apply effects_save; [exact (py_pop_list _ _ _ Hpop)|exact HP|].
        intros w1. apply effects_lift. intros name _.
        unfold print_success. apply effects_print; [apply HP|].
        intros w2. apply effects_ret.
      * unfold print_error. apply effects_print; [apply HP|].
        intros w1. apply effects_ret.
    + unfold print_error. apply effects_print; [apply HP|].
      intros w1. apply effects_ret.
  - unfold clear_completed. apply effects_load. intros todos _.
    apply effects_lift. intros items _. apply effects_lift. intros n _.
    destruct (n =? 0).
    + unfold print_info. apply effects_print; [apply HP|].
      intros w1. apply effects_ret.
    + apply effects_lift. intros items' _. apply effects_lift.
      intros remaining _.
      apply effects_save; [eexists; reflexivity|exact HP|].
      intros w1. unfold print_success. apply effects_print; [apply HP|].
      intros w2. apply effects_ret.
Qed.

(** ** Decimal numerals

    [str(n)] writes the numeral that [int] reads back as [n]. *)

Lemma ascii_space_cases (c : Z) :
  ascii_space c = true ->
  is_digit c = false /\ (c =? 95) = false /\ (c =? 43) = false
  /\ (c =? 45) = false /\ (c <? 128) = true.
Proof.
  unfold ascii_space, is_digit, in_range. intros H.
  assert (R : 9 <= c <= 13 \/ c = 32).
  { destruct (Z.leb_spec 9 c), (Z.leb_spec c 13), (Z.eqb_spec c 32);
      cbn in H; try discriminate; lia. }
  clear H. repeat split; bool_cases; cbn [andb]; try reflexivity; lia.
Qed.

Lemma scan_digits_stop (acc : Z) (post : str) :
  forallb ascii_space post = true -> scan_digits acc false post = Some (acc, post).
Proof.
  destruct post as [|c r]; [reflexivity|]. cbn [forallb scan_digits].
  intros H. apply andb_true_iff in H. destruct H as [H _].
  destruct (ascii_space_cases c H) as (-> & -> & _). reflexivity.
Qed.

Lemma scan_uint_acc (d : Decimal.uint) (acc : positive) (post : str) :
  forallb ascii_space post = true ->
  scan_digits (Z.pos acc) false (lit (NilEmpty.string_of_uint d) ++ post)
  = Some (Z.pos (Pos.of_uint_acc d acc), post).
Proof.
  intros Hpost. revert acc.
  induction d as [|d IH|d IH|d IH|d IH|d IH|d IH|d IH|d IH|d IH|d IH];
    intros acc; [apply scan_digits_stop, Hpost|..];
    cbn [NilEmpty.string_of_uint Pos.of_uint_acc]; rewrite <- IH;
    change (lit (String ?a ?s) ++ ?p)
      with (Z.of_nat (nat_of_ascii a) :: (lit s ++ p));
    match goal with
    | |- context [Z.of_nat (nat_of_ascii ?a)] =>
        let v := eval vm_compute in (Z.of_nat (nat_of_ascii a)) in
        change (Z.of_nat (nat_of_ascii a)) with v
    end;
    cbn [scan_digits];
    match goal with
    | |- context [is_digit ?c] => change (is_digit c) with true
    end;
    cbv iota;
    match goal with
    | |- scan_digits ?a _ _ = scan_digits ?b _ _ => replace a with b by lia
    end;
    reflexivity.
Qed.

Lemma scan_uint (d : Decimal.uint) (post : str) :
  forallb ascii_space post = true ->
  scan_digits 0 false (lit (NilEmpty.string_of_uint d) ++ post)
  = Some (Z.of_uint d, post).
Proof.
  intros Hpost.
  induction d as [|d IH|d|d|d|d|d|d|d|d|d];
    [apply scan_digits_stop, Hpost|exact IH|..];
    exact (scan_uint_acc d _ post Hpost).
Qed.

Lemma uint_ascii (d : Decimal.uint) :
  forallb (fun c => c <? 128) (lit (NilEmpty.string_of_uint d)) = true.
Proof. induction d; [reflexivity|exact IHd..]. Qed.

Lemma ascii_space_ascii (s : str) :
  forallb ascii_space s = true -> forallb (fun c => c <? 128) s = true.
Proof.
  induction s as [|c s IH]; [reflexivity|]. cbn [forallb]. intros H.
  apply andb_true_iff in H. destruct H as [Hc Hs].
  destruct (ascii_space_cases c Hc) as (_ & _ & _ & _ & ->). exact (IH Hs).
Qed.

Lemma uint_head (d : Decimal.uint) :
  d <> Decimal.Nil ->
  exists c r, lit (NilEmpty.string_of_uint d) = c :: r /\ is_digit c = true.
Proof. destruct d; [congruence|intros _; eexists; eexists; split; reflexivity..]. Qed.

Lemma skip_ascii_space_app (pre s : str) :
  forallb ascii_space pre = true ->
  skip_ascii_space (pre ++ s) = skip_ascii_space s.
Proof.
  induction pre as [|c pre IH]; [reflexivity|]. cbn [forallb app skip_ascii_space].
  intros H. apply andb_true_iff in H. destruct H as [-> Hs]. exact (IH Hs).
Qed.

Lemma skip_ascii_space_all (s : str) :
  forallb ascii_space s = true -> skip_ascii_space s = [].
Proof.
  intros H. rewrite <- (app_nil_r s). rewrite skip_ascii_space_app by exact H.
  reflexivity.
Qed.

(** Blanks, an optional sign, the digits of [d], blanks. *)
Lemma long_from_numeral (d : Decimal.uint) (pre post : str) :
  d <> Decimal.Nil ->
  forallb ascii_space pre = true -> forallb ascii_space post = true ->
  long_from_string (pre ++ lit (NilEmpty.string_of_uint d) ++ post)
  = Some (Z.of_uint d)
  /\ long_from_string (pre ++ 43 :: lit (NilEmpty.string_of_uint d) ++ post)
     = Some (Z.of_uint d)
  /\ long_from_string (pre ++ 45 :: lit (NilEmpty.string_of_uint d) ++ post)
     = Some (- Z.of_uint d).
Proof.
  intros Hd Hpre Hpost. pose proof (scan_uint d post Hpost) as Hs.
  pose proof (skip_ascii_space_all post Hpost) as Hend.
  destruct (uint_head d Hd) as (c & r & E & Hc). rewrite E in *.
  cbn [app scan_digits] in Hs. rewrite Hc in Hs.
  replace (10 * 0 + (c - 48)) with (c - 48) in Hs by lia.
  assert (Hsp : ascii_space c = false /\ (c =? 43) = false /\ (c =? 45) = false).
  { unfold is_digit, ascii_space, in_range in *. repeat split; bool_cases; lia. }
  destruct Hsp as (H1 & H2 & H3).
  repeat split; unfold long_from_string;
    rewrite (skip_ascii_space_app pre _ Hpre).
  - cbn [app skip_ascii_space]. rewrite H1, H2, H3, Hc, Hs, Hend. reflexivity.
  - change (skip_ascii_space (43 :: (c :: r) ++ post))
      with (43 :: (c :: r) ++ post).
    cbn [app]. change (43 =? 43) with true. cbv iota.
    rewrite Hc, Hs, Hend. reflexivity.
  - change (skip_ascii_space (45 :: (c :: r) ++ post))
      with (45 :: (c :: r) ++ post).
    cbn [app]. change (45 =? 43) with false. change (45 =? 45) with true.
    cbv iota. rewrite Hc, Hs, Hend. reflexivity.
Qed.

(** The numeral of [n]: the digits of [|n|], after a minus sign when [n] is
    negative. *)
Lemma str_of_int_shape (n : Z) :
  exists d, d <> Decimal.Nil /\ Z.of_uint d = Z.abs n
    /\ str_of_int n
       = (if n <? 0 then [45] else []) ++ lit (NilEmpty.string_of_uint d).
Proof.
  unfold str_of_int. destruct n as [|p|p].
  - exists (Decimal.D0 Decimal.Nil). repeat split. discriminate.
  - exists (Pos.to_uint p).
    pose proof (DecimalPos.Unsigned.to_uint_nonnil p) as Hd.
    split; [exact Hd|]. split.
    + unfold Z.of_uint. rewrite DecimalPos.Unsigned.of_to. reflexivity.
    + cbn [Z.to_int NilZero.string_of_int].
      destruct (Pos.to_uint p); [congruence|reflexivity..].
  - exists (Pos.to_uint p).
    pose proof (DecimalPos.Unsigned.to_uint_nonnil p) as Hd.
    split; [exact Hd|]. split.
    + unfold Z.of_uint. rewrite DecimalPos.Unsigned.of_to. reflexivity.
    + cbn [Z.to_int NilZero.string_of_int].
      destruct (Pos.to_uint p); [congruence|reflexivity..].
Qed.

Lemma py_int_numeral (n : Z) (pre post : str) :
  forallb ascii_space pre = true -> forallb ascii_space post = true ->
  py_int (pre ++ str_of_int n ++ post) = Some n
  /\ (0 <= n -> py_int (pre ++ 43 :: str_of_int n ++ post) = Some n).
Proof.
  intros Hpre Hpost.
  destruct (str_of_int_shape n) as (d & Hd & Hv & ->).
  destruct (long_from_numeral d pre post Hd Hpre Hpost) as (L1 & L2 & L3).
  pose proof (ascii_space_ascii pre Hpre) as Apre.
  pose proof (ascii_space_ascii post Hpost) as Apost.
  pose proof (uint_ascii d) as Ad.
  unfold py_int, transform_decimal_and_space.
  destruct (Z.ltb_spec n 0) as [Hn|Hn]; cbn [app].
  - split; [|lia].
    replace (forallb (fun c => c <? 128)
               (pre ++ 45 :: lit (NilEmpty.string_of_uint d) ++ post))
      with true.
    + rewrite L3, Hv. f_equal. lia.
    + rewrite forallb_app. cbn [forallb]. rewrite forallb_app, Apre, Ad, Apost.
      reflexivity.
  - split; [|intros _].
    + replace (forallb (fun c => c <? 128)
                 (pre ++ lit (NilEmpty.string_of_uint d) ++ post))
        with true.
      * rewrite L1, Hv. f_equal. lia.
      * rewrite !forallb_app, Apre, Ad, Apost. reflexivity.
    + replace (forallb (fun c => c <? 128)
                 (pre ++ 43 :: lit (NilEmpty.string_of_uint d) ++ post))
        with true.
      * rewrite L2, Hv. f_equal. lia.
      * rewrite forallb_app. cbn [forallb]. rewrite forallb_app, Apre, Ad, Apost.
        reflexivity.
Qed.

Lemma py_int_str_of_int (n : Z) : py_int (str_of_int n) = Some n.
Proof.
  pose proof (py_int_numeral n [] [] eq_refl eq_refl) as [H _].
  cbn [app] in H. rewrite app_nil_r in H. exact H.
Qed.


Lemma position_last (T : list Task) (t : Task) :
  position (T ++ [t]) (Z.of_nat (length T) + 1) = Some t.
Proof.
  unfold position. destruct (Z.leb_spec 1 (Z.of_nat (length T) + 1)); [|lia].
  replace (Z.to_nat (Z.of_nat (length T) + 1 - 1)) with (length T) by lia.
  apply list_lookup_middle. reflexivity.
Qed.

Lemma delete_last (T : list Task) (t : Task) :
  delete (Z.to_nat (Z.of_nat (length T) + 1 - 1)) (T ++ [t]) = T.
Proof.
  replace (Z.to_nat (Z.of_nat (length T) + 1 - 1)) with (length T) by lia.
  induction T as [|u T IH]; [reflexivity|].
  cbn [length app]. change (delete (S (length T)) (u :: (T ++ [t])))
    with (u :: delete (length T) (T ++ [t])).
  rewrite IH. reflexivity.
Qed.

(** X9: on a stored list of well-formed tasks, adding a valid Unicode text
    (one without surrogate code points) and then removing the task numbered
    len(list) + 1 both answer true and leave the
    stored list as it was before the two commands; the second command
    reports the removal of the stripped text. *)
Theorem add_then_remove_last (w : world) (T : list Task) (text : str) :
  holds w T -> Forall well_formed T ->
  validate_task_text (Some text) = true ->
  forallb scalar text = true -> forallb scalar (clock w) = true ->
  exists w1 w2,
    add_task text w = Return true w1
    /\ remove_task (str_of_int (Z.of_nat (length T) + 1)) w1 = Return true w2
    /\ holds w1 (T ++ [new_todo text w])
    /\ holds w2 T
    /\ events w2
       = events w1
         ++ [ Saved (todos_value T);
              Printed (success_line
                         (chars (lit "Task ")
                          ++ chars (str_of_int (Z.of_nat (length T) + 1))
                          ++ chars (lit " removed: ") ++ chars (strip text))) ].
Proof.
  intros (Hr & Hw & Hl) Hwf Hv Ht Hc.
  destruct (add_task_run w T text Hl Hw Hwf Hv Ht Hc) as (bytes & E & Hrun).
  assert (Hwf' : Forall well_formed (T ++ [new_todo text w])).
  { apply Forall_app. split; [exact Hwf|].
    constructor; [apply well_formed_new_todo; assumption|constructor]. }
  match type of Hrun with _ = Return true ?v => set (w1 := v) in * end.
  assert (H1 : holds w1 (T ++ [new_todo text w]))
    by (apply (holds_after_save _ bytes); auto).
  destruct H1 as (Hr1 & Hw1 & Hl1).
  destruct (remove_task_run w1 _ _ _ _ Hl1 Hw1 Hwf'
              (py_int_str_of_int _) (position_last T (new_todo text w)))
    as (bytes2 & E2 & Hrun2).
  rewrite delete_last in E2, Hrun2.
  exists w1. eexists. split; [exact Hrun|]. split; [exact Hrun2|].
  split; [repeat split; assumption|]. split.
  - apply (holds_after_save _ bytes2); auto.
  - apply events_saved_printed.
Qed.

(** ** The numbers a listing shows *)

Lemma list_tasks_run (w : world) (T : list Task) :
  load_todos w = Return (todos_value T) w -> T <> [] ->
  list_tasks w
  = Return tt
      (log_all
         (map Printed
            (title_lines
             ++ group_lines pending_heading 1
                  (List.filter (fun t => negb (completed t)) T)
             ++ group_lines completed_heading
                  (Z.of_nat (length (List.filter (fun t => negb (completed t)) T))
                   + 1)
                  (List.filter completed T)
             ++ [summary_line (Z.of_nat (length T))
                   (Z.of_nat (length (List.filter completed T)))
                   (Z.of_nat (length (List.filter
                                        (fun t => negb (completed t)) T)))]))
         w).
Proof.
  intros Hl Hne.
  unfold list_tasks. eapply bind_step; [exact Hl|].
  rewrite todos_bool. destruct T as [|t0 T0]; [congruence|].
  eapply bind_step; [apply print_header_lines|].
  eapply bind_step; [reflexivity|].
  eapply bind_step;
    [unfold lift; rewrite select_tasks, filter_pending; reflexivity|].
  eapply bind_step; [reflexivity|].
  eapply bind_step;
    [unfold lift; rewrite select_tasks, filter_completed; reflexivity|].
  eapply bind_step; [apply (group_lines_run pending_heading 1)|].
  eapply bind_step; [apply (group_lines_run completed_heading)|].
  eapply bind_step; [reflexivity|].
  unfold print. rewrite !length_map, !map_app, !log_all_app. reflexivity.
Qed.

Lemma group_lines_in (heading : text) (start : Z) (P : list Task) (k : nat)
    (t : Task) :
  P !! k = Some t ->
  In (chars (lit "  ") ++ item_line t (start + Z.of_nat k))
    (group_lines heading start P).
Proof.
  intros H. pose proof (numbered_lookup start P k t H) as Hn.
  destruct P as [|u P]; [discriminate H|].
  unfold group_lines. right. apply in_map_iff.
  exists (start + Z.of_nat k, t). split; [reflexivity|].
  apply list_elem_of_In. exact (list_elem_of_lookup_2 _ _ _ Hn).
Qed.

Lemma filter_all_length {A} (f : A -> bool) (l : list A) :
  length (List.filter f l) = length l <-> forallb f l = true.
Proof.
  induction l as [|x l IH]; [cbn; split; reflexivity|].
  pose proof (List.filter_length_le f l) as Hle.
  cbn [List.filter forallb length]. destruct (f x); cbn [andb length].
  - rewrite <- IH. split; lia.
  - split; [lia|discriminate].
Qed.

(** X10: in the listing of a stored list, the task at storage position
    len(before) + 1 is shown under the number 1 + (pending tasks before it)
    when it is pending, and under len(pending) + 1 + (completed tasks before
    it) when it is completed.  The number shown is the storage position that
    complete_task and remove_task expect exactly when no completed task
    stands before a pending one here: for a pending task, when all tasks
    before it are pending; for a completed task, when all tasks after it are
    completed. *)
Theorem listing_number_of_task (w : world) (before : list Task) (t : Task)
    (after : list Task) :
  let T := before ++ t :: after in
  let pending := List.filter (fun u => negb (completed u)) in
  let shown :=
    if completed t
    then Z.of_nat (length (pending T)) + 1
         + Z.of_nat (length (List.filter completed before))
    else 1 + Z.of_nat (length (pending before)) in
  load_todos w = Return (todos_value T) w ->
  exists w' lines,
    list_tasks w = Return tt w'
    /\ events w' = events w ++ map Printed lines
    /\ In (chars (lit "  ") ++ item_line t shown) lines
    /\ position T (Z.of_nat (length before) + 1) = Some t
    /\ (shown = Z.of_nat (length before) + 1
        <-> if completed t
            then forallb completed after = true
            else forallb (fun u => negb (completed u)) before = true).
Proof.
  intros T pending shown Hl.
  assert (Hne : T <> []) by (subst T; destruct before; discriminate).
  eexists. eexists. split; [exact (list_tasks_run w T Hl Hne)|].
  split; [apply log_all_events|].
  assert (HP : pending T = pending before ++ pending (t :: after))
    by (subst T pending; cbv beta; apply List.filter_app).
  assert (HD : List.filter completed T
               = List.filter completed before ++ List.filter completed (t :: after))
    by (subst T; apply List.filter_app).
  pose proof (filter_partition_length before) as Hb.
  pose proof (filter_partition_length after) as Ha.
  split; [|split].
  - apply in_or_app. right. subst shown. destruct (completed t) eqn:Hc.
    + apply in_or_app. right. apply in_or_app. left.
      fold (pending T). apply group_lines_in. rewrite HD. cbn [List.filter]. rewrite Hc.
      apply list_lookup_middle. reflexivity.
    + apply in_or_app. left. fold (pending T).
      apply group_lines_in. rewrite HP. subst pending. cbn [List.filter].
      rewrite Hc. cbn [negb]. apply list_lookup_middle. reflexivity.
  - subst T. unfold position.
    destruct (Z.leb_spec 1 (Z.of_nat (length before) + 1)); [|lia].
    replace (Z.to_nat (Z.of_nat (length before) + 1 - 1)) with (length before)
      by lia.
    apply list_lookup_middle. reflexivity.
  - subst shown. rewrite HP. subst pending. cbv beta. cbn [List.filter].
    destruct (completed t) eqn:Hc; cbn [negb].
    + rewrite length_app. rewrite <- (filter_all_length completed after).
      cbn [length]. split; intros H; lia.
    + rewrite <- filter_all_length. split; intros H; lia.
Qed.

(** ** Text that cannot be written *)

Lemma surrogate_range (c : Z) : is_surrogate c = true -> 55296 <= c <= 57343.
Proof. unfold is_surrogate, in_range. intros H. bool_cases; try discriminate; lia. Qed.

Ltac decide_comparisons c :=
  repeat match goal with
    | |- context [c <=? ?k] =>
        replace (c <=? k) with false by (symmetry; apply Z.leb_gt; lia)
    | |- context [c <? ?k] =>
        replace (c <? k) with false by (symmetry; apply Z.ltb_ge; lia)
    | |- context [c =? ?k] =>
        replace (c =? k) with false by (symmetry; apply Z.eqb_neq; lia)
    end.

Lemma surrogate_not_space (c : Z) : is_surrogate c = true -> isspace c = false.
Proof.
  intros H. apply surrogate_range in H. unfold isspace, in_range.
  decide_comparisons c. rewrite ?andb_false_r. reflexivity.
Qed.

Lemma escape_surrogate (c : Z) : is_surrogate c = true -> escape_char c = [c].
Proof.
  intros H. apply surrogate_range in H. unfold escape_char, in_range.
  decide_comparisons c. rewrite ?andb_false_r. reflexivity.
Qed.

Lemma utf8_encode_char_surrogate (c : Z) :
  is_surrogate c = true -> utf8_encode_char c = None.
Proof.
  intros H. pose proof (surrogate_range c H) as R. unfold utf8_encode_char.
  rewrite H.
  destruct (Z.ltb_spec c 0); [lia|]. destruct (Z.ltb_spec c 128); [lia|].
  destruct (Z.ltb_spec c 2048); [lia|]. destruct (Z.ltb_spec c 65536); [|lia].
  reflexivity.
Qed.

Lemma utf8_encode_fails (s : str) (c : Z) :
  In c s -> utf8_encode_char c = None -> utf8_encode s = None.
Proof.
  induction s as [|x s IH]; intros Hin Hc; [destruct Hin|].
  cbn [utf8_encode]. destruct Hin as [->|Hin].
  - rewrite Hc. reflexivity.
  - rewrite (IH Hin Hc). destruct (utf8_encode_char x); reflexivity.
Qed.

Lemma encode_basestring_in (s : str) (c : Z) :
  In c s -> is_surrogate c = true -> In c (encode_basestring s).
Proof.
  intros Hin Hc. unfold encode_basestring. right. apply in_or_app. left.
  apply in_concat. exists [c]. split; [|left; reflexivity].
  apply in_map_iff. exists c. split; [apply escape_surrogate, Hc|exact Hin].
Qed.

Lemma join_in (sep : str) (items : list str) (x : str) (c : Z) :
  In x items -> In c x -> In c (join sep items).
Proof.
  induction items as [|y items IH]; intros Hx Hc; [destruct Hx|].
  cbn [join]. destruct Hx as [->|Hx].
  - destruct items; [exact Hc|]. apply in_or_app. left. exact Hc.
  - destruct items as [|z items]; [destruct Hx|].
    apply in_or_app. right. apply in_or_app. right. exact (IH Hx Hc).
Qed.

Lemma json_dumps_in (T : list Task) (t : Task) (c : Z) :
  In t T -> In c (task t) -> is_surrogate c = true ->
  In c (json_dumps (todos_value T)).
Proof.
  intros Ht Hin Hc. unfold json_dumps, todos_value.
  destruct T as [|u T]; [destruct Ht|].
  cbn [map iterencode].
  change (iterencode 1 (task_value u) :: map (iterencode 1) (map task_value T))
    with (map (iterencode 1) (map task_value (u :: T))).
  apply in_or_app. right. apply in_or_app. right. apply in_or_app. left.
  apply (join_in _ _ (iterencode 1 (task_value t))).
  - apply in_map, in_map, Ht.
  - rewrite iterencode_task. right. apply in_or_app. right.
    apply in_or_app. right. apply in_or_app. left.
    apply encode_basestring_in; assumption.
Qed.

Lemma lstrip_in (s : str) (c : Z) :
  In c s -> isspace c = false -> In c (lstrip s).
Proof.
  induction s as [|x s IH]; intros Hin Hc; [destruct Hin|].
  cbn [lstrip]. destruct (isspace x) eqn:Hx; [|exact Hin].
  destruct Hin as [->|Hin]; [congruence|]. exact (IH Hin Hc).
Qed.

Lemma strip_in (s : str) (c : Z) :
  In c s -> isspace c = false -> In c (strip s).
Proof.
  intros Hin Hc. unfold strip, rstrip. apply in_rev.
  rewrite rev_involutive. apply lstrip_in; [|exact Hc].
  apply in_rev. rewrite rev_involutive. apply lstrip_in; assumption.
Qed.

(** X11: a text that holds a surrogate code point (as a command-line
    argument that is not UTF-8 does) passes validation, but the list with
    the new task cannot be written as UTF-8: [add_task] ends with an
    uncaught UnicodeEncodeError, neither answering true or false nor leaving
    through the exit of a failed save. *)
Theorem add_task_surrogate (w : world) (T : list Task) (text : str) (c : Z) :
  load_todos w = Return (todos_value T) w -> writable w = true ->
  In c text -> is_surrogate c = true ->
  validate_task_text (Some text) = true
  /\ add_task text w = Raise UnicodeEncodeError.
Proof.
  intros Hl Hw Hin Hc.
  pose proof (strip_in text c Hin (surrogate_not_space c Hc)) as Hs.
  assert (Hv : validate_task_text (Some text) = true).
  { cbn [validate_task_text]. destruct text as [|z r]; [destruct Hin|].
    cbn [str_bool]. destruct (strip (z :: r)); [destruct Hs|reflexivity]. }
  split; [exact Hv|].
  unfold add_task. rewrite Hv.
  eapply bind_step; [exact Hl|].
  eapply bind_step with (a := task_value (new_todo text w)); [reflexivity|].
  eapply bind_step;
    [unfold lift; rewrite (todos_append T (new_todo text w)); reflexivity|].
  unfold bind, save_todos. rewrite Hw.
  rewrite (utf8_encode_fails _ c); [reflexivity| |].
  - apply (json_dumps_in _ (new_todo text w)); [|exact Hs|exact Hc].
    apply in_or_app. right. left. reflexivity.
  - apply utf8_encode_char_surrogate, Hc.
Qed.

(** ** The stored texts stay trimmed *)

Lemma remove_task_declined (w : world) (T : list Task) (s : str) :
  load_todos w = Return (todos_value T) w ->
  get_valid_task_index (todos_value T) s = Ok None ->
  exists line, remove_task s w = Return false (log (Printed line) w).
Proof.
  intros Hl Hres. unfold remove_task, bind. rewrite Hl, todos_bool.
  destruct T as [|t T]; [eexists; reflexivity|].
  unfold lift. rewrite Hres. eexists. reflexivity.
Qed.

Lemma sound_store_printed (w : world) (T : list Task) (lines : list text) :
  sound_store w T -> sound_store (log_all (map Printed lines) w) T.
Proof.
  intros (H & Hwf & Htr & Hc).
  assert (F : forall es w0,
             readable (log_all es w0) = readable w0
             /\ writable (log_all es w0) = writable w0
             /\ clock (log_all es w0) = clock w0).
  { induction es as [|e es IH]; intros w0; [repeat split|].
    cbn [log_all fold_left].
    change (fold_left (fun w' e0 => log e0 w') es (log e w0))
      with (log_all es (log e w0)).
    destruct (IH (log e w0)) as (A & B & C). rewrite A, B, C.
    repeat split. }
  destruct (F (map Printed lines) w) as (A & B & C).
  split; [|split; [exact Hwf|split; [exact Htr|rewrite C; exact Hc]]].
  apply (holds_frame w); [apply log_all_file|exact A|exact B|exact H].
Qed.

Lemma sound_store_saved (w : world) (T T' : list Task) (bytes : list Z)
    (line : text) :
  sound_store w T -> Forall well_formed T' -> Forall trimmed T' ->
  utf8_encode (json_dumps (todos_value T')) = Some bytes ->
  sound_store (log (Printed line)
                 (log (Saved (todos_value T')) (write_file bytes w))) T'.
Proof.
  intros ((Hr & Hw & Hl) & _ & _ & Hc) Hwf Htr E.
  split; [|split; [exact Hwf|split; [exact Htr|exact Hc]]].
  apply (holds_after_save _ bytes); auto.
Qed.

Lemma trimmed_new_todo (text : str) (w : world) :
  validate_task_text (Some text) = true -> trimmed (new_todo text w).
Proof.
  intros Hv. split; [|apply strip_idempotent].
  cbn [new_todo task]. cbn [validate_task_text] in Hv.
  destruct (str_bool text); [|discriminate].
  intros N. rewrite N in Hv. discriminate.
Qed.

(** X12: the stored texts stay as create_todo makes them.  Started on a
    writable store whose tasks hold Unicode text that is not empty and has
    no whitespace at either end, each of the five commands returns (it
    neither raises nor exits) and leaves such a store again, whatever the
    index string is and for every Unicode text to add. *)
Theorem commands_preserve_sound_store (text index_str : str) :
  forallb scalar text = true ->
  preserves (add_task text)
  /\ preserves list_tasks
  /\ preserves (complete_task index_str)
  /\ preserves (remove_task index_str)
  /\ preserves clear_completed.
Proof.
  intros Ht.
  assert (P1 : forall w T line, sound_store w T ->
                 sound_store (log (Printed line) w) T)
    by (intros w T line H; exact (sound_store_printed w T [line] H)).
  split; [|split; [|split; [|split]]]; intros w T Hs;
    pose proof Hs as ((Hr & Hw & Hl) & Hwf & Htr & Hc).
  - destruct (validate_task_text (Some text)) eqn:Hv.
    + destruct (add_task_run w T text Hl Hw Hwf Hv Ht Hc) as (bytes & E & Hrun).
      eexists. eexists. exists (T ++ [new_todo text w]).
      split; [exact Hrun|]. apply (sound_store_saved w T); [exact Hs| | |exact E].
      * apply Forall_app. split; [exact Hwf|].
        constructor; [apply well_formed_new_todo; assumption|constructor].
      * apply Forall_app. split; [exact Htr|].
        constructor; [apply trimmed_new_todo, Hv|constructor].
    + eexists. eexists. exists T. unfold add_task. rewrite Hv.
      split; [reflexivity|]. apply P1, Hs.
  - destruct T as [|t T].
    + eexists. eexists. exists []. split.
      * unfold list_tasks. eapply bind_step; [exact Hl|]. reflexivity.
      * apply P1, P1, Hs.
    + eexists. eexists. exists (t :: T).
      split; [apply list_tasks_run; [exact Hl|discriminate]|].
      apply sound_store_printed, Hs.
  - destruct (resolve_cases T index_str) as [Hn|(i & t & Hi & Hp)].
    + destruct (complete_task_declined w T index_str Hl (or_introl Hn))
        as [line E].
      eexists. eexists. exists T. split; [exact E|]. apply P1, Hs.
    + destruct (position_lookup _ _ _ Hp) as [_ Hk].
      destruct (completed t) eqn:Hd.
      * destruct (complete_task_declined w T index_str Hl
                    (or_intror (ex_intro _ i (ex_intro _ t (conj Hi (conj Hp Hd))))))
          as [line E].
        eexists. eexists. exists T. split; [exact E|]. apply P1, Hs.
      * destruct (complete_task_run w T index_str i t Hl Hw Hwf Hi Hp Hd)
          as (bytes & E & Hrun).
        eexists. eexists. eexists. split; [exact Hrun|].
        apply (sound_store_saved w T); [exact Hs| | |exact E].
        -- apply Forall_insert; [exact Hwf|]. apply well_formed_mark.
           rewrite Forall_lookup in Hwf. exact (Hwf _ t Hk).
        -- apply Forall_insert; [exact Htr|].
           rewrite Forall_lookup in Htr. exact (Htr _ t Hk).
  - destruct (resolve_cases T index_str) as [Hn|(i & t & Hi & Hp)].
    + destruct (remove_task_declined w T index_str Hl Hn) as [line E].
      eexists. eexists. exists T. split; [exact E|]. apply P1, Hs.
    + destruct (remove_task_run w T index_str i t Hl Hw Hwf Hi Hp)
        as (bytes & E & Hrun).
      eexists. eexists. eexists. split; [exact Hrun|].
      apply (sound_store_saved w T); [exact Hs| | |exact E];
        apply Forall_delete; assumption.
  - destruct (existsb completed T) eqn:Hd.
    + destruct (clear_completed_run w T Hl Hw Hwf Hd) as (bytes & E & Hrun).
      eexists. eexists. eexists. split; [exact Hrun|].
      apply (sound_store_saved w T); [exact Hs| | |exact E].
      * apply well_formed_filter, Hwf.
      * apply Forall_forall. intros u Hu. apply list_elem_of_In in Hu.
        apply List.filter_In in Hu. rewrite Forall_forall in Htr.
        apply Htr. apply list_elem_of_In. exact (proj1 Hu).
    + destruct (clear_completed_declined w T Hl Hd) as [line E].
      eexists. eexists. exists T. split; [exact E|]. apply P1, Hs.
Qed.
End Proofs.

(** * The model at work *)

#[local] Existing Instance sample_runtime.

Lemma sample_well_formed : Forall well_formed [milk; bread].
Proof. repeat constructor. Defined.

Lemma sample_holds : holds (stored [milk; bread]) [milk; bread].
Proof. repeat split; vm_compute; reflexivity. Defined.

Lemma save_load_round_trip_witness :
  Forall well_formed [milk; bread]
  /\ writable fresh = true /\ readable fresh = true
  /\ exists w',
       save_todos (todos_value [milk; bread]) fresh = Return tt w'
       /\ load_todos w' = Return (todos_value [milk; bread]) w'.
Proof.
  split; [exact sample_well_formed|]. split; [reflexivity|].
  split; [reflexivity|].
  exact (save_load_round_trip [milk; bread] fresh
           sample_well_formed eq_refl eq_refl).
Defined.

Lemma remove_task_shifts_witness :
  holds (stored [milk; bread]) [milk; bread]
  /\ Forall well_formed [milk; bread]
  /\ py_int (lit "1") = Some 1
  /\ 1 <= 1 <= Z.of_nat (length [milk; bread])
  /\ exists (w' : world) (before : list Task) (removed : Task)
       (after : list Task),
       remove_task (lit "1")
         (stored [milk; bread]) = Return true w'
       /\ [milk; bread] = before ++ removed :: after
       /\ Z.of_nat (length before) = 1 - 1
       /\ holds w' (before ++ after)
       /\ S (length (before ++ after)) = length [milk; bread]
       /\ (forall p, 1 <= p < 1 ->
             position (before ++ after) p = position [milk; bread] p)
       /\ (forall p, 1 <= p ->
             position (before ++ after) p = position [milk; bread] (p + 1)).
Proof.
  assert (R : 1 <= 1 <= Z.of_nat (length [milk; bread])) by (cbn; lia).
  split; [exact sample_holds|]. split; [exact sample_well_formed|].
  split; [reflexivity|]. split; [exact R|].
  exact (remove_task_shifts
           (stored [milk; bread]) [milk; bread] (lit "1") 1
           sample_holds sample_well_formed eq_refl R).
Defined.

Lemma complete_task_twice_witness :
  holds (stored [milk; bread]) [milk; bread]
  /\ Forall well_formed [milk; bread]
  /\ py_int (lit "1") = Some 1
  /\ position [milk; bread] 1 = Some milk
  /\ completed milk = false
  /\ exists (w1 w2 : world) (T' : list Task),
       complete_task (lit "1")
         (stored [milk; bread]) = Return true w1
       /\ complete_task (lit "1") w1
          = Return false w2
       /\ holds w1 T' /\ holds w2 T'
       /\ position T' 1 = Some (mark_completed milk)
       /\ (forall p, p <> 1 -> position T' p = position [milk; bread] p)
       /\ length T' = length [milk; bread]
       /\ file w2 = file w1 /\ no_save w1 w2.
Proof.
  split; [exact sample_holds|]. split; [exact sample_well_formed|].
  split; [reflexivity|]. split; [reflexivity|]. split; [reflexivity|].
  exact (complete_task_twice
           (stored [milk; bread]) [milk; bread] (lit "1") 1 milk
           sample_holds sample_well_formed eq_refl eq_refl eq_refl).
Defined.

Lemma clear_completed_spec_witness :
  holds (stored [milk; bread]) [milk; bread]
  /\ Forall well_formed [milk; bread]
  /\ existsb completed [milk; bread] = true
  /\ exists w',
       clear_completed (stored [milk; bread])
       = Return true w'
       /\ holds w' (List.filter (fun t => negb (completed t)) [milk; bread]).
Proof.
  split; [exact sample_holds|]. split; [exact sample_well_formed|].
  split; [reflexivity|].
  exact (proj2 (clear_completed_spec
                  (stored [milk; bread]) [milk; bread]
                  sample_holds sample_well_formed) eq_refl).
Defined.



(** A file that is not UTF-8 ends the program with the decoding error,
    which [load_todos] does not catch. *)
Example load_todos_garbled : load_todos garbled = Raise UnicodeDecodeError.
Proof. reflexivity. Qed.

Lemma get_valid_task_index_rejects_witness :
  (py_int (lit "abc") = None
   /\ get_valid_task_index
        (VList [task_value milk; task_value bread]) (lit "abc") = Ok None)
  /\ (py_int (lit "3") = Some 3
      /\ (3 < 1 \/ Z.of_nat (length [task_value milk; task_value bread]) < 3)
      /\ get_valid_task_index
           (VList [task_value milk; task_value bread]) (lit "3") = Ok None)
  /\ (get_valid_task_index
        (VList [task_value milk; task_value bread]) (lit "2") = Ok (Some 2)
      /\ py_int (lit "2") = Some 2
      /\ 1 <= 2 <= Z.of_nat (length [task_value milk; task_value bread])).
Proof.
  assert (R : 3 < 1 \/ Z.of_nat (length [task_value milk; task_value bread]) < 3)
    by (right; cbn; lia).
  split; [|split].
  - split; [reflexivity|].
    exact (proj1 (get_valid_task_index_rejects
                    [task_value milk; task_value bread] (lit "abc")) eq_refl).
  - split; [reflexivity|]. split; [exact R|].
    exact (proj1 (proj2 (get_valid_task_index_rejects
                           [task_value milk; task_value bread] (lit "3")))
             3 eq_refl R).
  - split; [reflexivity|].
    exact (proj2 (proj2 (get_valid_task_index_rejects
                           [task_value milk; task_value bread] (lit "2")))
             2 eq_refl).
Defined.

Lemma soft_failures_keep_storage_witness :
  (validate_task_text (Some (lit "   ")) = false
   /\ exists w',
        add_task (lit "   ") fresh = Return false w'
        /\ file w' = file fresh /\ no_save fresh w'
        /\ (forall v, load_todos fresh = Return v fresh ->
              load_todos w' = Return v w'))
  /\ (load_todos (stored [milk; bread])
      = Return (todos_value [milk; bread]) (stored [milk; bread])
      /\ get_valid_task_index (todos_value [milk; bread])
           (lit "5") = Ok None
      /\ exists w',
           remove_task (lit "5")
             (stored [milk; bread]) = Return false w'
           /\ file w' = file (stored [milk; bread])
           /\ no_save (stored [milk; bread]) w'
           /\ load_todos w' = Return (todos_value [milk; bread]) w').
Proof.
  assert (L : load_todos (stored [milk; bread])
              = Return (todos_value [milk; bread]) (stored [milk; bread]))
    by (vm_compute; reflexivity).
  split.
  - split; [reflexivity|].
    exact (proj1 (soft_failures_keep_storage
                   ) fresh (lit "   ") eq_refl).
  - split; [exact L|]. split; [reflexivity|].
    exact (proj1 (proj2 (soft_failures_keep_storage
                          ))
             (stored [milk; bread]) [milk; bread] (lit "5") L eq_refl).
Defined.

Lemma resolved_index_in_bounds_witness :
  get_valid_task_index
    (VList [task_value milk; task_value bread]) (lit "2") = Ok (Some 2)
  /\ 1 <= 2 <= Z.of_nat (length [task_value milk; task_value bread])
  /\ exists x,
       [task_value milk; task_value bread] !! Z.to_nat (2 - 1) = Some x
       /\ getitem_int (VList [task_value milk; task_value bread]) (2 - 1) = Ok x
       /\ py_pop (VList [task_value milk; task_value bread]) (2 - 1)
          = Ok (x, VList (delete (Z.to_nat (2 - 1))
                            [task_value milk; task_value bread])).
Proof.
  split; [reflexivity|].
  exact (proj1 (resolved_index_in_bounds)
           [task_value milk; task_value bread] (lit "2") 2 eq_refl).
Defined.

Lemma list_tasks_output_witness :
  load_todos (stored [milk; bread])
  = Return (todos_value [milk; bread]) (stored [milk; bread])
  /\ [milk; bread] <> []
  /\ (let pending := List.filter (fun t => negb (completed t)) [milk; bread] in
      let done := List.filter completed [milk; bread] in
      list_tasks (stored [milk; bread])
      = Return tt
          (log_all
             (map Printed
                (title_lines
                 ++ group_lines pending_heading 1 pending
                 ++ group_lines completed_heading
                      (Z.of_nat (length pending) + 1) done
                 ++ [counts_line (length [milk; bread]) (length done)
                       (length pending)]))
             (stored [milk; bread]))
      /\ (forall k t, pending !! k = Some t ->
            numbered 1 pending !! k = Some (1 + Z.of_nat k, t))
      /\ (forall k t, done !! k = Some t ->
            numbered (Z.of_nat (length pending) + 1) done !! k
            = Some (Z.of_nat (length pending) + 1 + Z.of_nat k, t))
      /\ (forall t index,
            format_todo_item (task_value t) index
            = Ok (item_line t index))
      /\ length [milk; bread] = (length done + length pending)%nat).
Proof.
  assert (L : load_todos (stored [milk; bread])
              = Return (todos_value [milk; bread]) (stored [milk; bread]))
    by (vm_compute; reflexivity).
  assert (N : [milk; bread] <> []) by discriminate.
  split; [exact L|]. split; [exact N|].
  exact (list_tasks_output (stored [milk; bread]) [milk; bread] L N).
Defined.

(** ** The scenarios of the specification *)

Example validator_examples :
  validate_task_text (Some (lit "Valid task")) = true
  /\ validate_task_text (Some (lit "")) = false
  /\ validate_task_text (Some (lit "   ")) = false
  /\ validate_task_text None = false
  /\ validate_task_index (todos_value [milk; bread]) 1 = Ok true
  /\ validate_task_index (todos_value [milk; bread]) 2 = Ok true
  /\ validate_task_index (todos_value [milk; bread]) 0 = Ok false
  /\ validate_task_index (todos_value [milk; bread]) 3 = Ok false
  /\ get_valid_task_index (todos_value [milk; bread]) (lit "1")
     = Ok (Some 1)
  /\ get_valid_task_index (todos_value [milk; bread])
       (lit "invalid") = Ok None
  /\ get_valid_task_index (todos_value [milk; bread]) (lit "0")
     = Ok None.
Proof. repeat split. Qed.

(** Empty store, add, complete, complete again, clear. *)
Example scenario_complete_and_clear :
  let w1 := world_after (add "Buy milk" fresh) in
  let w2 := world_after (complete "1" w1) in
  let w3 := world_after (complete "1" w2) in
  let w4 := world_after (clear w3) in
  answer (add "Buy milk" fresh) = Some true
  /\ answer (load_todos w1)
     = Some (todos_value
               [ {| task := lit "Buy milk"; completed := false;
                    created := clock fresh |} ])
  /\ answer (complete "1" w1) = Some true
  /\ answer (load_todos w2)
     = Some (todos_value
               [ {| task := lit "Buy milk"; completed := true;
                    created := clock fresh |} ])
  /\ answer (complete "1" w2) = Some false
  /\ answer (clear w3) = Some true
  /\ answer (load_todos w4) = Some (VList []).
Proof. vm_compute. repeat split. Qed.

(** Adding the empty text fails and writes no file. *)
Example scenario_add_empty :
  answer (add "" fresh) = Some false
  /\ file (world_after (add "" fresh)) = None
  /\ answer (load_todos (world_after (add "" fresh))) = Some (VList []).
Proof. vm_compute. repeat split. Qed.

(** Removing task 5 of two fails and leaves the list. *)
Example scenario_remove_out_of_range :
  answer (remove "5" (stored [milk; bread])) = Some false
  /\ answer (load_todos (world_after (remove "5" (stored [milk; bread]))))
     = Some (todos_value [milk; bread]).
Proof. vm_compute. repeat split. Qed.

(** Saving without permission prints the error and exits with status 1. *)
Example save_without_permission :
  exists w,
    save_todos (todos_value [milk])
      {| file := None; readable := true; writable := false;
         clock := clock fresh; events := [] |} = Exit 1 w
    /\ file w = None
    /\ events w = [Printed save_error_line].
Proof. eexists. repeat split; reflexivity. Qed.

(** The summary of the sample listing, character by character. *)
Example sample_summary :
  List.last (events (world_after (list_tasks (stored [milk; bread]))))
    (Saved VNone)
  = Printed (chars ([10; 27] ++ lit "[1mSummary:" ++ [27]
                    ++ lit "[0m 2 total, 1 completed, 1 pending")).
Proof. vm_compute. reflexivity. Qed.

(** ** The further properties at work *)

Lemma add_task_appends_witness :
  holds (stored [milk; bread]) [milk; bread]
  /\ Forall well_formed [milk; bread]
  /\ validate_task_text (Some (lit "  Buy eggs ")) = true
  /\ forallb scalar (lit "  Buy eggs ") = true
  /\ forallb scalar (clock (stored [milk; bread])) = true
  /\ exists w',
       add_task (lit "  Buy eggs ") (stored [milk; bread]) = Return true w'
       /\ holds w' ([milk; bread]
                    ++ [new_todo (lit "  Buy eggs ") (stored [milk; bread])])
       /\ events w'
          = events (stored [milk; bread])
            ++ [ Saved (todos_value
                          ([milk; bread]
                           ++ [new_todo (lit "  Buy eggs ")
                                 (stored [milk; bread])]));
                 Printed (success_line (chars (lit "Task added: ")
                                        ++ chars (lit "  Buy eggs "))) ]
       /\ task (new_todo (lit "  Buy eggs ") (stored [milk; bread])) <> []
       /\ strip (task (new_todo (lit "  Buy eggs ") (stored [milk; bread])))
          = task (new_todo (lit "  Buy eggs ") (stored [milk; bread]))
       /\ validate_task_text
            (Some (task (new_todo (lit "  Buy eggs ") (stored [milk; bread]))))
          = true
       /\ completed (new_todo (lit "  Buy eggs ") (stored [milk; bread])) = false
       /\ created (new_todo (lit "  Buy eggs ") (stored [milk; bread]))
          = clock (stored [milk; bread]).
Proof.
  split; [exact sample_holds|]. split; [exact sample_well_formed|].
  split; [reflexivity|]. split; [reflexivity|]. split; [reflexivity|].
  exact (add_task_appends (stored [milk; bread]) [milk; bread]
           (lit "  Buy eggs ") sample_holds sample_well_formed
           eq_refl eq_refl eq_refl).
Defined.

Lemma complete_task_outcome_witness :
  holds (stored [milk; bread]) [milk; bread]
  /\ Forall well_formed [milk; bread]
  /\ ((exists i t,
         py_int (lit "1") = Some i /\ position [milk; bread] i = Some t
         /\ completed t = false
         /\ exists w',
              complete_task (lit "1") (stored [milk; bread]) = Return true w'
              /\ holds w' (<[Z.to_nat (i - 1) := mark_completed t]> [milk; bread]))
      \/ ((forall i t, py_int (lit "1") = Some i ->
             position [milk; bread] i = Some t -> completed t = true)
          /\ exists w',
               complete_task (lit "1") (stored [milk; bread]) = Return false w'
               /\ file w' = file (stored [milk; bread])
               /\ no_save (stored [milk; bread]) w'
               /\ holds w' [milk; bread])).
Proof.
  split; [exact sample_holds|]. split; [exact sample_well_formed|].
  exact (complete_task_outcome (stored [milk; bread]) [milk; bread] (lit "1")
           sample_holds sample_well_formed).
Defined.

Lemma unwritable_store_exits_witness :
  load_todos locked = Return (todos_value [milk; bread]) locked
  /\ writable locked = false
  /\ (forall text, validate_task_text (Some text) = true ->
        exits_unsaved (add_task text) locked)
  /\ (forall s i t, py_int s = Some i -> position [milk; bread] i = Some t ->
        completed t = false -> exits_unsaved (complete_task s) locked)
  /\ (forall s i t, py_int s = Some i -> position [milk; bread] i = Some t ->
        exits_unsaved (remove_task s) locked)
  /\ (existsb completed [milk; bread] = true ->
      exits_unsaved clear_completed locked).
Proof.
  assert (L : load_todos locked = Return (todos_value [milk; bread]) locked)
    by (vm_compute; reflexivity).
  split; [exact L|]. split; [reflexivity|].
  exact (unwritable_store_exits locked [milk; bread] L eq_refl).
Defined.

Lemma clear_completed_twice_witness :
  holds (stored [milk; bread]) [milk; bread]
  /\ Forall well_formed [milk; bread]
  /\ existsb completed [milk; bread] = true
  /\ exists (w1 w2 : world) (T' : list Task) (cleared : Z),
       clear_completed (stored [milk; bread]) = Return true w1
       /\ clear_completed w1 = Return false w2
       /\ T' = List.filter (fun t => negb (completed t)) [milk; bread]
       /\ holds w1 T' /\ holds w2 T'
       /\ file w2 = file w1 /\ no_save w1 w2
       /\ existsb completed T' = false
       /\ cleared = Z.of_nat (length [milk; bread]) - Z.of_nat (length T')
       /\ 0 < cleared
       /\ events w1
          = events (stored [milk; bread])
            ++ [ Saved (todos_value T');
                 Printed (success_line
                            (chars (lit "Cleared ") ++ chars (str_of_int cleared)
                             ++ chars (lit " completed task(s)"))) ].
Proof.
  split; [exact sample_holds|]. split; [exact sample_well_formed|].
  split; [reflexivity|].
  exact (clear_completed_twice (stored [milk; bread]) [milk; bread]
           sample_holds sample_well_formed eq_refl).
Defined.

Lemma list_tasks_reads_only_witness :
  list_tasks (stored [milk; bread])
  = Return tt (world_after (list_tasks (stored [milk; bread])))
  /\ file (world_after (list_tasks (stored [milk; bread])))
     = file (stored [milk; bread])
  /\ no_save (stored [milk; bread])
       (world_after (list_tasks (stored [milk; bread])))
  /\ forall v,
       load_todos (stored [milk; bread]) = Return v (stored [milk; bread]) ->
       load_todos (world_after (list_tasks (stored [milk; bread])))
       = Return v (world_after (list_tasks (stored [milk; bread]))).
Proof.
  assert (L : list_tasks (stored [milk; bread])
              = Return tt (world_after (list_tasks (stored [milk; bread]))))
    by (vm_compute; reflexivity).
  split; [exact L|].
  exact (list_tasks_reads_only (stored [milk; bread]) _ L).
Defined.


Lemma add_then_remove_last_witness :
  holds (stored [milk; bread]) [milk; bread]
  /\ Forall well_formed [milk; bread]
  /\ validate_task_text (Some (lit "  Buy eggs ")) = true
  /\ forallb scalar (lit "  Buy eggs ") = true
  /\ forallb scalar (clock (stored [milk; bread])) = true
  /\ exists w1 w2,
       add_task (lit "  Buy eggs ") (stored [milk; bread]) = Return true w1
       /\ remove_task (str_of_int (Z.of_nat (length [milk; bread]) + 1)) w1
          = Return true w2
       /\ holds w1 ([milk; bread]
                    ++ [new_todo (lit "  Buy eggs ") (stored [milk; bread])])
       /\ holds w2 [milk; bread]
       /\ events w2
          = events w1
            ++ [ Saved (todos_value [milk; bread]);
                 Printed (success_line
                            (chars (lit "Task ")
                             ++ chars (str_of_int
                                         (Z.of_nat (length [milk; bread]) + 1))
                             ++ chars (lit " removed: ")
                             ++ chars (strip (lit "  Buy eggs ")))) ].
Proof.
  split; [exact sample_holds|]. split; [exact sample_well_formed|].
  split; [reflexivity|]. split; [reflexivity|]. split; [reflexivity|].
  exact (add_then_remove_last (stored [milk; bread]) [milk; bread]
           (lit "  Buy eggs ") sample_holds sample_well_formed
           eq_refl eq_refl eq_refl).
Defined.

(** The completed task stored first is listed second, the pending task
    stored second is listed first. *)
Lemma listing_number_of_task_witness :
  load_todos (stored [bread; milk])
  = Return (todos_value ([bread] ++ milk :: [])) (stored [bread; milk])
  /\ exists w' lines,
       list_tasks (stored [bread; milk]) = Return tt w'
       /\ events w' = events (stored [bread; milk]) ++ map Printed lines
       /\ In (chars (lit "  ") ++ item_line milk 1) lines
       /\ position [bread; milk] 2 = Some milk
       /\ (1 = 2 <-> forallb (fun u => negb (completed u)) [bread] = true).
Proof.
  assert (L : load_todos (stored [bread; milk])
              = Return (todos_value ([bread] ++ milk :: []))
                  (stored [bread; milk]))
    by (vm_compute; reflexivity).
  split; [exact L|].
  exact (listing_number_of_task (stored [bread; milk]) [bread] milk [] L).
Defined.

Lemma add_task_surrogate_witness :
  load_todos (stored [milk; bread])
  = Return (todos_value [milk; bread]) (stored [milk; bread])
  /\ writable (stored [milk; bread]) = true
  /\ In 56448 undecodable
  /\ is_surrogate 56448 = true
  /\ validate_task_text (Some undecodable) = true
  /\ add_task undecodable (stored [milk; bread]) = Raise UnicodeEncodeError.
Proof.
  assert (L : load_todos (stored [milk; bread])
              = Return (todos_value [milk; bread]) (stored [milk; bread]))
    by (vm_compute; reflexivity).
  assert (I : In 56448 undecodable) by (do 4 right; left; reflexivity).
  split; [exact L|]. split; [reflexivity|]. split; [exact I|].
  split; [reflexivity|].
  exact (add_task_surrogate (stored [milk; bread]) [milk; bread] undecodable
           56448 L eq_refl I eq_refl).
Defined.

Lemma commands_preserve_sound_store_witness :
  forallb scalar (lit "Buy eggs") = true
  /\ preserves (add_task (lit "Buy eggs"))
  /\ preserves list_tasks
  /\ preserves (complete_task (lit "1"))
  /\ preserves (remove_task (lit "1"))
  /\ preserves clear_completed.
Proof.
  split; [reflexivity|].
  exact (commands_preserve_sound_store (lit "Buy eggs") (lit "1") eq_refl).
Defined.

(** The sample store is sound, so the commands keep it sound. *)
Example sample_sound_store : sound_store (stored [milk; bread]) [milk; bread].
Proof.
  split; [exact sample_holds|]. split; [exact sample_well_formed|].
  split; [|reflexivity].
  repeat constructor; discriminate.
Qed.
